(** * sysbox-fs: the namespace-crossing request fabric

    A shallow embedding of the nsenter event code (master side and agent
    side) and of the /proc/sys/net/unix handler, with the properties the
    specification states about them.

    Conventions.
    - Go's [int], [int64] and [uint32] are [Z]; conversions that wrap are
      written out ([uint32], [int32]).
    - A Go [error] is a value of type [error]; a nil error is [None].
    - Everything outside the process (kernel, /proc, the socket pair, the
      helper processes) is an oracle: a function of an abstract [World]
      for the agent, a record of step outcomes for the master.
    - Every function also returns the list of the external actions it
      issued, in the order it issued them. *)

From Stdlib Require Import ZArith Lia Ascii String.
From stdpp Require Import gmap strings list pretty.

Open Scope string_scope.
Open Scope Z_scope.
Open Scope list_scope.

(** ** Go basics *)

Inductive error :=
| Errno (n : Z)
| ErrorString (s : string).

(** The outcome of a Go call: it returns, or it panics (index out of
    range, failed type assertion, nil dereference). *)
Inductive Outcome (A : Type) :=
| Returned (a : A)
| Panicked.
Arguments Returned {A} a.
Arguments Panicked {A}.

Definition uint32 (z : Z) : Z := z mod 2 ^ 32.
Definition int32 (z : Z) : Z := (z + 2 ^ 31) mod 2 ^ 32 - 2 ^ 31.
Definition int64 (z : Z) : Z := (z + 2 ^ 63) mod 2 ^ 64 - 2 ^ 63.

Definition is_digit (c : ascii) : bool :=
  let n := nat_of_ascii c in (48 <=? n)%nat && (n <=? 57)%nat.

Definition digit_val (c : ascii) : Z := Z.of_nat (nat_of_ascii c) - 48.

Fixpoint parseDigits (s : string) (acc : Z) : option Z :=
  match s with
  | EmptyString => Some acc
  | String c s' =>
      if is_digit c then parseDigits s' (10 * acc + digit_val c) else None
  end.

(** strconv.ParseInt(s, 10, 64) and strconv.Atoi on a 64-bit platform: an
    optional sign, then one or more decimal digits, in the range of int64. *)
Definition ParseInt (s : string) : Z + error :=
  let '(neg, body) :=
    match s with
    | String "-" r => (true, r)
    | String "+" r => (false, r)
    | _ => (false, s)
    end in
  match body with
  | EmptyString => inr (ErrorString "invalid syntax")
  | _ =>
      match parseDigits body 0 with
      | None => inr (ErrorString "invalid syntax")
      | Some n =>
          let v := if neg then - n else n in
          if (- 2 ^ 63 <=? v) && (v <? 2 ^ 63) then inl v
          else inr (ErrorString "value out of range")
      end
  end.

Definition Atoi (s : string) : Z + error := ParseInt s.

Definition is_space (c : ascii) : bool :=
  let n := nat_of_ascii c in
  ((9 <=? n)%nat && (n <=? 13)%nat) || (n =? 32)%nat.

Fixpoint trimLeft (s : string) : string :=
  match s with
  | String c s' => if is_space c then trimLeft s' else s
  | EmptyString => EmptyString
  end.

Fixpoint trimRight (s : string) : string :=
  match s with
  | EmptyString => EmptyString
  | String c s' =>
      match trimRight s' with
      | EmptyString => if is_space c then EmptyString else String c EmptyString
      | r => String c r
      end
  end.

(** strings.TrimSpace, on ASCII white space. *)
Definition TrimSpace (s : string) : string := trimRight (trimLeft s).

(** ** JSON documents

    The pipe carries JSON text; the model keeps the document tree and
    leaves the text layer out. *)

#[warnings="-register-all"]
Inductive Json :=
| JNull
| JBool (b : bool)
| JNumber (n : Z)
| JString (s : string)
| JArray (l : list Json)
| JObject (fields : list (string * Json)).

Class JsonCodec (T : Type) := {
  toJson : T -> Json;
  fromJson : Json -> option T
}.

(** A codec is faithful when a value survives encoding and decoding, and
    is never encoded as [null]. *)
Class JsonFaithful (T : Type) `{JsonCodec T} := {
  fromJson_toJson : forall x : T, fromJson (toJson x) = Some x;
  toJson_not_null : forall x : T, toJson x <> JNull
}.

Fixpoint field (k : string) (fs : list (string * Json)) : Json :=
  match fs with
  | [] => JNull
  | (k', v) :: fs' => if String.eqb k k' then v else field k fs'
  end.

Definition fieldOf (k : string) (j : Json) : Json :=
  match j with
  | JObject fs => field k fs
  | _ => JNull
  end.

#[export] Instance string_json : JsonCodec string := {|
  toJson s := JString s;
  fromJson j := match j with JString s => Some s | _ => None end
|}.

#[export] Instance Z_json : JsonCodec Z := {|
  toJson n := JNumber n;
  fromJson j := match j with JNumber n => Some n | _ => None end
|}.

Fixpoint fromJsonList {T} (f : Json -> option T) (l : list Json) : option (list T) :=
  match l with
  | [] => Some []
  | j :: l' =>
      match f j, fromJsonList f l' with
      | Some x, Some xs => Some (x :: xs)
      | _, _ => None
      end
  end.

(** A Go slice: the nil slice is [[]] and is encoded as [null]; the code
    modelled here never builds an empty slice that is not nil. *)
#[export] Instance slice_json {T} `{JsonCodec T} : JsonCodec (list T) := {|
  toJson l := match l with [] => JNull | _ => JArray (map toJson l) end;
  fromJson j :=
    match j with
    | JNull => Some []
    | JArray l => fromJsonList fromJson l
    | _ => None
    end
|}.

(** ** The message types of the domain package

    The domain package is not part of the sources at hand.  The enumeration
    of message types and the fields of the payload structs are the ones
    main.go names; JSON keys are the Go field names. *)

Inductive NSenterMsgType :=
| LookupRequest | LookupResponse
| OpenFileRequest | OpenFileResponse
| ReadFileRequest | ReadFileResponse
| WriteFileRequest | WriteFileResponse
| ReadDirRequest | ReadDirResponse
| MountSyscallRequest | MountSyscallResponse
| UmountSyscallRequest | UmountSyscallResponse
| ChownSyscallRequest | ChownSyscallResponse
| MountInfoRequest | MountInfoResponse
| MountInodeRequest | MountInodeResponse
| SleepRequest | SleepResponse
| ErrorResponse
| OtherMsgType (n : Z).

Record LookupPayload := { Entry : string }.

Record OpenFilePayload := {
  OpenFile_File : string;
  OpenFile_Flags : string;
  OpenFile_Mode : string
}.

Record ReadFilePayload := { ReadFile_File : string }.

Record WriteFilePayload := {
  WriteFile_File : string;
  WriteFile_Content : string
}.

Record ReadDirPayload := { Dir : string }.

Record MountSyscallHeader := {
  Uid : Z;
  Gid : Z;
  Root : string;
  Cwd : string;
  Capabilities : list Z
}.

Record MountSyscallPayload := {
  Header : MountSyscallHeader;
  Source : string;
  Target : string;
  FsType : string;
  Flags : Z;
  Data : string
}.

Record UmountSyscallPayload := {
  Umount_Target : string;
  Umount_Flags : Z
}.

Record ChownSyscallPayload := {
  Chown_Target : string;
  TargetUid : Z;
  TargetGid : Z
}.

Record MountInodeReqPayload := { Mountpoints : list string }.

Record SleepReqPayload := { Ival : string }.

(** syscall.Stat_t, reduced to the fields an emulation reads. *)
Record Stat_t := {
  Ino : Z;
  St_Mode : Z;
  St_Uid : Z;
  St_Gid : Z
}.

(** domain.FileInfo, with the fields processLookupRequest fills in; the
    modification time is a count of nanoseconds. *)
Record FileInfo := {
  Fname : string;
  Fsize : Z;
  Fmode : Z;
  FmodTime : Z;
  FisDir : bool;
  Fsys : Stat_t
}.

(** Modelled from the spec: the record of one parsed mountinfo line (id,
    parent, device, root, mountpoint, options, fs-type, source,
    super-options); its declaration is in the absent domain package. *)
Record MountInfo := {
  MountID : Z;
  ParentID : Z;
  MajorMinorVer : string;
  MountRoot : string;
  MountPoint : string;
  Options : string;
  MountFsType : string;
  MountSource : string;
  VfsOptions : string
}.

Record MountInfoRespPayload := { MountInfo_Data : list MountInfo }.

Record MountInodeRespPayload := { MpInodeList : list Z }.

(** fuse.IOerror *)
Record IOerror := { RcvError : option error }.

Definition MS_REMOUNT : Z := 32.

(** The dynamic value of an [interface{}] payload.  [PRef p] is a pointer
    to the value [p] (the [&T{...}] of the source). *)
Inductive PayloadValue :=
| PNil
| PString (s : string)
| PInt (n : Z)
| PLookup (p : LookupPayload)
| POpenFile (p : OpenFilePayload)
| PReadFile (p : ReadFilePayload)
| PWriteFile (p : WriteFilePayload)
| PReadDir (p : ReadDirPayload)
| PMountSyscall (l : list MountSyscallPayload)
| PUmountSyscall (l : list UmountSyscallPayload)
| PChownSyscall (l : list ChownSyscallPayload)
| PMountInodeReq (p : MountInodeReqPayload)
| PSleepReq (p : SleepReqPayload)
| PFileInfo (fi : FileInfo)
| PFileInfoList (l : list FileInfo)
| PMountInfoResp (p : MountInfoRespPayload)
| PMountInodeResp (p : MountInodeRespPayload)
| PIOerror (e : IOerror)
| PRef (p : PayloadValue).

Record NSenterMessage := {
  MsgType : NSenterMsgType;
  Payload : PayloadValue
}.

(** syscall.Ucred *)
Record Ucred := {
  Ucred_Pid : Z;
  Ucred_Uid : Z;
  Ucred_Gid : Z
}.

(** The [pid] struct reported by the second child. *)
Record pid := {
  pid_Pid : Z;
  pid_PidFirstChild : Z
}.

(** NSenterEvent.  [Process] is the grand-child's process handle (its
    pid), [parentPipe] tells whether the master holds its end of the
    socket pair.  The reaper and service back-pointers are the oracles
    the functions below take. *)
Record NSenterEvent := {
  Pid : Z;
  Namespace : list string;
  ReqMsg : option NSenterMessage;
  ResMsg : option NSenterMessage;
  Process : option Z;
  parentPipe : bool;
  async : bool
}.

Definition SetResponseMsg (m : option NSenterMessage) (e : NSenterEvent) : NSenterEvent :=
  {| Pid := Pid e; Namespace := Namespace e; ReqMsg := ReqMsg e; ResMsg := m;
     Process := Process e; parentPipe := parentPipe e; async := async e |}.

Definition SetRequestMsg (m : option NSenterMessage) (e : NSenterEvent) : NSenterEvent :=
  {| Pid := Pid e; Namespace := Namespace e; ReqMsg := m; ResMsg := ResMsg e;
     Process := Process e; parentPipe := parentPipe e; async := async e |}.

Definition setPid (p : Z) (e : NSenterEvent) : NSenterEvent :=
  {| Pid := p; Namespace := Namespace e; ReqMsg := ReqMsg e; ResMsg := ResMsg e;
     Process := Process e; parentPipe := parentPipe e; async := async e |}.

Definition setProcess (p : option Z) (e : NSenterEvent) : NSenterEvent :=
  {| Pid := Pid e; Namespace := Namespace e; ReqMsg := ReqMsg e; ResMsg := ResMsg e;
     Process := p; parentPipe := parentPipe e; async := async e |}.

Definition setParentPipe (b : bool) (e : NSenterEvent) : NSenterEvent :=
  {| Pid := Pid e; Namespace := Namespace e; ReqMsg := ReqMsg e; ResMsg := ResMsg e;
     Process := Process e; parentPipe := b; async := async e |}.

Definition GetRequestMsg (e : NSenterEvent) : option NSenterMessage := ReqMsg e.
Definition GetResponseMsg (e : NSenterEvent) : option NSenterMessage := ResMsg e.
Definition ReceiveResponse (e : NSenterEvent) : option NSenterMessage := ResMsg e.

Definition errorResponse (err : error) : option NSenterMessage :=
  Some {| MsgType := ErrorResponse;
          Payload := PRef (PIOerror {| RcvError := Some err |}) |}.

(** The zero values the master decodes into. *)
Definition zeroStat_t : Stat_t := {| Ino := 0; St_Mode := 0; St_Uid := 0; St_Gid := 0 |}.
Definition zeroFileInfo : FileInfo :=
  {| Fname := EmptyString; Fsize := 0; Fmode := 0; FmodTime := 0; FisDir := false;
     Fsys := zeroStat_t |}.
Definition zeroMountInfoRespPayload : MountInfoRespPayload := {| MountInfo_Data := [] |}.
Definition zeroMountInodeRespPayload : MountInodeRespPayload := {| MpInodeList := [] |}.
Definition zeroIOerror : IOerror := {| RcvError := None |}.

(** *** JSON codecs of the request payloads *)

#[export] Instance LookupPayload_json : JsonCodec LookupPayload := {|
  toJson p := JObject [("Entry", toJson (Entry p))];
  fromJson j :=
    match fromJson (fieldOf "Entry" j) with
    | Some e => Some {| Entry := e |}
    | None => None
    end
|}.

#[export] Instance OpenFilePayload_json : JsonCodec OpenFilePayload := {|
  toJson p := JObject [("File", toJson (OpenFile_File p));
                       ("Flags", toJson (OpenFile_Flags p));
                       ("Mode", toJson (OpenFile_Mode p))];
  fromJson j :=
    match fromJson (fieldOf "File" j), fromJson (fieldOf "Flags" j),
          fromJson (fieldOf "Mode" j) with
    | Some f, Some fl, Some m =>
        Some {| OpenFile_File := f; OpenFile_Flags := fl; OpenFile_Mode := m |}
    | _, _, _ => None
    end
|}.

#[export] Instance ReadFilePayload_json : JsonCodec ReadFilePayload := {|
  toJson p := JObject [("File", toJson (ReadFile_File p))];
  fromJson j :=
    match fromJson (fieldOf "File" j) with
    | Some f => Some {| ReadFile_File := f |}
    | None => None
    end
|}.

#[export] Instance WriteFilePayload_json : JsonCodec WriteFilePayload := {|
  toJson p := JObject [("File", toJson (WriteFile_File p));
                       ("Content", toJson (WriteFile_Content p))];
  fromJson j :=
    match fromJson (fieldOf "File" j), fromJson (fieldOf "Content" j) with
    | Some f, Some c => Some {| WriteFile_File := f; WriteFile_Content := c |}
    | _, _ => None
    end
|}.

#[export] Instance ReadDirPayload_json : JsonCodec ReadDirPayload := {|
  toJson p := JObject [("Dir", toJson (Dir p))];
  fromJson j :=
    match fromJson (fieldOf "Dir" j) with
    | Some d => Some {| Dir := d |}
    | None => None
    end
|}.

#[export] Instance MountSyscallHeader_json : JsonCodec MountSyscallHeader := {|
  toJson h := JObject [("Uid", toJson (Uid h)); ("Gid", toJson (Gid h));
                       ("Root", toJson (Root h)); ("Cwd", toJson (Cwd h));
                       ("Capabilities", toJson (Capabilities h))];
  fromJson j :=
    match fromJson (fieldOf "Uid" j), fromJson (fieldOf "Gid" j),
          fromJson (fieldOf "Root" j), fromJson (fieldOf "Cwd" j),
          fromJson (fieldOf "Capabilities" j) with
    | Some u, Some g, Some r, Some c, Some caps =>
        Some {| Uid := u; Gid := g; Root := r; Cwd := c; Capabilities := caps |}
    | _, _, _, _, _ => None
    end
|}.

#[export] Instance MountSyscallPayload_json : JsonCodec MountSyscallPayload := {|
  toJson p := JObject [("Header", toJson (Header p)); ("Source", toJson (Source p));
                       ("Target", toJson (Target p)); ("FsType", toJson (FsType p));
                       ("Flags", toJson (Flags p)); ("Data", toJson (Data p))];
  fromJson j :=
    match fromJson (fieldOf "Header" j), fromJson (fieldOf "Source" j),
          fromJson (fieldOf "Target" j), fromJson (fieldOf "FsType" j),
          fromJson (fieldOf "Flags" j), fromJson (fieldOf "Data" j) with
    | Some h, Some s, Some t, Some ft, Some fl, Some d =>
        Some {| Header := h; Source := s; Target := t; FsType := ft;
                Flags := fl; Data := d |}
    | _, _, _, _, _, _ => None
    end
|}.

#[export] Instance UmountSyscallPayload_json : JsonCodec UmountSyscallPayload := {|
  toJson p := JObject [("Target", toJson (Umount_Target p));
                       ("Flags", toJson (Umount_Flags p))];
  fromJson j :=
    match fromJson (fieldOf "Target" j), fromJson (fieldOf "Flags" j) with
    | Some t, Some f => Some {| Umount_Target := t; Umount_Flags := f |}
    | _, _ => None
    end
|}.

#[export] Instance ChownSyscallPayload_json : JsonCodec ChownSyscallPayload := {|
  toJson p := JObject [("Target", toJson (Chown_Target p));
                       ("TargetUid", toJson (TargetUid p));
                       ("TargetGid", toJson (TargetGid p))];
  fromJson j :=
    match fromJson (fieldOf "Target" j), fromJson (fieldOf "TargetUid" j),
          fromJson (fieldOf "TargetGid" j) with
    | Some t, Some u, Some g =>
        Some {| Chown_Target := t; TargetUid := u; TargetGid := g |}
    | _, _, _ => None
    end
|}.

#[export] Instance MountInodeReqPayload_json : JsonCodec MountInodeReqPayload := {|
  toJson p := JObject [("Mountpoints", toJson (Mountpoints p))];
  fromJson j :=
    match fromJson (fieldOf "Mountpoints" j) with
    | Some m => Some {| Mountpoints := m |}
    | None => None
    end
|}.

#[export] Instance SleepReqPayload_json : JsonCodec SleepReqPayload := {|
  toJson p := JObject [("Ival", toJson (Ival p))];
  fromJson j :=
    match fromJson (fieldOf "Ival" j) with
    | Some i => Some {| Ival := i |}
    | None => None
    end
|}.

(** What the pipe carries for one message: the envelope after the first
    decoding phase, its payload still raw.  A raw payload of [JNull] is
    the nil [json.RawMessage]. *)
Record Envelope := {
  env_Type : NSenterMsgType;
  env_Payload : Json
}.

(** ** The agent's environment

    What the grand-child does to the outside world, in the order it does
    it.  Paths are recorded as they are handed to the system call. *)

Inductive SysCall :=
| SysStat (path : string)
| SysOpenFile (path : string) (flags mode : Z)
| SysClose (path : string)
| SysReadFile (path : string)
| SysWriteFile (path content : string) (perm : Z)
| SysReadDir (path : string)
| SysAdjustPersonality (uid gid : Z) (root cwd : string) (caps : list Z)
| SysMount (source target fstype : string) (flags : Z) (data : string)
| SysUnmount (target : string) (flags : Z)
| SysChown (target : string) (uid gid : Z)
| SysMountInfo (pid : Z)
| SysFileInode (path : string)
| SysSleep (nanoseconds : Z).

(** The kernel and the process and mount services, as seen by the agent.
    [ResolveProcSelf p] is the method of the process object that
    [ProcessCreate(p, 0, 0)] returns; it gives back a path and an error
    like the Go method does. *)
Class Kernel (World : Type) := {
  os_Stat : string -> World -> FileInfo + error;
  os_OpenFile : string -> Z -> Z -> World -> option error * World;
  ioutil_ReadFile : string -> World -> string + error;
  ioutil_WriteFile : string -> string -> Z -> World -> option error * World;
  ioutil_ReadDir : string -> World -> list FileInfo + error;
  AdjustPersonality :
    Z -> Z -> string -> string -> list Z -> World -> option error * World;
  ResolveProcSelf : Z -> string -> World -> string * option error;
  unix_Mount :
    string -> string -> string -> Z -> string -> World -> option error * World;
  unix_Unmount : string -> Z -> World -> option error * World;
  unix_Chown : string -> Z -> Z -> World -> option error * World;
  os_Getpid : World -> Z;
  NewMountInfoParser : Z -> World -> option error;
  ExtractMountInfo : Z -> World -> list MountInfo + error;
  FileInode : string -> World -> Z;
  time_Sleep : Z -> World -> World
}.

(** What the agent finds on its end of the socket pair. *)
Inductive SocketControlMessage :=
| ScmCredentials (u : Ucred)
| ScmOther (level type : Z).

Inductive RecvResult :=
| RecvError (err : error)
| RecvUnparsable
| RecvMsgs (msgs : list SocketControlMessage).

Record AgentPipe := {
  pipe_setsockopt : option error;
  pipe_recvmsg : RecvResult;
  pipe_request : Envelope + error;
  pipe_write : option error
}.

(** A run of an agent function: the event it leaves and the error it
    returns (unless it panics), the world after it and the system calls
    it issued. *)
Definition Run (World : Type) : Type :=
  (Outcome (NSenterEvent * option error) * World * list SysCall)%type.

Definition withMountPaths (src tgt : string) (p : MountSyscallPayload)
  : MountSyscallPayload :=
  {| Header := Header p; Source := src; Target := tgt; FsType := FsType p;
     Flags := Flags p; Data := Data p |}.

Definition isRemount (p : MountSyscallPayload) : bool :=
  Z.land (Flags p) MS_REMOUNT =? MS_REMOUNT.

Section Agent.

Context {World : Type} `{Kernel World}.

Definition processLookupRequest (e : NSenterEvent) (w : World) : Run World :=
  match ReqMsg e with
  | Some {| Payload := PLookup payload |} =>
      match os_Stat (Entry payload) w with
      | inr err =>
          (Returned (SetResponseMsg (errorResponse err) e, None), w,
           [SysStat (Entry payload)])
      | inl fileInfo =>
          (Returned
             (SetResponseMsg
                (Some {| MsgType := LookupResponse; Payload := PFileInfo fileInfo |}) e,
              None), w, [SysStat (Entry payload)])
      end
  | _ => (Panicked, w, [])
  end.

Definition processOpenFileRequest (e : NSenterEvent) (w : World) : Run World :=
  match ReqMsg e with
  | Some {| Payload := POpenFile payload |} =>
      match Atoi (OpenFile_Flags payload) with
      | inr err => (Returned (SetResponseMsg (errorResponse err) e, None), w, [])
      | inl openFlags =>
          match Atoi (OpenFile_Mode payload) with
          | inr err => (Returned (SetResponseMsg (errorResponse err) e, None), w, [])
          | inl mode =>
              let call := SysOpenFile (OpenFile_File payload) openFlags mode in
              match os_OpenFile (OpenFile_File payload) openFlags mode w with
              | (Some err, w1) =>
                  (Returned (SetResponseMsg (errorResponse err) e, None), w1, [call])
              | (None, w1) =>
                  (Returned
                     (SetResponseMsg
                        (Some {| MsgType := OpenFileResponse; Payload := PNil |}) e,
                      None), w1, [call; SysClose (OpenFile_File payload)])
              end
          end
      end
  | _ => (Panicked, w, [])
  end.

Definition processFileReadRequest (e : NSenterEvent) (w : World) : Run World :=
  match ReqMsg e with
  | Some {| Payload := PReadFile payload |} =>
      match ioutil_ReadFile (ReadFile_File payload) w with
      | inr err =>
          (Returned (SetResponseMsg (errorResponse err) e, None), w,
           [SysReadFile (ReadFile_File payload)])
      | inl fileContent =>
          (Returned
             (SetResponseMsg
                (Some {| MsgType := ReadFileResponse;
                         Payload := PString (TrimSpace fileContent) |}) e,
              None), w, [SysReadFile (ReadFile_File payload)])
      end
  | _ => (Panicked, w, [])
  end.

Definition processFileWriteRequest (e : NSenterEvent) (w : World) : Run World :=
  match ReqMsg e with
  | Some {| Payload := PWriteFile payload |} =>
      let call := SysWriteFile (WriteFile_File payload) (WriteFile_Content payload) 420 in
      match ioutil_WriteFile (WriteFile_File payload) (WriteFile_Content payload) 420 w with
      | (Some err, w1) =>
          (Returned (SetResponseMsg (errorResponse err) e, None), w1, [call])
      | (None, w1) =>
          (Returned
             (SetResponseMsg
                (Some {| MsgType := WriteFileResponse; Payload := PNil |}) e,
              None), w1, [call])
      end
  | _ => (Panicked, w, [])
  end.

Definition processDirReadRequest (e : NSenterEvent) (w : World) : Run World :=
  match ReqMsg e with
  | Some {| Payload := PReadDir payload |} =>
      match ioutil_ReadDir (Dir payload) w with
      | inr err =>
          (Returned (SetResponseMsg (errorResponse err) e, None), w,
           [SysReadDir (Dir payload)])
      | inl dirContentList =>
          (Returned
             (SetResponseMsg
                (Some {| MsgType := ReadDirResponse;
                         Payload := PFileInfoList dirContentList |}) e,
              None), w, [SysReadDir (Dir payload)])
      end
  | _ => (Panicked, w, [])
  end.

(** The loop of processMountSyscallRequest.  It stops at the first entry
    whose source or target cannot be resolved or whose mount fails, and
    gives back the entries before that one, with the paths they were
    mounted with (the source overwrites [payload[i]] in place), and the
    error that stopped it.  The request message of the event, which
    shares the slice in the source, is left as it was received: nothing
    below reads it after the call. *)
Fixpoint mountLoop (process : Z) (payload : list MountSyscallPayload) (w : World)
  : list MountSyscallPayload * option error * World * list SysCall :=
  match payload with
  | [] => ([], None, w, [])
  | p :: rest =>
      match ResolveProcSelf process (Source p) w with
      | (_, Some err) => ([], Some err, w, [])
      | (src, None) =>
          match ResolveProcSelf process (Target p) w with
          | (_, Some err) => ([], Some err, w, [])
          | (tgt, None) =>
              let call := SysMount src tgt (FsType p) (Flags p) (Data p) in
              match unix_Mount src tgt (FsType p) (Flags p) (Data p) w with
              | (Some err, w1) => ([], Some err, w1, [call])
              | (None, w1) =>
                  let '(mounted, err, w2, calls) := mountLoop process rest w1 in
                  (withMountPaths src tgt p :: mounted, err, w2, call :: calls)
              end
          end
      end
  end.

(** The rollback loop, over the mounted entries from the last one to the
    first; the result of the unmount is dropped. *)
Fixpoint unmountAll (mountedRev : list MountSyscallPayload) (w : World)
  : World * list SysCall :=
  match mountedRev with
  | [] => (w, [])
  | p :: rest =>
      if isRemount p then unmountAll rest w
      else
        let '(_, w1) := unix_Unmount (Target p) 0 w in
        let '(w2, calls) := unmountAll rest w1 in
        (w2, SysUnmount (Target p) 0 :: calls)
  end.

Definition processMountSyscallRequest (e : NSenterEvent) (w : World) : Run World :=
  match ReqMsg e with
  | Some {| Payload := PMountSyscall payload |} =>
      match payload with
      | [] => (Panicked, w, [])
      | p0 :: _ =>
          let header := Header p0 in
          let '(perr, w0, pcalls) :=
            if String.eqb (FsType p0) "overlay" then
              let '(err, w0) :=
                AdjustPersonality (Uid header) (Gid header) (Root header)
                  (Cwd header) (Capabilities header) w in
              (err, w0,
               [SysAdjustPersonality (Uid header) (Gid header) (Root header)
                  (Cwd header) (Capabilities header)])
            else (None, w, []) in
          match perr with
          | Some err =>
              (Returned (SetResponseMsg (errorResponse err) e, None), w0, pcalls)
          | None =>
              let '(mounted, err, w1, calls) := mountLoop (Pid e) payload w0 in
              match err with
              | Some err =>
                  let '(w2, ucalls) := unmountAll (rev mounted) w1 in
                  (Returned (SetResponseMsg (errorResponse err) e, None), w2,
                   pcalls ++ calls ++ ucalls)
              | None =>
                  (Returned
                     (SetResponseMsg
                        (Some {| MsgType := MountSyscallResponse;
                                 Payload := PString EmptyString |}) e,
                      None), w1, pcalls ++ calls)
              end
          end
      end
  | _ => (Panicked, w, [])
  end.

(** The loop of processUmountSyscallRequest: the error it stops with, and
    the response message it has set by then (none when a path could not
    be resolved). *)
Fixpoint umountLoop (process : Z) (payload : list UmountSyscallPayload) (w : World)
  : option error * option NSenterMessage * World * list SysCall :=
  match payload with
  | [] => (None, None, w, [])
  | p :: rest =>
      match ResolveProcSelf process (Umount_Target p) w with
      | (_, Some err) => (Some err, None, w, [])
      | (tgt, None) =>
          let call := SysUnmount tgt (Umount_Flags p) in
          match unix_Unmount tgt (Umount_Flags p) w with
          | (Some err, w1) => (Some err, errorResponse err, w1, [call])
          | (None, w1) =>
              let '(err, res, w2, calls) := umountLoop process rest w1 in
              (err, res, w2, call :: calls)
          end
      end
  end.

Definition processUmountSyscallRequest (e : NSenterEvent) (w : World) : Run World :=
  match ReqMsg e with
  | Some {| Payload := PUmountSyscall payload |} =>
      let '(err, res, w1, calls) := umountLoop (Pid e) payload w in
      match err with
      | Some _ =>
          (Returned
             (match res with Some m => SetResponseMsg (Some m) e | None => e end,
              None), w1, calls)
      | None =>
          (Returned
             (SetResponseMsg
                (Some {| MsgType := UmountSyscallResponse; Payload := PString EmptyString |}) e,
              None), w1, calls)
      end
  | _ => (Panicked, w, [])
  end.

(** The loop of processChownSyscallRequest: [Some err] when a chown
    failed (the function then returns at once with an error response),
    [None] when the loop ran to its end or left through [break]. *)
Fixpoint chownLoop (process : Z) (payload : list ChownSyscallPayload) (w : World)
  : option error * World * list SysCall :=
  match payload with
  | [] => (None, w, [])
  | p :: rest =>
      match ResolveProcSelf process (Chown_Target p) w with
      | (_, Some _) => (None, w, [])
      | (tgt, None) =>
          let call := SysChown tgt (TargetUid p) (TargetGid p) in
          match unix_Chown tgt (TargetUid p) (TargetGid p) w with
          | (Some err, w1) => (Some err, w1, [call])
          | (None, w1) =>
              let '(err, w2, calls) := chownLoop process rest w1 in
              (err, w2, call :: calls)
          end
      end
  end.

Definition processChownSyscallRequest (e : NSenterEvent) (w : World) : Run World :=
  match ReqMsg e with
  | Some {| Payload := PChownSyscall payload |} =>
      let '(err, w1, calls) := chownLoop (Pid e) payload w in
      match err with
      | Some err =>
          (Returned (SetResponseMsg (errorResponse err) e, None), w1, calls)
      | None =>
          (Returned
             (SetResponseMsg
                (Some {| MsgType := ChownSyscallResponse; Payload := PString EmptyString |}) e,
              None), w1, calls)
      end
  | _ => (Panicked, w, [])
  end.

Definition getProcCreds (e : NSenterEvent) (pipe : AgentPipe)
  : NSenterEvent * option error :=
  match pipe_setsockopt pipe with
  | Some _ =>
      (e, Some (ErrorString "Error setting socket options for credential passing"))
  | None =>
      match pipe_recvmsg pipe with
      | RecvError _ =>
          (e, Some (ErrorString "Error decoding received process credentials."))
      | RecvUnparsable => (e, Some (ErrorString "Error parsing socket control msg."))
      | RecvMsgs [ScmCredentials procCred] => (setPid (uint32 (Ucred_Pid procCred)) e, None)
      | RecvMsgs [ScmOther _ _] => (e, Some (ErrorString "Error parsing unix credentials."))
      | RecvMsgs _ => (e, Some (ErrorString "Error parsing socket control msg."))
      end
  end.

Definition processMountInfoRequest (e : NSenterEvent) (w : World) : Run World :=
  let pid := os_Getpid w in
  let process := uint32 pid in
  match NewMountInfoParser process w with
  | Some err => (Returned (SetResponseMsg (errorResponse err) e, None), w, [])
  | None =>
      match ExtractMountInfo process w with
      | inr err =>
          (Returned (SetResponseMsg (errorResponse err) e, None), w,
           [SysMountInfo process])
      | inl mountInfoData =>
          (Returned
             (SetResponseMsg
                (Some {| MsgType := MountInfoResponse;
                         Payload :=
                           PRef (PMountInfoResp {| MountInfo_Data := mountInfoData |}) |})
                e,
              None), w, [SysMountInfo process])
      end
  end.

Definition processMountInodeRequest (e : NSenterEvent) (w : World) : Run World :=
  match ReqMsg e with
  | Some {| Payload := PMountInodeReq payload |} =>
      let mpInodeList := map (fun mp => FileInode mp w) (Mountpoints payload) in
      (Returned
         (SetResponseMsg
            (Some {| MsgType := MountInodeResponse;
                     Payload :=
                       PRef (PMountInodeResp {| MpInodeList := mpInodeList |}) |}) e,
          None), w, map SysFileInode (Mountpoints payload))
  | _ => (Panicked, w, [])
  end.

Definition processSleepRequest (e : NSenterEvent) (w : World) : Run World :=
  match ReqMsg e with
  | Some {| Payload := PSleepReq payload |} =>
      match ParseInt (Ival payload) with
      | inr err => (Returned (SetResponseMsg (errorResponse err) e, None), w, [])
      | inl ival =>
          let d := int64 (ival * 1000000000) in
          (Returned
             (SetResponseMsg
                (Some {| MsgType := SleepResponse; Payload := PString EmptyString |}) e,
              None), time_Sleep d w, [SysSleep d])
      end
  | _ => (Panicked, w, [])
  end.

End Agent.

(** ** Encoding and decoding of messages

    The codecs of the response payload structs belong to the absent
    domain and fuse packages; they are taken as given. *)

Section Wire.

Context `{JsonCodec FileInfo} `{JsonCodec MountInfoRespPayload}
        `{JsonCodec MountInodeRespPayload} `{JsonCodec IOerror}.

(** json.Marshal of a payload: a pointer is followed, nil is [null]. *)
Fixpoint marshalPayload (p : PayloadValue) : Json :=
  match p with
  | PNil => JNull
  | PString s => toJson s
  | PInt n => toJson n
  | PLookup q => toJson q
  | POpenFile q => toJson q
  | PReadFile q => toJson q
  | PWriteFile q => toJson q
  | PReadDir q => toJson q
  | PMountSyscall l => toJson l
  | PUmountSyscall l => toJson l
  | PChownSyscall l => toJson l
  | PMountInodeReq q => toJson q
  | PSleepReq q => toJson q
  | PFileInfo fi => toJson fi
  | PFileInfoList l => toJson l
  | PMountInfoResp q => toJson q
  | PMountInodeResp q => toJson q
  | PIOerror q => toJson q
  | PRef q => marshalPayload q
  end.

(** json.Marshal of a message, as the envelope the reader decodes first. *)
Definition marshalMessage (m : NSenterMessage) : Envelope :=
  {| env_Type := MsgType m; env_Payload := marshalPayload (Payload m) |}.

(** The second decoding phase: [var p T; if payload != nil { err :=
    json.Unmarshal(payload, &p) ... }]. *)
Definition unmarshalInto {T : Type} `{JsonCodec T} (zero : T) (payload : Json)
  : T + error :=
  match payload with
  | JNull => inl zero
  | _ =>
      match fromJson payload with
      | Some v => inl v
      | None => inr (ErrorString "json: cannot unmarshal payload")
      end
  end.

Section AgentDispatch.

Context {World : Type} `{Kernel World}.

Definition withRequest (t : NSenterMsgType) (p : PayloadValue) (e : NSenterEvent)
  : NSenterEvent :=
  SetRequestMsg (Some {| MsgType := t; Payload := p |}) e.

Definition decodeAndRun {T : Type} `{JsonCodec T} (zero : T) (wrap : T -> PayloadValue)
    (run : NSenterEvent -> World -> Run World)
    (t : NSenterMsgType) (payload : Json) (e : NSenterEvent) (w : World) : Run World :=
  match unmarshalInto zero payload with
  | inr err => (Returned (e, Some err), w, [])
  | inl p => run (withRequest t (wrap p) e) w
  end.

Definition processRequest (e : NSenterEvent) (pipe : AgentPipe) (w : World)
  : Run World :=
  match getProcCreds e pipe with
  | (e, Some err) => (Returned (e, Some err), w, [])
  | (e, None) =>
      match pipe_request pipe with
      | inr _ =>
          (Returned (e, Some (ErrorString "Error decoding received event request.")),
           w, [])
      | inl nsenterMsg =>
          let t := env_Type nsenterMsg in
          let payload := env_Payload nsenterMsg in
          match t with
          | LookupRequest =>
              decodeAndRun {| Entry := EmptyString |} PLookup processLookupRequest t payload e w
          | OpenFileRequest =>
              decodeAndRun
                {| OpenFile_File := EmptyString; OpenFile_Flags := EmptyString; OpenFile_Mode := EmptyString |}
                POpenFile processOpenFileRequest t payload e w
          | ReadFileRequest =>
              decodeAndRun {| ReadFile_File := EmptyString |} PReadFile processFileReadRequest
                t payload e w
          | WriteFileRequest =>
              decodeAndRun {| WriteFile_File := EmptyString; WriteFile_Content := EmptyString |}
                PWriteFile processFileWriteRequest t payload e w
          | ReadDirRequest =>
              decodeAndRun {| Dir := EmptyString |} PReadDir processDirReadRequest t payload e w
          | MountSyscallRequest =>
              decodeAndRun [] PMountSyscall processMountSyscallRequest t payload e w
          | UmountSyscallRequest =>
              decodeAndRun [] PUmountSyscall processUmountSyscallRequest t payload e w
          | MountInfoRequest =>
              processMountInfoRequest (withRequest t PNil e) w
          | MountInodeRequest =>
              decodeAndRun {| Mountpoints := [] |} PMountInodeReq
                processMountInodeRequest t payload e w
          | ChownSyscallRequest =>
              decodeAndRun [] PChownSyscall processChownSyscallRequest t payload e w
          | SleepRequest =>
              decodeAndRun {| Ival := EmptyString |} PSleepReq processSleepRequest t payload e w
          | _ =>
              (Returned
                 (SetResponseMsg
                    (Some {| MsgType := ErrorResponse;
                             Payload := PString "Unsupported request" |}) e,
                  None), w, [])
          end
      end
  end.

(** The event [Init] starts from: only the service back-pointer is set. *)
Definition newAgentEvent : NSenterEvent :=
  {| Pid := 0; Namespace := []; ReqMsg := None; ResMsg := None;
     Process := None; parentPipe := false; async := false |}.

(** [Init]: what is written back on the pipe and the error returned.
    Dereferencing a response message that was never set panics. *)
Definition Init (pipe : AgentPipe) (w : World)
  : Outcome (option Envelope * option error) * World * list SysCall :=
  match processRequest newAgentEvent pipe w with
  | (Panicked, w1, calls) => (Panicked, w1, calls)
  | (Returned (event, err), w1, calls) =>
      let event :=
        match err with
        | Some err => SetResponseMsg (errorResponse err) event
        | None => event
        end in
      match ResMsg event with
      | None => (Panicked, w1, calls)
      | Some m =>
          match pipe_write pipe with
          | Some werr => (Returned (None, Some werr), w1, calls)
          | None => (Returned (Some (marshalMessage m), None), w1, calls)
          end
      end
  end.

End AgentDispatch.

(** *** The master's side *)

Definition decodePayload {T : Type} `{JsonCodec T} (zero : T) (wrap : T -> PayloadValue)
    (t : NSenterMsgType) (payload : Json) (e : NSenterEvent)
  : NSenterEvent * option error :=
  match unmarshalInto zero payload with
  | inr err => (e, Some err)
  | inl p => (SetResponseMsg (Some {| MsgType := t; Payload := wrap p |}) e, None)
  end.

Definition emptyPayload (t : NSenterMsgType) (e : NSenterEvent)
  : NSenterEvent * option error :=
  (SetResponseMsg (Some {| MsgType := t; Payload := PString EmptyString |}) e, None).

(** [pipe] is the outcome of the first decoding phase on what the
    grand-child wrote. *)
Definition processResponse (e : NSenterEvent) (pipe : Envelope + error)
  : NSenterEvent * option error :=
  match pipe with
  | inr _ => (e, Some (ErrorString "Error decoding received nsenterMsg response"))
  | inl nsenterMsg =>
      let t := env_Type nsenterMsg in
      let payload := env_Payload nsenterMsg in
      match t with
      | LookupResponse => decodePayload zeroFileInfo PFileInfo t payload e
      | OpenFileResponse => decodePayload 0 PInt t payload e
      | ReadFileResponse => decodePayload EmptyString PString t payload e
      | WriteFileResponse => emptyPayload t e
      | ReadDirResponse => decodePayload [] PFileInfoList t payload e
      | MountSyscallResponse => emptyPayload t e
      | UmountSyscallResponse => emptyPayload t e
      | MountInfoResponse =>
          decodePayload zeroMountInfoRespPayload PMountInfoResp t payload e
      | MountInodeResponse =>
          decodePayload zeroMountInodeRespPayload PMountInodeResp t payload e
      | ChownSyscallResponse => emptyPayload t e
      | SleepResponse => emptyPayload t e
      | ErrorResponse => decodePayload zeroIOerror PIOerror t payload e
      | _ => (e, Some (ErrorString "Received unsupported nsenterEvent message."))
      end
  end.

(** What the master does to the reaper, the socket pair and the helper
    processes, in the order it does it. *)
Inductive MasterAction :=
| nsenterStarted
| nsenterEnded
| nsenterReapReq
| NewSockPair
| SetsockoptInt
| CmdStart
| CloseChildPipe
| CopyConfig
| WaitFirstChild
| DecodePid
| FindProcess (p : Z)
| WaitProcess (p : Z)
| Sendmsg (cred : Ucred)
| WritePipe (data : Envelope)
| ReadResponse
| Shutdown
| Kill (p : Z).

(** The outcome of every step of the master that can fail. *)
Record MasterEnv := {
  m_NewSockPair : option error;
  m_SetsockoptInt : option error;
  m_cmdStart : option error;
  m_ioCopy : option error;
  m_Wait : bool + error;
  m_decodePid : pid + error;
  m_FindProcess : Z -> option error;
  m_Sendmsg : option error;
  m_Marshal : option error;
  m_Write : option error;
  m_response : Envelope + error;
  m_Shutdown : option error;
  m_Kill : option error
}.

(** A function body that logs its actions and may return early. *)
Inductive Step (R A : Type) :=
| Continue (a : A)
| Return (r : R)
| Panic.
Arguments Continue {R A} a.
Arguments Return {R A} r.
Arguments Panic {R A}.

Definition M (R A : Type) : Type := (Step R A * list MasterAction)%type.

Definition ret {R A} (a : A) : M R A := (Continue a, []).

Definition bind {R A B} (m : M R A) (f : A -> M R B) : M R B :=
  match m with
  | (Continue a, t) => let '(r, t') := f a in (r, t ++ t')
  | (Return r, t) => (Return r, t)
  | (Panic, t) => (Panic, t)
  end.

Definition act {R} (a : MasterAction) : M R unit := (Continue tt, [a]).

(** [return r], after the calls in [cleanup]. *)
Definition leave {R A} (cleanup : list MasterAction) (r : R) : M R A :=
  (Return r, cleanup).

Definition finish {R} (m : M R R) : Outcome R * list MasterAction :=
  match m with
  | (Continue r, t) | (Return r, t) => (Returned r, t)
  | (Panic, t) => (Panicked, t)
  end.

Notation "'let!' x := m 'in' k" := (bind m (fun x => k))
  (at level 10, x name, m at level 100, k at level 200).
Notation "'run' m 'in' k" := (bind m (fun _ => k))
  (at level 10, m at level 100, k at level 200).

Definition SendRequest (env : MasterEnv) (e : NSenterEvent)
  : Outcome (NSenterEvent * option error) * list MasterAction :=
  finish (
    run act nsenterStarted in
    run act NewSockPair in
    run match m_NewSockPair env with
    | Some _ =>
        leave [nsenterEnded]
          (e, Some (ErrorString "Error creating sysbox-fs nsenter pipe"))
    | None => ret tt
    end in
    let e := setParentPipe true e in
    run act SetsockoptInt in
    run match m_SetsockoptInt env with
    | Some _ =>
        leave [] (e, Some (ErrorString "Error setting socket options on nsenter pipe"))
    | None => ret tt
    end in
    run act CmdStart in
    run act CloseChildPipe in
    run match m_cmdStart env with
    | Some _ =>
        leave [nsenterEnded]
          (e, Some (ErrorString "Error launching sysbox-fs first child process"))
    | None => ret tt
    end in
    run act CopyConfig in
    run match m_ioCopy env with
    | Some _ =>
        leave [nsenterReapReq; nsenterEnded]
          (e, Some (ErrorString "Error copying payload to pipe"))
    | None => ret tt
    end in
    run act WaitFirstChild in
    run match m_Wait env with
    | inr err => leave [nsenterReapReq; nsenterEnded] (e, Some err)
    | inl false =>
        leave [nsenterReapReq; nsenterEnded]
          (e, Some (ErrorString "Error waiting for sysbox-fs first child process"))
    | inl true => ret tt
    end in
    run act DecodePid in
    let! pid :=
      match m_decodePid env with
      | inr _ =>
          leave [nsenterEnded] (e, Some (ErrorString "Error receiving first-child pid"))
      | inl pid => ret pid
      end in
    run act (FindProcess (pid_PidFirstChild pid)) in
    run match m_FindProcess env (pid_PidFirstChild pid) with
    | Some err => leave [nsenterEnded] (e, Some err)
    | None => ret tt
    end in
    run act (WaitProcess (pid_PidFirstChild pid)) in
    run act (FindProcess (pid_Pid pid)) in
    run match m_FindProcess env (pid_Pid pid) with
    | Some err => leave [nsenterEnded] (e, Some err)
    | None => ret tt
    end in
    let e := setProcess (Some (pid_Pid pid)) e in
    let reqCred := {| Ucred_Pid := int32 (Pid e); Ucred_Uid := 0; Ucred_Gid := 0 |} in
    run act (Sendmsg reqCred) in
    run match m_Sendmsg env with
    | Some err => leave [nsenterReapReq] (e, Some err)
    | None => ret tt
    end in
    let! reqMsg :=
      match ReqMsg e with
      | None => (Panic, [])
      | Some reqMsg => ret reqMsg
      end in
    run match m_Marshal env with
    | Some err => leave [nsenterReapReq; nsenterEnded] (e, Some err)
    | None => ret tt
    end in
    run act (WritePipe (marshalMessage reqMsg)) in
    run match m_Write env with
    | Some err => leave [nsenterReapReq; nsenterEnded] (e, Some err)
    | None => ret tt
    end in
    run (if async e then leave [] (e, None) else ret tt) in
    run act ReadResponse in
    let '(e, ierr) := processResponse e (m_response env) in
    run act Shutdown in
    run match ierr with
    | Some ierr => leave [nsenterReapReq; nsenterEnded] (e, Some ierr)
    | None => ret tt
    end in
    run act (WaitProcess (pid_Pid pid)) in
    run act nsenterEnded in
    ret (e, None)).

(** TerminateRequest; the deferred calls run last, the latest first. *)
Definition TerminateRequest (env : MasterEnv) (e : NSenterEvent)
  : Outcome (NSenterEvent * option error) * list MasterAction :=
  match Process e with
  | None => (Returned (e, None), [nsenterEnded])
  | Some p =>
      match m_Shutdown env with
      | Some err => (Returned (e, Some err), [Shutdown; nsenterReapReq; nsenterEnded])
      | None =>
          match m_Kill env with
          | Some err =>
              (Returned (e, Some err), [Shutdown; Kill p; nsenterReapReq; nsenterEnded])
          | None =>
              (Returned (setProcess None e, None),
               [Shutdown; Kill p; WaitProcess p; nsenterEnded])
          end
      end
  end.

End Wire.

(** ** The /proc/sys/net/unix handler *)

Definition io_EOF : error := ErrorString "EOF".

(** domain.IOnodeIface, by the two methods the handler calls. *)
Record IOnode := {
  node_Name : string;
  node_Path : string
}.

(** domain.HandlerRequest; [req_Data] is the byte buffer of the request. *)
Record HandlerRequest := {
  ID : Z;
  req_Pid : Z;
  Offset : Z;
  req_Data : string
}.

(** One agent operation a handler asks the nsenter service for: the
    process whose namespaces are entered, and the request message. *)
Record AgentOp := {
  op_Pid : Z;
  op_Request : NSenterMessage
}.

(** The ReadFile operation on the path of a node, for the caller of the
    request. *)
Definition readFileOp (n : IOnode) (req : HandlerRequest) : AgentOp :=
  {| op_Pid := req_Pid req;
     op_Request :=
       {| MsgType := ReadFileRequest;
          Payload := PReadFile {| ReadFile_File := node_Path n |} |} |}.

(** The result of a handler's Read: the count and the error it returns,
    the buffer afterwards, and the agent operations it issued. *)
Record ReadResult := {
  read_n : Z;
  read_err : option error;
  read_Data : string;
  read_ops : list AgentOp
}.

Record ReadDirResult := {
  dir_entries : list FileInfo;
  dir_err : option error;
  dir_ops : list AgentOp
}.

(** domain.HandlerIface, by the methods this handler delegates. *)
Record HandlerIface := {
  h_Read : IOnode -> HandlerRequest -> ReadResult;
  h_ReadDirAll : IOnode -> HandlerRequest -> ReadDirResult
}.

(** domain.HandlerServiceIface *)
Record HandlerServiceIface := {
  FindHandler : string -> option HandlerIface
}.

Inductive EmuResourceType := FileEmuResource | DirEmuResource.

(** sync.Mutex, by whether it is held. *)
Record sync_Mutex := { locked : bool }.

Record EmuResource := {
  Kind : EmuResourceType;
  Mode : Z;
  Enabled : bool;
  Mutex : sync_Mutex
}.

Record HandlerBase := {
  Name : string;
  Path : string;
  EmuResourceMap : gmap string EmuResource;
  Service : HandlerServiceIface
}.

Definition ProcSysNetUnix_Handler (hs : HandlerServiceIface) : HandlerBase :=
  {| Name := "ProcSysNetUnix";
     Path := "/proc/sys/net/unix";
     EmuResourceMap :=
       {[ "max_dgram_qlen" :=
            {| Kind := FileEmuResource; Mode := 420; Enabled := true;
               Mutex := {| locked := false |} |} ]};
     Service := hs |}.

Section Handler.

(** The nsenter service as a handler sees it: send the request into the
    namespaces of a process and receive the response, or fail. *)
Variable nsx : AgentOp -> NSenterMessage + error.

(** Modelled from the spec: readFileInt, the helper that reads an emulated
    integer file, is not part of the sources at hand.  The spec has it
    issue a ReadFile agent operation against the path of the node, on
    behalf of the caller, and return the content the agent sends back; an
    ErrorResponse is surfaced as the error it carries. *)
Definition readFileInt (h : HandlerBase) (n : IOnode) (req : HandlerRequest)
  : ReadResult :=
  let op := {| op_Pid := req_Pid req;
               op_Request :=
                 {| MsgType := ReadFileRequest;
                    Payload := PReadFile {| ReadFile_File := node_Path n |} |} |} in
  match nsx op with
  | inr err =>
      {| read_n := 0; read_err := Some err; read_Data := req_Data req; read_ops := [op] |}
  | inl {| MsgType := ReadFileResponse; Payload := PString content |} =>
      {| read_n := Z.of_nat (String.length content); read_err := None;
         read_Data := content; read_ops := [op] |}
  | inl {| MsgType := ErrorResponse; Payload := PIOerror {| RcvError := Some err |} |} =>
      {| read_n := 0; read_err := Some err; read_Data := req_Data req; read_ops := [op] |}
  | inl _ =>
      {| read_n := 0; read_err := Some (ErrorString "unexpected response");
         read_Data := req_Data req; read_ops := [op] |}
  end.

Definition Read (h : HandlerBase) (n : IOnode) (req : HandlerRequest) : ReadResult :=
  let resource := node_Name n in
  if Offset req >? 0 then
    {| read_n := 0; read_err := Some io_EOF; read_Data := req_Data req; read_ops := [] |}
  else if String.eqb resource "max_dgram_qlen" then readFileInt h n req
  else
    match FindHandler (Service h) "/proc/sys/" with
    | None =>
        {| read_n := 0; read_err := Some (ErrorString "No /proc/sys/ handler found");
           read_Data := req_Data req; read_ops := [] |}
    | Some procSysCommonHandler => h_Read procSysCommonHandler n req
    end.

Definition ReadDirAll (h : HandlerBase) (n : IOnode) (req : HandlerRequest)
  : ReadDirResult :=
  match FindHandler (Service h) "/proc/sys/" with
  | None =>
      {| dir_entries := []; dir_err := Some (ErrorString "No /proc/sys/ handler found");
         dir_ops := [] |}
  | Some procSysCommonHandler =>
      let r := h_ReadDirAll procSysCommonHandler n req in
      let fileEntries :=
        match dir_err r with
        | None => fold_left (fun acc entry => acc ++ [entry]) (dir_entries r) []
        | Some _ => []
        end in
      {| dir_entries := fileEntries; dir_err := None; dir_ops := dir_ops r |}
  end.

End Handler.

Definition GetResourceMap (h : HandlerBase) : gmap string EmuResource :=
  EmuResourceMap h.

(** The heap cells that hold [EmuResource] values; cell [i] is the [i]-th
    allocation.  The elements of a Go map have no address: a pointer into
    an [EmuResource] is always into one of these cells. *)
Abbreviation Heap := (list EmuResource).

(** A [*sync.Mutex]: nil, or the [Mutex] field of a heap cell. *)
Definition MutexPtr : Type := option nat.

(** GetResourceMutex.  [resource] is a local variable that receives a
    copy of the map element; taking the address of its field moves it to
    a new heap cell. *)
Definition GetResourceMutex (h : HandlerBase) (s : string) (heap : Heap)
  : MutexPtr * Heap :=
  match EmuResourceMap h !! s with
  | None => (None, heap)
  | Some resource => (Some (length heap), heap ++ [resource])
  end.

(** mutex.Lock() through a pointer: [None] when the mutex is held and the
    caller would block, otherwise the heap with the mutex held. *)
Definition Lock (p : nat) (heap : Heap) : option Heap :=
  match heap !! p with
  | Some r =>
      if locked (Mutex r) then None
      else Some (<[p := {| Kind := Kind r; Mode := Mode r; Enabled := Enabled r;
                           Mutex := {| locked := true |} |}]> heap)
  | None => None
  end.

(** ** The round trip of a response, in the words of the specification *)

(** The success response of a request variant. *)
Definition responseType (t : NSenterMsgType) : option NSenterMsgType :=
  match t with
  | LookupRequest => Some LookupResponse
  | OpenFileRequest => Some OpenFileResponse
  | ReadFileRequest => Some ReadFileResponse
  | WriteFileRequest => Some WriteFileResponse
  | ReadDirRequest => Some ReadDirResponse
  | MountSyscallRequest => Some MountSyscallResponse
  | UmountSyscallRequest => Some UmountSyscallResponse
  | ChownSyscallRequest => Some ChownSyscallResponse
  | MountInfoRequest => Some MountInfoResponse
  | MountInodeRequest => Some MountInodeResponse
  | SleepRequest => Some SleepResponse
  | _ => None
  end.

(** The value behind a pointer. *)
Fixpoint deref (p : PayloadValue) : PayloadValue :=
  match p with
  | PRef q => deref q
  | _ => p
  end.

(** The payload the master ends up with for a success response of the
    agent: the integer 0 for OpenFile and the empty string for WriteFile,
    whose agent payload is nil, and otherwise the agent's payload, by
    value. *)
Definition masterPayload (m : NSenterMessage) : PayloadValue :=
  match MsgType m with
  | OpenFileResponse => PInt 0
  | WriteFileResponse => PString EmptyString
  | _ => deref (Payload m)
  end.

(** The success responses the agent builds, by request variant. *)
Inductive AgentSuccess : NSenterMsgType -> NSenterMessage -> Prop :=
| success_Lookup fi :
    AgentSuccess LookupRequest {| MsgType := LookupResponse; Payload := PFileInfo fi |}
| success_OpenFile :
    AgentSuccess OpenFileRequest {| MsgType := OpenFileResponse; Payload := PNil |}
| success_ReadFile s :
    AgentSuccess ReadFileRequest {| MsgType := ReadFileResponse; Payload := PString s |}
| success_WriteFile :
    AgentSuccess WriteFileRequest {| MsgType := WriteFileResponse; Payload := PNil |}
| success_ReadDir l :
    AgentSuccess ReadDirRequest
      {| MsgType := ReadDirResponse; Payload := PFileInfoList l |}
| success_MountSyscall :
    AgentSuccess MountSyscallRequest
      {| MsgType := MountSyscallResponse; Payload := PString EmptyString |}
| success_UmountSyscall :
    AgentSuccess UmountSyscallRequest
      {| MsgType := UmountSyscallResponse; Payload := PString EmptyString |}
| success_ChownSyscall :
    AgentSuccess ChownSyscallRequest
      {| MsgType := ChownSyscallResponse; Payload := PString EmptyString |}
| success_MountInfo p :
    AgentSuccess MountInfoRequest
      {| MsgType := MountInfoResponse; Payload := PRef (PMountInfoResp p) |}
| success_MountInode p :
    AgentSuccess MountInodeRequest
      {| MsgType := MountInodeResponse; Payload := PRef (PMountInodeResp p) |}
| success_Sleep :
    AgentSuccess SleepRequest {| MsgType := SleepResponse; Payload := PString EmptyString |}.

Section RoundTrip.

Context {World : Type} `{Kernel World}.
Context `{JsonCodec FileInfo} `{JsonCodec MountInfoRespPayload}
        `{JsonCodec MountInodeRespPayload} `{JsonCodec IOerror}.

(** "The agent's processRequest followed by the master's processResponse
    yields a Message of tag R.Response with payload deep-equal to what the
    agent produced", for every request whose agent response is not an
    ErrorResponse. *)
Definition RoundTripDeepEqual : Prop :=
  forall (pipe : AgentPipe) (req : Envelope) (w w' : World) (ev : NSenterEvent)
         (calls : list SysCall) (m : NSenterMessage) (e0 e1 : NSenterEvent)
         (err : option error),
    pipe_request pipe = inl req ->
    processRequest newAgentEvent pipe w = (Returned (ev, None), w', calls) ->
    ResMsg ev = Some m ->
    MsgType m <> ErrorResponse ->
    processResponse e0 (inl (marshalMessage m)) = (e1, err) ->
    err = None
    /\ exists m', ResMsg e1 = Some m'
                  /\ responseType (env_Type req) = Some (MsgType m')
                  /\ Payload m' = Payload m.

End RoundTrip.

(** The calls to the reaper among the actions of the master. *)
Definition isStarted (a : MasterAction) : bool :=
  match a with nsenterStarted => true | _ => false end.

Definition isEnded (a : MasterAction) : bool :=
  match a with nsenterEnded => true | _ => false end.

Definition started (t : list MasterAction) : nat := length (List.filter isStarted t).
Definition ended (t : list MasterAction) : nat := length (List.filter isEnded t).

(** A master environment in which every step succeeds. *)
Definition allGood (grand first : Z) (response : Envelope + error) : MasterEnv :=
  {| m_NewSockPair := None; m_SetsockoptInt := None; m_cmdStart := None;
     m_ioCopy := None; m_Wait := inl true;
     m_decodePid := inl {| pid_Pid := grand; pid_PidFirstChild := first |};
     m_FindProcess := fun _ => None; m_Sendmsg := None; m_Marshal := None;
     m_Write := None; m_response := response; m_Shutdown := None; m_Kill := None |}.

Definition withSetsockopt (r : option error) (env : MasterEnv) : MasterEnv :=
  {| m_NewSockPair := m_NewSockPair env; m_SetsockoptInt := r;
     m_cmdStart := m_cmdStart env; m_ioCopy := m_ioCopy env; m_Wait := m_Wait env;
     m_decodePid := m_decodePid env; m_FindProcess := m_FindProcess env;
     m_Sendmsg := m_Sendmsg env; m_Marshal := m_Marshal env; m_Write := m_Write env;
     m_response := m_response env; m_Shutdown := m_Shutdown env;
     m_Kill := m_Kill env |}.

(** A master event for a request on behalf of [callerPid]. *)
Definition masterEvent (callerPid : Z) (req : NSenterMessage) (isAsync : bool)
  : NSenterEvent :=
  {| Pid := callerPid; Namespace := ["user"; "pid"; "mnt"]; ReqMsg := Some req;
     ResMsg := None; Process := None; parentPipe := false; async := isAsync |}.

(** ** A small concrete world

    A kernel with a mount table and nothing else, and codecs for the
    response structs, to run the functions above on the scenarios of the
    specification. *)

Module Scenario.

(** The targets that are mounted, the latest first. *)
Definition World : Type := list string.

Definition ENOENT : error := Errno 2.
Definition EINVAL : error := Errno 22.
Definition EPERM : error := Errno 1.

(** Modelled from the spec: ResolveProcSelf belongs to the absent process
    package.  A path that begins with /proc/self is resolved through
    /proc/<pid>/...; any other absolute path is left as it is.  This
    resolver rejects a path that is not absolute. *)
Definition resolveProcSelf (pid : Z) (path : string) (w : World)
  : string * option error :=
  match path with
  | String "/" _ =>
      if String.eqb path "/proc/self" || String.prefix "/proc/self/" path then
        ("/proc/" +:+ pretty pid +:+
           String.substring 10 (String.length path - 10) path, None)
      else (path, None)
  | _ => (EmptyString, Some (ErrorString "path is not absolute."))
  end.

Fixpoint removeFirst (t : string) (w : World) : option World :=
  match w with
  | [] => None
  | t' :: w' =>
      if String.eqb t t' then Some w'
      else match removeFirst t w' with
           | Some w'' => Some (t' :: w'')
           | None => None
           end
  end.

Definition statOf (path : string) : FileInfo :=
  {| Fname := path; Fsize := 0; Fmode := 420; FmodTime := 0; FisDir := false;
     Fsys := zeroStat_t |}.

#[export] Instance kernel : Kernel World := {|
  os_Stat path w := inl (statOf path);
  os_OpenFile path flags mode w := (None, w);
  ioutil_ReadFile path w :=
    if String.eqb path "/proc/sys/net/unix/max_dgram_qlen"
    then inl (String "5" (String "1" (String "2" (String "010"%char EmptyString))))
    else inr ENOENT;
  ioutil_WriteFile path content perm w := (None, w);
  ioutil_ReadDir path w := inl [];
  AdjustPersonality uid gid root cwd caps w := (None, w);
  ResolveProcSelf := resolveProcSelf;
  unix_Mount source target fstype flags data w :=
    if String.eqb source "/bogus" then (Some ENOENT, w) else (None, target :: w);
  unix_Unmount target flags w :=
    match removeFirst target w with
    | Some w' => (None, w')
    | None => (Some EINVAL, w)
    end;
  unix_Chown target uid gid w :=
    if String.eqb target "/readonly" then (Some EPERM, w) else (None, w);
  os_Getpid w := 777;
  NewMountInfoParser pid w := None;
  ExtractMountInfo pid w := inl [];
  FileInode path w := 0;
  time_Sleep d w := w
|}.

Definition noHeader : MountSyscallHeader :=
  {| Uid := 0; Gid := 0; Root := "/"; Cwd := "/"; Capabilities := [] |}.

Definition MS_BIND : Z := 4096.

Definition bindMount (source target : string) : MountSyscallPayload :=
  {| Header := noHeader; Source := source; Target := target; FsType := EmptyString;
     Flags := MS_BIND; Data := EmptyString |}.

Definition remount (target : string) : MountSyscallPayload :=
  {| Header := noHeader; Source := target; Target := target; FsType := EmptyString;
     Flags := Z.lor MS_BIND MS_REMOUNT; Data := EmptyString |}.

Definition umountOf (target : string) : UmountSyscallPayload :=
  {| Umount_Target := target; Umount_Flags := 0 |}.

Definition chownOf (target : string) : ChownSyscallPayload :=
  {| Chown_Target := target; TargetUid := 1000; TargetGid := 1000 |}.

(** An agent event as processRequest hands it to a handler function. *)
Definition agentEvent (callerPid : Z) (t : NSenterMsgType) (p : PayloadValue)
  : NSenterEvent :=
  {| Pid := callerPid; Namespace := [];
     ReqMsg := Some {| MsgType := t; Payload := p |}; ResMsg := None;
     Process := None; parentPipe := false; async := false |}.

#[export] Instance Stat_t_json : JsonCodec Stat_t := {|
  toJson st := JObject [("Ino", toJson (Ino st)); ("Mode", toJson (St_Mode st));
                        ("Uid", toJson (St_Uid st)); ("Gid", toJson (St_Gid st))];
  fromJson j :=
    match fromJson (fieldOf "Ino" j), fromJson (fieldOf "Mode" j),
          fromJson (fieldOf "Uid" j), fromJson (fieldOf "Gid" j) with
    | Some i, Some m, Some u, Some g =>
        Some {| Ino := i; St_Mode := m; St_Uid := u; St_Gid := g |}
    | _, _, _, _ => None
    end
|}.

#[export] Instance bool_json : JsonCodec bool := {|
  toJson b := JBool b;
  fromJson j := match j with JBool b => Some b | _ => None end
|}.

#[export] Instance FileInfo_json : JsonCodec FileInfo := {|
  toJson fi := JObject [("Fname", toJson (Fname fi)); ("Fsize", toJson (Fsize fi));
                        ("Fmode", toJson (Fmode fi)); ("FmodTime", toJson (FmodTime fi));
                        ("FisDir", toJson (FisDir fi)); ("Fsys", toJson (Fsys fi))];
  fromJson j :=
    match fromJson (fieldOf "Fname" j), fromJson (fieldOf "Fsize" j),
          fromJson (fieldOf "Fmode" j), fromJson (fieldOf "FmodTime" j),
          fromJson (fieldOf "FisDir" j), fromJson (fieldOf "Fsys" j) with
    | Some n, Some s, Some m, Some t, Some d, Some st =>
        Some {| Fname := n; Fsize := s; Fmode := m; FmodTime := t; FisDir := d;
                Fsys := st |}
    | _, _, _, _, _, _ => None
    end
|}.

#[export] Instance MountInfo_json : JsonCodec MountInfo := {|
  toJson mi := JObject [("MountID", toJson (MountID mi));
                        ("ParentID", toJson (ParentID mi));
                        ("MajorMinorVer", toJson (MajorMinorVer mi));
                        ("Root", toJson (MountRoot mi));
                        ("MountPoint", toJson (MountPoint mi));
                        ("Options", toJson (Options mi));
                        ("FsType", toJson (MountFsType mi));
                        ("Source", toJson (MountSource mi));
                        ("VfsOptions", toJson (VfsOptions mi))];
  fromJson j :=
    match fromJson (fieldOf "MountID" j), fromJson (fieldOf "ParentID" j),
          fromJson (fieldOf "MajorMinorVer" j), fromJson (fieldOf "Root" j),
          fromJson (fieldOf "MountPoint" j), fromJson (fieldOf "Options" j),
          fromJson (fieldOf "FsType" j), fromJson (fieldOf "Source" j),
          fromJson (fieldOf "VfsOptions" j) with
    | Some a, Some b, Some c, Some d, Some e, Some f, Some g, Some h, Some i =>
        Some {| MountID := a; ParentID := b; MajorMinorVer := c; MountRoot := d;
                MountPoint := e; Options := f; MountFsType := g; MountSource := h;
                VfsOptions := i |}
    | _, _, _, _, _, _, _, _, _ => None
    end
|}.

#[export] Instance MountInfoRespPayload_json : JsonCodec MountInfoRespPayload := {|
  toJson p := JObject [("Data", toJson (MountInfo_Data p))];
  fromJson j :=
    match fromJson (fieldOf "Data" j) with
    | Some d => Some {| MountInfo_Data := d |}
    | None => None
    end
|}.

#[export] Instance MountInodeRespPayload_json : JsonCodec MountInodeRespPayload := {|
  toJson p := JObject [("MpInodeList", toJson (MpInodeList p))];
  fromJson j :=
    match fromJson (fieldOf "MpInodeList" j) with
    | Some d => Some {| MpInodeList := d |}
    | None => None
    end
|}.

#[export] Instance error_json : JsonCodec error := {|
  toJson err :=
    match err with
    | Errno n => JObject [("Errno", toJson n)]
    | ErrorString s => JObject [("Msg", toJson s)]
    end;
  fromJson j :=
    match fieldOf "Errno" j, fieldOf "Msg" j with
    | JNumber n, _ => Some (Errno n)
    | _, JString s => Some (ErrorString s)
    | _, _ => None
    end
|}.

#[export] Instance IOerror_json : JsonCodec IOerror := {|
  toJson io :=
    JObject [("RcvError",
              match RcvError io with Some err => toJson err | None => JNull end)];
  fromJson j :=
    match fieldOf "RcvError" j with
    | JNull => Some {| RcvError := None |}
    | je => match fromJson je with
            | Some err => Some {| RcvError := Some err |}
            | None => None
            end
    end
|}.

(** One NSX invocation from end to end in this world: the agent runs
    [Init] on the request, the master runs SendRequest and reads what the
    agent wrote. *)
Definition nsx (w : World) (op : AgentOp) : NSenterMessage + error :=
  let pipe :=
    {| pipe_setsockopt := None;
       pipe_recvmsg :=
         RecvMsgs [ScmCredentials {| Ucred_Pid := int32 (op_Pid op);
                                     Ucred_Uid := 0; Ucred_Gid := 0 |}];
       pipe_request := inl (marshalMessage (op_Request op));
       pipe_write := None |} in
  match Init pipe w with
  | (Returned (Some reply, None), _, _) =>
      match SendRequest (allGood 9001 9000 (inl reply))
                        (masterEvent (op_Pid op) (op_Request op) false) with
      | (Returned (e, None), _) =>
          match ReceiveResponse e with
          | Some m => inl m
          | None => inr EINVAL
          end
      | (Returned (_, Some err), _) => inr err
      | (Panicked, _) => inr EINVAL
      end
  | _ => inr EINVAL
  end.

(** The agent's end of the pipe when the master sends [req] on behalf of
    [callerPid]. *)
Definition pipeFor (callerPid : Z) (req : NSenterMessage) : AgentPipe :=
  {| pipe_setsockopt := None;
     pipe_recvmsg :=
       RecvMsgs [ScmCredentials {| Ucred_Pid := int32 callerPid;
                                   Ucred_Uid := 0; Ucred_Gid := 0 |}];
     pipe_request := inl (marshalMessage req);
     pipe_write := None |}.

Definition openFileRequest : NSenterMessage :=
  {| MsgType := OpenFileRequest;
     Payload := POpenFile {| OpenFile_File := "/proc/sys/net/unix/max_dgram_qlen";
                             OpenFile_Flags := "0"; OpenFile_Mode := "0" |} |}.

Definition readFileRequest : NSenterMessage :=
  {| MsgType := ReadFileRequest;
     Payload := PReadFile {| ReadFile_File := "/proc/sys/net/unix/max_dgram_qlen" |} |}.

Definition mountInodeRequest : NSenterMessage :=
  {| MsgType := MountInodeRequest;
     Payload := PMountInodeReq {| Mountpoints := ["/proc"; "/sys"] |} |}.

(** A /proc/sys/ handler whose calls fail, and one whose calls succeed. *)
Definition failingCommon : HandlerIface :=
  {| h_Read := fun n req =>
       {| read_n := 0; read_err := Some ENOENT; read_Data := req_Data req;
          read_ops := [] |};
     h_ReadDirAll := fun n req =>
       {| dir_entries := [statOf "stale"]; dir_err := Some ENOENT; dir_ops := [] |} |}.

Definition workingCommon : HandlerIface :=
  {| h_Read := fun n req =>
       {| read_n := 1; read_err := None; read_Data := "0"; read_ops := [] |};
     h_ReadDirAll := fun n req =>
       {| dir_entries := [statOf "max_dgram_qlen"]; dir_err := None; dir_ops := [] |} |}.

Definition registry (common : option HandlerIface) : HandlerServiceIface :=
  {| FindHandler := fun name =>
       if String.eqb name "/proc/sys/" then common else None |}.

Definition max_dgram_qlen : IOnode :=
  {| node_Name := "max_dgram_qlen";
     node_Path := "/proc/sys/net/unix/max_dgram_qlen" |}.

Definition unixDir : IOnode :=
  {| node_Name := "unix"; node_Path := "/proc/sys/net/unix" |}.

Definition readAt (offset : Z) : HandlerRequest :=
  {| ID := 1; req_Pid := 4242; Offset := offset; req_Data := EmptyString |}.

End Scenario.

(** ** What the specification says of a batch, in its own words *)

Definition mountCall (p : MountSyscallPayload) : SysCall :=
  SysMount (Source p) (Target p) (FsType p) (Flags p) (Data p).

Definition rollbackCall (p : MountSyscallPayload) : SysCall :=
  SysUnmount (Target p) 0.

Definition notRemount (p : MountSyscallPayload) : bool := negb (isRemount p).

Section Batches.

Context {World : Type} `{Kernel World}.

(** The mount of one entry succeeds: both paths resolve and the kernel
    accepts the mount.  The entry is given back with the resolved paths. *)
Inductive MountOk (process : Z) (p : MountSyscallPayload) (w : World)
  : MountSyscallPayload -> World -> Prop :=
| mount_ok src tgt w' :
    ResolveProcSelf process (Source p) w = (src, None) ->
    ResolveProcSelf process (Target p) w = (tgt, None) ->
    unix_Mount src tgt (FsType p) (Flags p) (Data p) w = (None, w') ->
    MountOk process p w (withMountPaths src tgt p) w'.

(** The mount of one entry fails, in its path resolution or in the
    system call, with the error, the world and the calls that were made. *)
Inductive MountFails (process : Z) (p : MountSyscallPayload) (w : World)
  : error -> World -> list SysCall -> Prop :=
| source_unresolved s err :
    ResolveProcSelf process (Source p) w = (s, Some err) ->
    MountFails process p w err w []
| target_unresolved src t err :
    ResolveProcSelf process (Source p) w = (src, None) ->
    ResolveProcSelf process (Target p) w = (t, Some err) ->
    MountFails process p w err w []
| mount_refused src tgt err w' :
    ResolveProcSelf process (Source p) w = (src, None) ->
    ResolveProcSelf process (Target p) w = (tgt, None) ->
    unix_Mount src tgt (FsType p) (Flags p) (Data p) w = (Some err, w') ->
    MountFails process p w err w'
      [SysMount src tgt (FsType p) (Flags p) (Data p)].

(** All the mounts of a list succeed, one after the other. *)
Inductive MountsOk (process : Z)
  : list MountSyscallPayload -> World -> list MountSyscallPayload -> World -> Prop :=
| mounts_nil w : MountsOk process [] w [] w
| mounts_cons p ps w p' w1 ps' w2 :
    MountOk process p w p' w1 ->
    MountsOk process ps w1 ps' w2 ->
    MountsOk process (p :: ps) w (p' :: ps') w2.

(** The personality adjustment that comes before an overlay batch went
    well, or the batch is not an overlay batch. *)
Inductive PersonalityOk (p0 : MountSyscallPayload) (w : World)
  : World -> list SysCall -> Prop :=
| not_overlay : FsType p0 <> "overlay" -> PersonalityOk p0 w w []
| overlay_adjusted w0 :
    FsType p0 = "overlay" ->
    AdjustPersonality (Uid (Header p0)) (Gid (Header p0)) (Root (Header p0))
      (Cwd (Header p0)) (Capabilities (Header p0)) w = (None, w0) ->
    PersonalityOk p0 w w0
      [SysAdjustPersonality (Uid (Header p0)) (Gid (Header p0)) (Root (Header p0))
         (Cwd (Header p0)) (Capabilities (Header p0))].

(** The world after the targets of [ps] are unmounted, in that order. *)
Definition unmounted (ps : list MountSyscallPayload) (w : World) : World :=
  fold_left (fun w p => snd (unix_Unmount (Target p) 0 w)) ps w.

(** The unmount of one target succeeds. *)
Inductive UmountOk (process : Z) (p : UmountSyscallPayload) (w : World)
  : SysCall -> World -> Prop :=
| umount_ok tgt w' :
    ResolveProcSelf process (Umount_Target p) w = (tgt, None) ->
    unix_Unmount tgt (Umount_Flags p) w = (None, w') ->
    UmountOk process p w (SysUnmount tgt (Umount_Flags p)) w'.

Inductive UmountsOk (process : Z)
  : list UmountSyscallPayload -> World -> list SysCall -> World -> Prop :=
| umounts_nil w : UmountsOk process [] w [] w
| umounts_cons p ps w c w1 cs w2 :
    UmountOk process p w c w1 ->
    UmountsOk process ps w1 cs w2 ->
    UmountsOk process (p :: ps) w (c :: cs) w2.

(** The kernel refuses the unmount of a target that resolves. *)
Inductive UmountRefused (process : Z) (p : UmountSyscallPayload) (w : World)
  : error -> SysCall -> World -> Prop :=
| umount_refused tgt err w' :
    ResolveProcSelf process (Umount_Target p) w = (tgt, None) ->
    unix_Unmount tgt (Umount_Flags p) w = (Some err, w') ->
    UmountRefused process p w err (SysUnmount tgt (Umount_Flags p)) w'.

(** "Each target is attempted regardless of failures of earlier targets":
    every target of the batch is handed to an unmount call. *)
Definition UmountBestEffort : Prop :=
  forall (e : NSenterEvent) (payload : list UmountSyscallPayload) (w : World),
    ReqMsg e = Some {| MsgType := UmountSyscallRequest;
                       Payload := PUmountSyscall payload |} ->
    forall p, In p payload ->
      In (SysUnmount (Umount_Target p) (Umount_Flags p))
         (snd (processUmountSyscallRequest e w)).

(** [resolved] is what ResolveProcSelf gives for [path], for the process
    of the caller. *)
Definition resolvedFrom (process : Z) (path resolved : string) : Prop :=
  exists w : World, ResolveProcSelf process path w = (resolved, None).

(** A mount call made for an entry of the batch, with resolved paths. *)
Definition MountCallOf (process : Z) (payload : list MountSyscallPayload)
    (c : SysCall) : Prop :=
  exists p src tgt,
    In p payload /\ resolvedFrom process (Source p) src
    /\ resolvedFrom process (Target p) tgt
    /\ c = SysMount src tgt (FsType p) (Flags p) (Data p).

(** An unmount call of the rollback, on the resolved target of an entry. *)
Definition RollbackCallOf (process : Z) (payload : list MountSyscallPayload)
    (c : SysCall) : Prop :=
  exists p tgt,
    In p payload /\ resolvedFrom process (Target p) tgt /\ c = SysUnmount tgt 0.

Definition UmountCallOf (process : Z) (payload : list UmountSyscallPayload)
    (c : SysCall) : Prop :=
  exists p tgt,
    In p payload /\ resolvedFrom process (Umount_Target p) tgt
    /\ c = SysUnmount tgt (Umount_Flags p).

Definition ChownCallOf (process : Z) (payload : list ChownSyscallPayload)
    (c : SysCall) : Prop :=
  exists p tgt,
    In p payload /\ resolvedFrom process (Chown_Target p) tgt
    /\ c = SysChown tgt (TargetUid p) (TargetGid p).

(** "Every path argument that begins with /proc/self is resolved through
    /proc/<caller_pid>/... before the syscall", for Lookup: the path that
    is handed to stat is the resolved one. *)
Definition LookupResolvesProcSelf : Prop :=
  forall (e : NSenterEvent) (t : NSenterMsgType) (payload : LookupPayload) (w : World),
    ReqMsg e = Some {| MsgType := t; Payload := PLookup payload |} ->
    snd (processLookupRequest e w)
    = [SysStat (fst (ResolveProcSelf (Pid e) (Entry payload) w))].

End Batches.

Definition isMountCall (c : SysCall) : bool :=
  match c with SysMount _ _ _ _ _ => true | _ => false end.

(** ** Further vocabulary for the properties below *)

(** The tags processResponse has a case for. *)
Definition isResponseType (t : NSenterMsgType) : bool :=
  match t with
  | LookupResponse | OpenFileResponse | ReadFileResponse | WriteFileResponse
  | ReadDirResponse | MountSyscallResponse | UmountSyscallResponse
  | MountInfoResponse | MountInodeResponse | ChownSyscallResponse
  | SleepResponse | ErrorResponse => true
  | _ => false
  end.

(** The response tags whose payload processResponse does not decode. *)
Definition hasConstantPayload (t : NSenterMsgType) : bool :=
  match t with
  | WriteFileResponse | MountSyscallResponse | UmountSyscallResponse
  | ChownSyscallResponse | SleepResponse => true
  | _ => false
  end.

Definition isUnmountCall (c : SysCall) : bool :=
  match c with SysUnmount _ _ => true | _ => false end.

Definition isAdjustPersonality (c : SysCall) : bool :=
  match c with SysAdjustPersonality _ _ _ _ _ => true | _ => false end.

Definition isReapReq (a : MasterAction) : bool :=
  match a with nsenterReapReq => true | _ => false end.

Definition isSendmsg (a : MasterAction) : bool :=
  match a with Sendmsg _ => true | _ => false end.

Definition isWritePipe (a : MasterAction) : bool :=
  match a with WritePipe _ => true | _ => false end.

Definition isErrorMessage (m : option NSenterMessage) : bool :=
  match m with
  | Some {| MsgType := ErrorResponse |} => true
  | _ => false
  end.

Definition firstChar (s : string) : option ascii :=
  match s with
  | EmptyString => None
  | String c _ => Some c
  end.

Fixpoint lastChar (s : string) : option ascii :=
  match s with
  | EmptyString => None
  | String c EmptyString => Some c
  | String _ s' => lastChar s'
  end.

Definition withRecvmsg (r : RecvResult) (pipe : AgentPipe) : AgentPipe :=
  {| pipe_setsockopt := pipe_setsockopt pipe; pipe_recvmsg := r;
     pipe_request := pipe_request pipe; pipe_write := pipe_write pipe |}.

Section ChownSpec.

Context {World : Type} `{Kernel World}.

(** The chown of one entry succeeds: its target resolves and the kernel
    accepts the change. *)
Inductive ChownOk (process : Z) (p : ChownSyscallPayload) (w : World)
  : SysCall -> World -> Prop :=
| chown_ok tgt w' :
    ResolveProcSelf process (Chown_Target p) w = (tgt, None) ->
    unix_Chown tgt (TargetUid p) (TargetGid p) w = (None, w') ->
    ChownOk process p w (SysChown tgt (TargetUid p) (TargetGid p)) w'.

Inductive ChownsOk (process : Z)
  : list ChownSyscallPayload -> World -> list SysCall -> World -> Prop :=
| chowns_nil w : ChownsOk process [] w [] w
| chowns_cons p ps w c w1 cs w2 :
    ChownOk process p w c w1 ->
    ChownsOk process ps w1 cs w2 ->
    ChownsOk process (p :: ps) w (c :: cs) w2.

(** The kernel refuses the chown of a target that resolves. *)
Inductive ChownRefused (process : Z) (p : ChownSyscallPayload) (w : World)
  : error -> SysCall -> World -> Prop :=
| chown_refused tgt err w' :
    ResolveProcSelf process (Chown_Target p) w = (tgt, None) ->
    unix_Chown tgt (TargetUid p) (TargetGid p) w = (Some err, w') ->
    ChownRefused process p w err (SysChown tgt (TargetUid p) (TargetGid p)) w'.

End ChownSpec.

(** ** More of the /proc/sys/net/unix handler *)

Record LookupResult := {
  lookup_info : option FileInfo;
  lookup_err : option error;
  lookup_ops : list AgentOp
}.

Record OpenResult := {
  open_err : option error;
  open_ops : list AgentOp
}.

(** The further methods of domain.HandlerIface that the handler
    delegates: Lookup, Open and Write. *)
Record HandlerMethods := {
  hm_Lookup : IOnode -> HandlerRequest -> LookupResult;
  hm_Open : IOnode -> HandlerRequest -> OpenResult;
  hm_Write : IOnode -> HandlerRequest -> ReadResult
}.

Section MoreHandler.

(** [h.Service.FindHandler], seen with these methods. *)
Variable findHandler : string -> option HandlerMethods.

(** time.Now(), at the moment of the call. *)
Variable now : Z.

(** writeFileMaxInt(h, n, req, true): the helper is not part of the
    sources at hand and is taken as given. *)
Variable writeFileMaxInt : HandlerBase -> IOnode -> HandlerRequest -> ReadResult.

(** Lookup.  The artificial FileInfo has the name and the mode of the
    emulated resource and the current time; its other fields are zero. *)
Definition Lookup (h : HandlerBase) (n : IOnode) (req : HandlerRequest)
  : LookupResult :=
  let resource := node_Name n in
  match EmuResourceMap h !! resource with
  | Some v =>
      {| lookup_info :=
           Some {| Fname := resource; Fsize := 0; Fmode := Mode v; FmodTime := now;
                   FisDir := false; Fsys := zeroStat_t |};
         lookup_err := None; lookup_ops := [] |}
  | None =>
      match findHandler "/proc/sys/" with
      | None =>
          {| lookup_info := None;
             lookup_err := Some (ErrorString "No /proc/sys/ handler found");
             lookup_ops := [] |}
      | Some procSysCommonHandler => hm_Lookup procSysCommonHandler n req
      end
  end.

Definition Open (h : HandlerBase) (n : IOnode) (req : HandlerRequest) : OpenResult :=
  let resource := node_Name n in
  if String.eqb resource "max_dgram_qlen" then {| open_err := None; open_ops := [] |}
  else
    match findHandler "/proc/sys/" with
    | None =>
        {| open_err := Some (ErrorString "No /proc/sys/ handler found");
           open_ops := [] |}
    | Some procSysCommonHandler => hm_Open procSysCommonHandler n req
    end.

Definition Write (h : HandlerBase) (n : IOnode) (req : HandlerRequest) : ReadResult :=
  let resource := node_Name n in
  if String.eqb resource "max_dgram_qlen" then writeFileMaxInt h n req
  else
    match findHandler "/proc/sys/" with
    | None =>
        {| read_n := 0; read_err := Some (ErrorString "No /proc/sys/ handler found");
           read_Data := req_Data req; read_ops := [] |}
    | Some procSysCommonHandler => hm_Write procSysCommonHandler n req
    end.

End MoreHandler.

(** What the master does with its end of the socket pair, in the order
    of the helper-process protocol: the namespace configuration, the pid
    report it reads back, the credentials, the request, the response. *)
Inductive PipeUse := UseConfig | UsePid | UseCreds | UseRequest | UseResponse.

Definition pipeUse (a : MasterAction) : option PipeUse :=
  match a with
  | CopyConfig => Some UseConfig
  | DecodePid => Some UsePid
  | Sendmsg _ => Some UseCreds
  | WritePipe _ => Some UseRequest
  | ReadResponse => Some UseResponse
  | _ => None
  end.

Definition pipeUses (t : list MasterAction) : list PipeUse := omap pipeUse t.

Definition protocol : list PipeUse :=
  [UseConfig; UsePid; UseCreds; UseRequest; UseResponse].

Definition reaped (t : list MasterAction) : nat := length (List.filter isReapReq t).

(** A /proc/sys/ handler for the further methods, in the small concrete
    world: it knows one file, somaxconn. *)
Definition commonMethods : HandlerMethods :=
  {| hm_Lookup := fun n req =>
       if String.eqb (node_Name n) "somaxconn" then
         {| lookup_info := Some (Scenario.statOf "somaxconn"); lookup_err := None;
            lookup_ops := [] |}
       else {| lookup_info := None; lookup_err := Some Scenario.ENOENT;
               lookup_ops := [] |};
     hm_Open := fun n req =>
       {| open_err := if String.eqb (node_Name n) "somaxconn" then None
                      else Some Scenario.ENOENT;
          open_ops := [] |};
     hm_Write := fun n req =>
       {| read_n := 0; read_err := Some Scenario.EPERM; read_Data := req_Data req;
          read_ops := [] |} |}.

Definition findCommon (name : string) : option HandlerMethods :=
  if String.eqb name "/proc/sys/" then Some commonMethods else None.

Definition nosuch : IOnode :=
  {| node_Name := "nosuch"; node_Path := "/proc/sys/net/unix/nosuch" |}.

Definition overlayMount (target : string) : MountSyscallPayload :=
  {| Header := {| Uid := 1000; Gid := 1000; Root := "/"; Cwd := "/";
                  Capabilities := [] |};
     Source := "overlay"; Target := target; FsType := "overlay"; Flags := 0;
     Data := "lowerdir=/l,upperdir=/u,workdir=/w" |}.

(** An agent's pipe with the credentials of process 4242 and the given
    envelope as request. *)
Definition pipeWith (req : Envelope) : AgentPipe :=
  {| pipe_setsockopt := None;
     pipe_recvmsg :=
       RecvMsgs [ScmCredentials {| Ucred_Pid := 4242; Ucred_Uid := 0; Ucred_Gid := 0 |}];
     pipe_request := inl req;
     pipe_write := None |}.


Import Scenario.

(** * Properties *)

(** ** Mount batches *)

Section MountBatch.

Context {World : Type} `{Kernel World}.

Lemma mountLoop_stops (process : Z) (before : list MountSyscallPayload) :
  forall failing after w mounted w1 err w2 fcalls,
    MountsOk process before w mounted w1 ->
    MountFails process failing w1 err w2 fcalls ->
    mountLoop process (before ++ failing :: after) w
    = (mounted, Some err, w2, map mountCall mounted ++ fcalls).
Proof.
  induction before as [|p ps IH]; intros failing after w mounted w1 err w2 fcalls Hok Hfail.
  - inversion Hok; subst. cbn [app mountLoop map].
    inversion Hfail as [s e Hs | src t e Hs Ht | src tgt e w' Hs Ht Hm]; subst.
    + now rewrite Hs.
    + now rewrite Hs, Ht.
    + now rewrite Hs, Ht, Hm.
  - inversion Hok as [|? ? ? p' wa ps' wb Hp Hps]; subst.
    inversion Hp as [src tgt w' Hs Ht Hm]; subst.
    cbn [app mountLoop]. rewrite Hs, Ht, Hm.
    rewrite (IH failing after _ _ _ _ _ _ Hps Hfail).
    reflexivity.
Qed.

Lemma mountLoop_all (process : Z) (payload : list MountSyscallPayload) :
  forall w mounted w1,
    MountsOk process payload w mounted w1 ->
    mountLoop process payload w = (mounted, None, w1, map mountCall mounted).
Proof.
  induction payload as [|p ps IH]; intros w mounted w1 Hok.
  - inversion Hok; subst. reflexivity.
  - inversion Hok as [|? ? ? p' wa ps' wb Hp Hps]; subst.
    inversion Hp as [src tgt w' Hs Ht Hm]; subst.
    cbn [mountLoop]. rewrite Hs, Ht, Hm, (IH _ _ _ Hps). reflexivity.
Qed.

Lemma unmountAll_calls (l : list MountSyscallPayload) :
  forall w,
    unmountAll l w
    = (unmounted (List.filter notRemount l) w,
       map rollbackCall (List.filter notRemount l)).
Proof.
  induction l as [|p l IH]; intros w; [reflexivity|].
  cbn [unmountAll List.filter].
  assert (Hn : notRemount p = negb (isRemount p)) by reflexivity.
  rewrite Hn. destruct (isRemount p); cbn [negb].
  - apply IH.
  - destruct (unix_Unmount (Target p) 0 w) as [r w1] eqn:Hu.
    rewrite IH. unfold unmounted. cbn [map fold_left]. rewrite Hu. reflexivity.
Qed.

(** C1. In a mount batch whose entries before the k-th are mounted and
    whose k-th entry fails (in its path resolution or in the mount), the
    mounts are attempted in submission order up to the k-th, then the
    mounted entries that are not remounts are unmounted from the last to
    the first, remounts are not touched, and the response is an
    ErrorResponse with the error of the failing entry. *)
Theorem mount_batch_rollback
    (e : NSenterEvent) (w : World) (t : NSenterMsgType)
    (before after : list MountSyscallPayload) (failing : MountSyscallPayload)
    (w0 w1 w2 : World) (pcalls fcalls : list SysCall)
    (mounted : list MountSyscallPayload) (err : error) :
  ReqMsg e = Some {| MsgType := t;
                     Payload := PMountSyscall (before ++ failing :: after) |} ->
  PersonalityOk (hd failing before) w w0 pcalls ->
  MountsOk (Pid e) before w0 mounted w1 ->
  MountFails (Pid e) failing w1 err w2 fcalls ->
  processMountSyscallRequest e w
  = (Returned (SetResponseMsg (errorResponse err) e, None),
     unmounted (rev (List.filter notRemount mounted)) w2,
     pcalls ++ map mountCall mounted ++ fcalls
       ++ map rollbackCall (rev (List.filter notRemount mounted))).
Proof.
  intros Hreq Hpers Hok Hfail.
  unfold processMountSyscallRequest. rewrite Hreq.
  assert (Hhd : exists rest, before ++ failing :: after = hd failing before :: rest)
    by (destruct before; cbn; eauto).
  destruct Hhd as [rest Hhd]. rewrite Hhd.
  inversion Hpers as [Hno | wa Hov Hadj]; subst.
  - apply String.eqb_neq in Hno. rewrite Hno. rewrite <- Hhd.
    rewrite (mountLoop_stops _ _ _ _ _ _ _ _ _ _ Hok Hfail).
    rewrite unmountAll_calls, filter_rev. cbn [app].
    now rewrite <- app_assoc.
  - apply String.eqb_eq in Hov. rewrite Hov, Hadj. rewrite <- Hhd.
    rewrite (mountLoop_stops _ _ _ _ _ _ _ _ _ _ Hok Hfail).
    rewrite unmountAll_calls, filter_rev.
    now rewrite <- app_assoc.
Qed.

End MountBatch.

Lemma mount_batch_rollback_witness :
  processMountSyscallRequest
    (agentEvent 4242 MountSyscallRequest
       (PMountSyscall [bindMount "/a" "/m1"; remount "/m1"; bindMount "/proc/self/cwd" "/m2";
                       bindMount "/bogus" "/m3"; bindMount "/c" "/m4"]))
    ([] : Scenario.World)
  = (Returned
       (SetResponseMsg (errorResponse ENOENT)
          (agentEvent 4242 MountSyscallRequest
             (PMountSyscall [bindMount "/a" "/m1"; remount "/m1";
                             bindMount "/proc/self/cwd" "/m2";
                             bindMount "/bogus" "/m3"; bindMount "/c" "/m4"])),
        None),
     ["/m1"],
     [SysMount "/a" "/m1" EmptyString 4096 EmptyString; SysMount "/m1" "/m1" EmptyString 4128 EmptyString;
      SysMount "/proc/4242/cwd" "/m2" EmptyString 4096 EmptyString; SysMount "/bogus" "/m3" EmptyString 4096 EmptyString;
      SysUnmount "/m2" 0; SysUnmount "/m1" 0]).
Proof.
  etransitivity.
  eapply (mount_batch_rollback
           (agentEvent 4242 MountSyscallRequest
              (PMountSyscall [bindMount "/a" "/m1"; remount "/m1";
                              bindMount "/proc/self/cwd" "/m2";
                              bindMount "/bogus" "/m3"; bindMount "/c" "/m4"]))
           [] MountSyscallRequest
           [bindMount "/a" "/m1"; remount "/m1"; bindMount "/proc/self/cwd" "/m2"]
           [bindMount "/c" "/m4"] (bindMount "/bogus" "/m3")
           [] ["/m2"; "/m1"; "/m1"] ["/m2"; "/m1"; "/m1"] []
           [SysMount "/bogus" "/m3" EmptyString 4096 EmptyString]
           [bindMount "/a" "/m1"; remount "/m1"; bindMount "/proc/4242/cwd" "/m2"]
           ENOENT).
  - reflexivity.
  - apply not_overlay. discriminate.
  - repeat (eapply mounts_cons; [eapply (mount_ok (World := Scenario.World)); reflexivity|]).
    apply mounts_nil.
  - eapply (mount_refused (World := Scenario.World)); reflexivity.
  - vm_compute. reflexivity.
Defined.

(** ** Unmount batches *)

Section UmountBatch.

Context {World : Type} `{Kernel World}.

Lemma umountLoop_stops (process : Z) (before : list UmountSyscallPayload) :
  forall failing after w calls w1 err c w2,
    UmountsOk process before w calls w1 ->
    UmountRefused process failing w1 err c w2 ->
    umountLoop process (before ++ failing :: after) w
    = (Some err, errorResponse err, w2, calls ++ [c]).
Proof.
  induction before as [|p ps IH]; intros failing after w calls w1 err c w2 Hok Hfail.
  - inversion Hok; subst. inversion Hfail as [tgt e' w' Hr Hu]; subst.
    cbn [app umountLoop]. now rewrite Hr, Hu.
  - inversion Hok as [|? ? ? c0 wa cs wb Hp Hps]; subst.
    inversion Hp as [tgt w' Hr Hu]; subst.
    cbn [app umountLoop]. rewrite Hr, Hu.
    now rewrite (IH failing after _ _ _ _ _ _ Hps Hfail).
Qed.

Lemma umountLoop_all (process : Z) (payload : list UmountSyscallPayload) :
  forall w calls w1,
    UmountsOk process payload w calls w1 ->
    umountLoop process payload w = (None, None, w1, calls).
Proof.
  induction payload as [|p ps IH]; intros w calls w1 Hok.
  - inversion Hok; subst. reflexivity.
  - inversion Hok as [|? ? ? c0 wa cs wb Hp Hps]; subst.
    inversion Hp as [tgt w' Hr Hu]; subst.
    cbn [umountLoop]. now rewrite Hr, Hu, (IH _ _ _ Hps).
Qed.

Lemma umountLoop_no_mount (process : Z) (payload : list UmountSyscallPayload) :
  forall w, Forall (fun c => isMountCall c = false)
                   (snd (umountLoop process payload w)).
Proof.
  induction payload as [|p ps IH]; intros w; cbn [umountLoop]; [constructor|].
  destruct (ResolveProcSelf process (Umount_Target p) w) as [tgt [err|]]; [constructor|].
  destruct (unix_Unmount tgt (Umount_Flags p) w) as [[err|] w1].
  - cbn. repeat constructor.
  - specialize (IH w1).
    destruct (umountLoop process ps w1) as [[[err res] w2] calls].
    cbn in *. constructor; [reflexivity | exact IH].
Qed.

(** C8, as the code has it. An unmount batch is run in submission order
    and stops at the first target the kernel refuses: the targets after
    it are not attempted, the response is an ErrorResponse with that
    error; nothing is mounted again, whatever happens; when every target
    is unmounted the response is UmountSyscallResponse with the empty
    string as payload. *)
Theorem umount_batch_stops_at_first_failure :
  (forall (e : NSenterEvent) (w : World),
      Forall (fun c => isMountCall c = false)
             (snd (processUmountSyscallRequest e w)))
  /\ (forall (e : NSenterEvent) (w : World) (t : NSenterMsgType)
             (before after : list UmountSyscallPayload)
             (failing : UmountSyscallPayload)
             (calls : list SysCall) (w1 w2 : World) (err : error) (c : SysCall),
         ReqMsg e = Some {| MsgType := t;
                            Payload := PUmountSyscall (before ++ failing :: after) |} ->
         UmountsOk (Pid e) before w calls w1 ->
         UmountRefused (Pid e) failing w1 err c w2 ->
         processUmountSyscallRequest e w
         = (Returned (SetResponseMsg (errorResponse err) e, None), w2, calls ++ [c]))
  /\ (forall (e : NSenterEvent) (w : World) (t : NSenterMsgType)
             (payload : list UmountSyscallPayload)
             (calls : list SysCall) (w1 : World),
         ReqMsg e = Some {| MsgType := t; Payload := PUmountSyscall payload |} ->
         UmountsOk (Pid e) payload w calls w1 ->
         processUmountSyscallRequest e w
         = (Returned
              (SetResponseMsg
                 (Some {| MsgType := UmountSyscallResponse; Payload := PString EmptyString |}) e,
               None), w1, calls)).
Proof.
  split; [|split].
  - intros e w. unfold processUmountSyscallRequest.
    destruct (ReqMsg e) as [[t []]|]; try (cbn; constructor).
    pose proof (umountLoop_no_mount (Pid e) l w) as Hn.
    destruct (umountLoop (Pid e) l w) as [[[err res] w1] calls].
    destruct err; exact Hn.
  - intros e w t before after failing calls w1 w2 err c Hreq Hok Hfail.
    unfold processUmountSyscallRequest. rewrite Hreq.
    now rewrite (umountLoop_stops _ _ _ _ _ _ _ _ _ _ Hok Hfail).
  - intros e w t payload calls w1 Hreq Hok.
    unfold processUmountSyscallRequest. rewrite Hreq.
    now rewrite (umountLoop_all _ _ _ _ _ Hok).
Qed.

End UmountBatch.


Lemma umount_batch_stops_at_first_failure_witness :
  processUmountSyscallRequest
    (agentEvent 4242 UmountSyscallRequest
       (PUmountSyscall [umountOf "/m1"; umountOf "/gone"; umountOf "/m2"]))
    (["/m2"; "/m1"] : Scenario.World)
  = (Returned
       (SetResponseMsg (errorResponse EINVAL)
          (agentEvent 4242 UmountSyscallRequest
             (PUmountSyscall [umountOf "/m1"; umountOf "/gone"; umountOf "/m2"])),
        None),
     ["/m2"], [SysUnmount "/m1" 0; SysUnmount "/gone" 0])
  /\ processUmountSyscallRequest
       (agentEvent 4242 UmountSyscallRequest
          (PUmountSyscall [umountOf "/m1"; umountOf "/m2"]))
       (["/m2"; "/m1"] : Scenario.World)
     = (Returned
          (SetResponseMsg
             (Some {| MsgType := UmountSyscallResponse; Payload := PString EmptyString |})
             (agentEvent 4242 UmountSyscallRequest
                (PUmountSyscall [umountOf "/m1"; umountOf "/m2"])),
           None),
        [], [SysUnmount "/m1" 0; SysUnmount "/m2" 0]).
Proof.
  destruct (umount_batch_stops_at_first_failure (World := Scenario.World))
    as [_ [Hstop Hall]].
  split.
  - etransitivity.
    eapply (Hstop _ _ UmountSyscallRequest [umountOf "/m1"] [umountOf "/m2"]
              (umountOf "/gone")).
    + reflexivity.
    + eapply umounts_cons; [eapply (umount_ok (World := Scenario.World)); reflexivity|].
      apply umounts_nil.
    + eapply (umount_refused (World := Scenario.World)); reflexivity.
    + reflexivity.
  - etransitivity.
    eapply (Hall _ _ UmountSyscallRequest [umountOf "/m1"; umountOf "/m2"]).
    + reflexivity.
    + repeat (eapply umounts_cons;
              [eapply (umount_ok (World := Scenario.World)); reflexivity|]).
      apply umounts_nil.
    + reflexivity.
Defined.

(** C8, as the claim has it, fails: the batch stops at the first target
    the kernel refuses, and "/m2" stays mounted. *)
Lemma umount_batch_not_best_effort :
  snd (processUmountSyscallRequest
         (agentEvent 4242 UmountSyscallRequest
            (PUmountSyscall [umountOf "/gone"; umountOf "/m2"]))
         (["/m2"] : Scenario.World))
  = [SysUnmount "/gone" 0]
  /\ ~ UmountBestEffort (World := Scenario.World).
Proof.
  split; [reflexivity|].
  intros Hall.
  specialize (Hall (agentEvent 4242 UmountSyscallRequest
                      (PUmountSyscall [umountOf "/gone"; umountOf "/m2"]))
                   [umountOf "/gone"; umountOf "/m2"] ["/m2"] eq_refl
                   (umountOf "/m2") (or_intror (or_introl eq_refl))).
  cbn in Hall. destruct Hall as [Heq | []]. discriminate Heq.
Qed.

(** ** Chown batches *)

Section ChownBatch.

Context {World : Type} `{Kernel World}.

(** C4, at the input where the code departs from it. When the path of
    the first chown target cannot be resolved, the loop is left through
    [break]: no chown is issued and the response is the success
    response ChownSyscallResponse, not an ErrorResponse. *)
Theorem chown_unresolved_target_reports_success
    (e : NSenterEvent) (w : World) (t : NSenterMsgType)
    (p : ChownSyscallPayload) (rest : list ChownSyscallPayload)
    (s : string) (err : error) :
  ReqMsg e = Some {| MsgType := t; Payload := PChownSyscall (p :: rest) |} ->
  ResolveProcSelf (Pid e) (Chown_Target p) w = (s, Some err) ->
  processChownSyscallRequest e w
  = (Returned
       (SetResponseMsg
          (Some {| MsgType := ChownSyscallResponse; Payload := PString EmptyString |}) e,
        None), w, []).
Proof.
  intros Hreq Hres. unfold processChownSyscallRequest.
  rewrite Hreq. cbn [chownLoop]. now rewrite Hres.
Qed.

(** The unmount batch has the same defect in another form: when a target
    cannot be resolved the function returns without a response message. *)
Lemma umount_unresolved_target_no_response
    (e : NSenterEvent) (w : World) (t : NSenterMsgType)
    (p : UmountSyscallPayload) (rest : list UmountSyscallPayload)
    (s : string) (err : error) :
  ReqMsg e = Some {| MsgType := t; Payload := PUmountSyscall (p :: rest) |} ->
  ResolveProcSelf (Pid e) (Umount_Target p) w = (s, Some err) ->
  processUmountSyscallRequest e w = (Returned (e, None), w, []).
Proof.
  intros Hreq Hres. unfold processUmountSyscallRequest.
  rewrite Hreq. cbn [umountLoop]. now rewrite Hres.
Qed.

(** A chown that the kernel refuses does give an ErrorResponse. *)
Lemma chown_refused_reports_error
    (e : NSenterEvent) (w w1 : World) (t : NSenterMsgType)
    (p : ChownSyscallPayload) (rest : list ChownSyscallPayload)
    (tgt : string) (err : error) :
  ReqMsg e = Some {| MsgType := t; Payload := PChownSyscall (p :: rest) |} ->
  ResolveProcSelf (Pid e) (Chown_Target p) w = (tgt, None) ->
  unix_Chown tgt (TargetUid p) (TargetGid p) w = (Some err, w1) ->
  processChownSyscallRequest e w
  = (Returned (SetResponseMsg (errorResponse err) e, None), w1,
     [SysChown tgt (TargetUid p) (TargetGid p)]).
Proof.
  intros Hreq Hres Hch. unfold processChownSyscallRequest.
  rewrite Hreq. cbn [chownLoop]. now rewrite Hres, Hch.
Qed.

End ChownBatch.

(** With no response message set, [Init] dereferences a nil pointer. *)
Example Init_panics_on_unresolved_umount :
  fst (fst (Init (pipeFor 4242
                    {| MsgType := UmountSyscallRequest;
                       Payload := PUmountSyscall [umountOf "proc/self/cwd"] |})
                 ([] : Scenario.World)))
  = Panicked.
Proof. reflexivity. Qed.

Lemma chown_unresolved_target_reports_success_witness :
  processChownSyscallRequest
    (agentEvent 4242 ChownSyscallRequest
       (PChownSyscall [chownOf "etc/passwd"; chownOf "/etc/group"]))
    ([] : Scenario.World)
  = (Returned
       (SetResponseMsg
          (Some {| MsgType := ChownSyscallResponse; Payload := PString EmptyString |})
          (agentEvent 4242 ChownSyscallRequest
             (PChownSyscall [chownOf "etc/passwd"; chownOf "/etc/group"])),
        None), [], []).
Proof.
  apply (chown_unresolved_target_reports_success
           (agentEvent 4242 ChownSyscallRequest
              (PChownSyscall [chownOf "etc/passwd"; chownOf "/etc/group"]))
           ([] : Scenario.World) ChownSyscallRequest
           (chownOf "etc/passwd") [chownOf "/etc/group"]
           EmptyString (ErrorString "path is not absolute.")).
  - reflexivity.
  - reflexivity.
Defined.

(** ** Path resolution *)

Section PathResolution.

Context {World : Type} `{Kernel World}.

Lemma MountCallOf_cons process p ps c :
  MountCallOf process ps c -> MountCallOf process (p :: ps) c.
Proof.
  intros (q & src & tgt & Hin & Hs & Ht & Hc).
  exists q, src, tgt. auto using in_cons.
Qed.

Lemma RollbackCallOf_cons process p ps c :
  RollbackCallOf process ps c -> RollbackCallOf process (p :: ps) c.
Proof.
  intros (q & tgt & Hin & Ht & Hc). exists q, tgt. auto using in_cons.
Qed.

Lemma mountLoop_resolved (process : Z) (payload : list MountSyscallPayload) :
  forall w mounted err w1 calls,
    mountLoop process payload w = (mounted, err, w1, calls) ->
    Forall (MountCallOf process payload) calls
    /\ Forall (fun m => RollbackCallOf process payload (rollbackCall m)) mounted.
Proof.
  induction payload as [|p ps IH]; intros w mounted err w1 calls Hloop.
  - inversion Hloop; subst. split; constructor.
  - cbn [mountLoop] in Hloop.
    destruct (ResolveProcSelf process (Source p) w) as [src [e1|]] eqn:Hs;
      [inversion Hloop; subst; split; constructor|].
    destruct (ResolveProcSelf process (Target p) w) as [tgt [e2|]] eqn:Ht;
      [inversion Hloop; subst; split; constructor|].
    assert (Hcall : MountCallOf process (p :: ps)
                      (SysMount src tgt (FsType p) (Flags p) (Data p))).
    { exists p, src, tgt. repeat split; [now left | now exists w | now exists w]. }
    destruct (unix_Mount src tgt (FsType p) (Flags p) (Data p) w) as [[e3|] w'] eqn:Hm.
    + inversion Hloop; subst. split; repeat constructor. exact Hcall.
    + destruct (mountLoop process ps w') as [[[mounted' err'] w2] calls'] eqn:Hrec.
      inversion Hloop; subst.
      destruct (IH _ _ _ _ _ Hrec) as [Hc Hm'].
      split; constructor; auto.
      * eapply List.Forall_impl; [|exact Hc]. intros c. apply MountCallOf_cons.
      * exists p, tgt. repeat split; [now left | now exists w].
      * eapply List.Forall_impl; [|exact Hm']. intros m. apply RollbackCallOf_cons.
Qed.

Lemma unmountAll_resolved (P : SysCall -> Prop) (l : list MountSyscallPayload) :
  forall w,
    Forall (fun m => P (rollbackCall m)) l ->
    Forall P (snd (unmountAll l w)).
Proof.
  intros w Hl. rewrite unmountAll_calls. cbn [snd].
  induction Hl as [|m l Hm Hl IH]; cbn [List.filter map]; [constructor|].
  destruct (notRemount m); cbn [map]; auto.
Qed.

Lemma umountLoop_resolved (process : Z) (payload : list UmountSyscallPayload) :
  forall w, Forall (UmountCallOf process payload)
                   (snd (umountLoop process payload w)).
Proof.
  induction payload as [|p ps IH]; intros w; cbn [umountLoop]; [constructor|].
  destruct (ResolveProcSelf process (Umount_Target p) w) as [tgt [err|]] eqn:Hr;
    [constructor|].
  assert (Hcall : UmountCallOf process (p :: ps) (SysUnmount tgt (Umount_Flags p))).
  { exists p, tgt. repeat split; [now left | now exists w]. }
  destruct (unix_Unmount tgt (Umount_Flags p) w) as [[err|] w1].
  - cbn. repeat constructor. exact Hcall.
  - specialize (IH w1).
    destruct (umountLoop process ps w1) as [[[err res] w2] calls].
    cbn in *. constructor; [exact Hcall|].
    eapply List.Forall_impl; [|exact IH].
    intros c (q & t & Hin & Ht & Hc). exists q, t. auto using in_cons.
Qed.

Lemma chownLoop_resolved (process : Z) (payload : list ChownSyscallPayload) :
  forall w, Forall (ChownCallOf process payload)
                   (snd (chownLoop process payload w)).
Proof.
  induction payload as [|p ps IH]; intros w; cbn [chownLoop]; [constructor|].
  destruct (ResolveProcSelf process (Chown_Target p) w) as [tgt [err|]] eqn:Hr;
    [constructor|].
  assert (Hcall : ChownCallOf process (p :: ps)
                    (SysChown tgt (TargetUid p) (TargetGid p))).
  { exists p, tgt. repeat split; [now left | now exists w]. }
  destruct (unix_Chown tgt (TargetUid p) (TargetGid p) w) as [[err|] w1].
  - cbn. repeat constructor. exact Hcall.
  - specialize (IH w1).
    destruct (chownLoop process ps w1) as [[err w2] calls].
    cbn in *. constructor; [exact Hcall|].
    eapply List.Forall_impl; [|exact IH].
    intros c (q & t & Hin & Ht & Hc). exists q, t. auto using in_cons.
Qed.

(** C5, as the code has it. In a mount, unmount or chown batch every
    path handed to a system call is the result of ResolveProcSelf, of the
    process of the caller, on the path of an entry of the batch.  Lookup,
    OpenFile, ReadFile, WriteFile and ReadDir hand the path of the
    request to the system call as it is. *)
Theorem batch_paths_resolved_others_verbatim
    (e : NSenterEvent) (w : World) (t : NSenterMsgType) :
  (forall payload,
      ReqMsg e = Some {| MsgType := t; Payload := PMountSyscall payload |} ->
      Forall (fun c => MountCallOf (Pid e) payload c
                       \/ RollbackCallOf (Pid e) payload c
                       \/ exists u g r d caps, c = SysAdjustPersonality u g r d caps)
             (snd (processMountSyscallRequest e w)))
  /\ (forall payload,
         ReqMsg e = Some {| MsgType := t; Payload := PUmountSyscall payload |} ->
         Forall (UmountCallOf (Pid e) payload)
                (snd (processUmountSyscallRequest e w)))
  /\ (forall payload,
         ReqMsg e = Some {| MsgType := t; Payload := PChownSyscall payload |} ->
         Forall (ChownCallOf (Pid e) payload)
                (snd (processChownSyscallRequest e w)))
  /\ (forall payload,
         ReqMsg e = Some {| MsgType := t; Payload := PLookup payload |} ->
         snd (processLookupRequest e w) = [SysStat (Entry payload)])
  /\ (forall payload,
         ReqMsg e = Some {| MsgType := t; Payload := POpenFile payload |} ->
         Forall (fun c => (exists flags mode,
                              c = SysOpenFile (OpenFile_File payload) flags mode)
                          \/ c = SysClose (OpenFile_File payload))
                (snd (processOpenFileRequest e w)))
  /\ (forall payload,
         ReqMsg e = Some {| MsgType := t; Payload := PReadFile payload |} ->
         snd (processFileReadRequest e w) = [SysReadFile (ReadFile_File payload)])
  /\ (forall payload,
         ReqMsg e = Some {| MsgType := t; Payload := PWriteFile payload |} ->
         snd (processFileWriteRequest e w)
         = [SysWriteFile (WriteFile_File payload) (WriteFile_Content payload) 420])
  /\ (forall payload,
         ReqMsg e = Some {| MsgType := t; Payload := PReadDir payload |} ->
         snd (processDirReadRequest e w) = [SysReadDir (Dir payload)]).
Proof.
  repeat split; intros payload Hreq.
  - unfold processMountSyscallRequest. rewrite Hreq.
    destruct payload as [|p0 rest]; [constructor|].
    set (payload := p0 :: rest).
    set (adj := SysAdjustPersonality _ _ _ _ _).
    assert (Hadj : MountCallOf (Pid e) payload adj
                   \/ RollbackCallOf (Pid e) payload adj
                   \/ exists u g r d caps, adj = SysAdjustPersonality u g r d caps)
      by (right; right; subst adj; eauto 10).
    destruct (String.eqb (FsType p0) "overlay").
    + destruct (AdjustPersonality _ _ _ _ _ w) as [[perr|] w0];
        [cbn; constructor; [exact Hadj | constructor]|].
      destruct (mountLoop (Pid e) payload w0) as [[[mounted err] w1] calls] eqn:Hl.
      destruct (mountLoop_resolved _ _ _ _ _ _ _ Hl) as [Hc Hm].
      destruct err as [err|].
      * pose proof (unmountAll_resolved (RollbackCallOf (Pid e) payload)
                      (rev mounted) w1 (List.Forall_rev Hm)) as Hu.
        destruct (unmountAll (rev mounted) w1) as [w2 ucalls]. cbn in *.
        constructor; [exact Hadj|]. apply List.Forall_app. split.
        -- eapply List.Forall_impl; [|exact Hc]. tauto.
        -- eapply List.Forall_impl; [|exact Hu]. tauto.
      * cbn. constructor; [exact Hadj|]. eapply List.Forall_impl; [|exact Hc]. tauto.
    + destruct (mountLoop (Pid e) payload w) as [[[mounted err] w1] calls] eqn:Hl.
      destruct (mountLoop_resolved _ _ _ _ _ _ _ Hl) as [Hc Hm].
      destruct err as [err|].
      * pose proof (unmountAll_resolved (RollbackCallOf (Pid e) payload)
                      (rev mounted) w1 (List.Forall_rev Hm)) as Hu.
        destruct (unmountAll (rev mounted) w1) as [w2 ucalls]. cbn in *.
        apply List.Forall_app. split.
        -- eapply List.Forall_impl; [|exact Hc]. tauto.
        -- eapply List.Forall_impl; [|exact Hu]. tauto.
      * cbn. eapply List.Forall_impl; [|exact Hc]. tauto.
  - unfold processUmountSyscallRequest. rewrite Hreq.
    pose proof (umountLoop_resolved (Pid e) payload w) as Hu.
    destruct (umountLoop (Pid e) payload w) as [[[err res] w1] calls].
    destruct err; exact Hu.
  - unfold processChownSyscallRequest. rewrite Hreq.
    pose proof (chownLoop_resolved (Pid e) payload w) as Hu.
    destruct (chownLoop (Pid e) payload w) as [[err w1] calls].
    destruct err; exact Hu.
  - unfold processLookupRequest. rewrite Hreq.
    now destruct (os_Stat (Entry payload) w).
  - unfold processOpenFileRequest. rewrite Hreq.
    destruct (Atoi (OpenFile_Flags payload)) as [flags|]; [|constructor].
    destruct (Atoi (OpenFile_Mode payload)) as [mode|]; [|constructor].
    destruct (os_OpenFile (OpenFile_File payload) flags mode w) as [[err|] w1]; cbn.
    + constructor; [left; eauto | constructor].
    + constructor; [left; eauto |]. constructor; [now right | constructor].
  - unfold processFileReadRequest. rewrite Hreq.
    now destruct (ioutil_ReadFile (ReadFile_File payload) w).
  - unfold processFileWriteRequest. rewrite Hreq.
    now destruct (ioutil_WriteFile _ _ 420 w) as [[err|] w1].
  - unfold processDirReadRequest. rewrite Hreq.
    now destruct (ioutil_ReadDir (Dir payload) w).
Qed.

End PathResolution.

Lemma batch_paths_resolved_others_verbatim_witness :
  Forall (fun c => MountCallOf (World := Scenario.World) 4242
                     [bindMount "/proc/self/cwd" "/m1"; bindMount "/bogus" "/m2"] c
                   \/ RollbackCallOf (World := Scenario.World) 4242
                        [bindMount "/proc/self/cwd" "/m1"; bindMount "/bogus" "/m2"] c
                   \/ exists u g r d caps, c = SysAdjustPersonality u g r d caps)
         (snd (processMountSyscallRequest
                 (agentEvent 4242 MountSyscallRequest
                    (PMountSyscall [bindMount "/proc/self/cwd" "/m1";
                                    bindMount "/bogus" "/m2"]))
                 ([] : Scenario.World)))
  /\ Forall (UmountCallOf (World := Scenario.World) 4242 [umountOf "/proc/self/cwd"])
            (snd (processUmountSyscallRequest
                    (agentEvent 4242 UmountSyscallRequest
                       (PUmountSyscall [umountOf "/proc/self/cwd"]))
                    ([] : Scenario.World)))
  /\ Forall (ChownCallOf (World := Scenario.World) 4242 [chownOf "/proc/self/cwd"])
            (snd (processChownSyscallRequest
                    (agentEvent 4242 ChownSyscallRequest
                       (PChownSyscall [chownOf "/proc/self/cwd"]))
                    ([] : Scenario.World)))
  /\ snd (processLookupRequest
            (agentEvent 4242 LookupRequest (PLookup {| Entry := "/proc/self/status" |}))
            ([] : Scenario.World))
     = [SysStat "/proc/self/status"]
  /\ snd (processFileReadRequest
            (agentEvent 4242 ReadFileRequest
               (PReadFile {| ReadFile_File := "/proc/self/status" |}))
            ([] : Scenario.World))
     = [SysReadFile "/proc/self/status"]
  /\ snd (processFileWriteRequest
            (agentEvent 4242 WriteFileRequest
               (PWriteFile {| WriteFile_File := "/proc/self/oom_score_adj";
                              WriteFile_Content := "0" |}))
            ([] : Scenario.World))
     = [SysWriteFile "/proc/self/oom_score_adj" "0" 420]
  /\ snd (processDirReadRequest
            (agentEvent 4242 ReadDirRequest (PReadDir {| Dir := "/proc/self/fd" |}))
            ([] : Scenario.World))
     = [SysReadDir "/proc/self/fd"]
  /\ Forall (fun c => (exists flags mode, c = SysOpenFile "/proc/self/status" flags mode)
                      \/ c = SysClose "/proc/self/status")
            (snd (processOpenFileRequest
                    (agentEvent 4242 OpenFileRequest
                       (POpenFile {| OpenFile_File := "/proc/self/status";
                                     OpenFile_Flags := "0"; OpenFile_Mode := "0" |}))
                    ([] : Scenario.World))).
Proof.
  refine (conj _ (conj _ (conj _ (conj _ (conj _ (conj _ (conj _ _))))))).
  - exact (proj1 (batch_paths_resolved_others_verbatim
                    (agentEvent 4242 MountSyscallRequest
                       (PMountSyscall [bindMount "/proc/self/cwd" "/m1";
                                       bindMount "/bogus" "/m2"]))
                    ([] : Scenario.World) MountSyscallRequest) _ eq_refl).
  - exact (proj1 (proj2 (batch_paths_resolved_others_verbatim
                    (agentEvent 4242 UmountSyscallRequest
                       (PUmountSyscall [umountOf "/proc/self/cwd"]))
                    ([] : Scenario.World) UmountSyscallRequest)) _ eq_refl).
  - exact (proj1 (proj2 (proj2 (batch_paths_resolved_others_verbatim
                    (agentEvent 4242 ChownSyscallRequest
                       (PChownSyscall [chownOf "/proc/self/cwd"]))
                    ([] : Scenario.World) ChownSyscallRequest))) _ eq_refl).
  - exact (proj1 (proj2 (proj2 (proj2 (batch_paths_resolved_others_verbatim
                    (agentEvent 4242 LookupRequest
                       (PLookup {| Entry := "/proc/self/status" |}))
                    ([] : Scenario.World) LookupRequest)))) _ eq_refl).
  - exact (proj1 (proj2 (proj2 (proj2 (proj2 (proj2
             (batch_paths_resolved_others_verbatim
                (agentEvent 4242 ReadFileRequest
                   (PReadFile {| ReadFile_File := "/proc/self/status" |}))
                ([] : Scenario.World) ReadFileRequest)))))) _ eq_refl).
  - exact (proj1 (proj2 (proj2 (proj2 (proj2 (proj2 (proj2
             (batch_paths_resolved_others_verbatim
                (agentEvent 4242 WriteFileRequest
                   (PWriteFile {| WriteFile_File := "/proc/self/oom_score_adj";
                                  WriteFile_Content := "0" |}))
                ([] : Scenario.World) WriteFileRequest))))))) _ eq_refl).
  - exact (proj2 (proj2 (proj2 (proj2 (proj2 (proj2 (proj2
             (batch_paths_resolved_others_verbatim
                (agentEvent 4242 ReadDirRequest (PReadDir {| Dir := "/proc/self/fd" |}))
                ([] : Scenario.World) ReadDirRequest))))))) _ eq_refl).
  - exact (proj1 (proj2 (proj2 (proj2 (proj2
             (batch_paths_resolved_others_verbatim
                (agentEvent 4242 OpenFileRequest
                   (POpenFile {| OpenFile_File := "/proc/self/status";
                                 OpenFile_Flags := "0"; OpenFile_Mode := "0" |}))
                ([] : Scenario.World) OpenFileRequest))))) _ eq_refl).
Defined.

(** C5, as the claim has it, fails: Lookup on behalf of process 4242
    stats "/proc/self/status" as it is, where the caller's view of the
    path is "/proc/4242/status". *)
Lemma lookup_does_not_resolve_proc_self :
  snd (processLookupRequest
         (agentEvent 4242 LookupRequest (PLookup {| Entry := "/proc/self/status" |}))
         ([] : Scenario.World))
  = [SysStat "/proc/self/status"]
  /\ ResolveProcSelf 4242 "/proc/self/status" ([] : Scenario.World)
     = ("/proc/4242/status", None)
  /\ ~ LookupResolvesProcSelf (World := Scenario.World).
Proof.
  split; [reflexivity|]. split; [reflexivity|].
  intros Hres.
  specialize (Hres (agentEvent 4242 LookupRequest
                      (PLookup {| Entry := "/proc/self/status" |}))
                   LookupRequest {| Entry := "/proc/self/status" |} [] eq_refl).
  vm_compute in Hres. discriminate Hres.
Qed.

(** ** The master and the reaper *)

Section Master.

Context `{JsonCodec FileInfo} `{JsonCodec MountInfoRespPayload}
        `{JsonCodec MountInodeRespPayload} `{JsonCodec IOerror}.

(** C3, at an input where the code departs from it. When the socket
    pair is created and SO_PASSCRED cannot be set on it, SendRequest
    returns after nsenterStarted() without a call to nsenterEnded(). *)
Theorem SendRequest_setsockopt_failure_leaves_started
    (env : MasterEnv) (e : NSenterEvent) (err : error) :
  m_NewSockPair env = None ->
  m_SetsockoptInt env = Some err ->
  SendRequest env e
  = (Returned
       (setParentPipe true e,
        Some (ErrorString "Error setting socket options on nsenter pipe")),
     [nsenterStarted; NewSockPair; SetsockoptInt])
  /\ started (snd (SendRequest env e)) = 1%nat
  /\ ended (snd (SendRequest env e)) = 0%nat.
Proof.
  intros Hpair Hopt.
  assert (Hrun : SendRequest env e
                 = (Returned
                      (setParentPipe true e,
                       Some (ErrorString "Error setting socket options on nsenter pipe")),
                    [nsenterStarted; NewSockPair; SetsockoptInt])).
  { unfold SendRequest. rewrite Hpair, Hopt. reflexivity. }
  rewrite Hrun. repeat split.
Qed.

(** The same happens when the credentials cannot be sent: the reaper is
    asked to reap, and nsenterEnded() is not called. *)
Lemma SendRequest_sendmsg_failure_leaves_started
    (env : MasterEnv) (e : NSenterEvent) (err : error) (p : pid) :
  m_NewSockPair env = None -> m_SetsockoptInt env = None ->
  m_cmdStart env = None -> m_ioCopy env = None -> m_Wait env = inl true ->
  m_decodePid env = inl p -> (forall q, m_FindProcess env q = None) ->
  m_Sendmsg env = Some err ->
  started (snd (SendRequest env e)) = 1%nat
  /\ ended (snd (SendRequest env e)) = 0%nat.
Proof.
  intros Hpair Hopt Hstart Hcopy Hwait Hpid Hfind Hmsg.
  unfold SendRequest. rewrite Hpair, Hopt, Hstart, Hcopy, Hwait, Hpid. cbn.
  rewrite !Hfind, Hmsg. cbn. split; reflexivity.
Qed.

(** On every other path of a synchronous request that does not panic,
    nsenterStarted() is matched by one nsenterEnded(). *)
Lemma SendRequest_sync_balanced (env : MasterEnv) (e : NSenterEvent) :
  m_SetsockoptInt env = None \/ m_NewSockPair env <> None ->
  m_Sendmsg env = None ->
  ReqMsg e <> None ->
  async e = false ->
  started (snd (SendRequest env e)) = 1%nat
  /\ ended (snd (SendRequest env e)) = 1%nat.
Proof.
  intros Hopt Hmsg Hreq Hsync.
  unfold SendRequest.
  destruct (m_NewSockPair env) eqn:Hpair; [split; reflexivity|].
  destruct Hopt as [Hopt | Hopt]; [|congruence]. rewrite Hopt.
  destruct (m_cmdStart env); [split; reflexivity|].
  destruct (m_ioCopy env); [split; reflexivity|].
  destruct (m_Wait env) as [[|]|]; try (split; reflexivity).
  destruct (m_decodePid env) as [p|]; [|split; reflexivity].
  cbn.
  destruct (m_FindProcess env (pid_PidFirstChild p)); [split; reflexivity|].
  destruct (m_FindProcess env (pid_Pid p)); [split; reflexivity|].
  cbn. rewrite Hmsg.
  destruct (ReqMsg e) as [reqMsg|]; [|congruence].
  destruct (m_Marshal env); [split; reflexivity|].
  destruct (m_Write env); [split; reflexivity|].
  cbn. rewrite Hsync. cbn.
  destruct (processResponse _ (m_response env)) as [e' [ierr|]]; split; reflexivity.
Qed.

(** What a call of SendRequest that returns no error has done. *)
Lemma SendRequest_success (env : MasterEnv) (e e' : NSenterEvent)
    (acts : list MasterAction) :
  SendRequest env e = (Returned (e', None), acts) ->
  exists p reqMsg rest,
    m_decodePid env = inl p
    /\ ReqMsg e = Some reqMsg
    /\ Process e' = Some (pid_Pid p)
    /\ acts = [nsenterStarted; NewSockPair; SetsockoptInt; CmdStart; CloseChildPipe;
               CopyConfig; WaitFirstChild; DecodePid;
               FindProcess (pid_PidFirstChild p); WaitProcess (pid_PidFirstChild p);
               FindProcess (pid_Pid p);
               Sendmsg {| Ucred_Pid := int32 (Pid e); Ucred_Uid := 0; Ucred_Gid := 0 |};
               WritePipe (marshalMessage reqMsg)] ++ rest
    /\ rest = (if async e then []
               else [ReadResponse; Shutdown; WaitProcess (pid_Pid p); nsenterEnded]).
Proof.
  unfold SendRequest.
  destruct (m_NewSockPair env); [discriminate|].
  destruct (m_SetsockoptInt env); [discriminate|].
  destruct (m_cmdStart env); [discriminate|].
  destruct (m_ioCopy env); [discriminate|].
  destruct (m_Wait env) as [[|]|]; try discriminate.
  destruct (m_decodePid env) as [p|]; [|discriminate].
  cbn.
  destruct (m_FindProcess env (pid_PidFirstChild p)); [discriminate|].
  destruct (m_FindProcess env (pid_Pid p)); [discriminate|].
  cbn.
  destruct (m_Sendmsg env); [discriminate|].
  destruct (ReqMsg e) as [reqMsg|] eqn:Hreq; [|discriminate].
  destruct (m_Marshal env); [discriminate|].
  destruct (m_Write env); [discriminate|].
  cbn.
  destruct (async e) eqn:Hasync; cbn.
  - intros Hrun. inversion Hrun; subst. exists p, reqMsg, []. repeat split.
  - destruct (processResponse _ (m_response env)) as [e1 [ierr|]] eqn:Hresp;
      cbn; [discriminate|].
    intros Hrun. inversion Hrun; subst.
    exists p, reqMsg, [ReadResponse; Shutdown; WaitProcess (pid_Pid p); nsenterEnded].
    repeat split.
    unfold processResponse, decodePayload, emptyPayload in Hresp.
    repeat match type of Hresp with
           | context [match ?x with _ => _ end] => destruct x
           end;
      inversion Hresp; reflexivity.
Qed.

(** An asynchronous request that was sent is closed by TerminateRequest,
    with one nsenterEnded() on each of its paths. *)
Lemma async_then_terminate_balanced (env env' : MasterEnv) (e e' : NSenterEvent)
    (acts : list MasterAction) :
  async e = true ->
  SendRequest env e = (Returned (e', None), acts) ->
  started (acts ++ snd (TerminateRequest env' e')) = 1%nat
  /\ ended (acts ++ snd (TerminateRequest env' e')) = 1%nat.
Proof.
  intros Hasync Hrun.
  destruct (SendRequest_success _ _ _ _ Hrun)
    as (p & reqMsg & rest & _ & _ & Hproc & Hacts & Hrest).
  rewrite Hasync in Hrest. subst rest acts.
  unfold TerminateRequest. rewrite Hproc.
  destruct (m_Shutdown env'); [split; reflexivity|].
  destruct (m_Kill env'); split; reflexivity.
Qed.

End Master.

Lemma SendRequest_setsockopt_failure_leaves_started_witness :
  SendRequest
    (withSetsockopt (Some (Errno 1)) (allGood 9001 9000 (inr (ErrorString "EOF"))))
    (masterEvent 4242 {| MsgType := SleepRequest; Payload := PSleepReq {| Ival := "1" |} |}
       false)
  = (Returned
       (setParentPipe true
          (masterEvent 4242
             {| MsgType := SleepRequest; Payload := PSleepReq {| Ival := "1" |} |} false),
        Some (ErrorString "Error setting socket options on nsenter pipe")),
     [nsenterStarted; NewSockPair; SetsockoptInt]).
Proof.
  apply (SendRequest_setsockopt_failure_leaves_started
           (withSetsockopt (Some (Errno 1)) (allGood 9001 9000 (inr (ErrorString "EOF"))))
           (masterEvent 4242
              {| MsgType := SleepRequest; Payload := PSleepReq {| Ival := "1" |} |} false)
           (Errno 1)).
  - reflexivity.
  - reflexivity.
Defined.

(** ** The caller's credentials *)

Lemma uint32_int32 (p : Z) : 0 <= p < 2 ^ 32 -> uint32 (int32 p) = p.
Proof.
  intros Hp. unfold uint32, int32.
  rewrite Zminus_mod_idemp_l.
  replace (p + 2 ^ 31 - 2 ^ 31) with p by lia.
  now apply Z.mod_small.
Qed.

Section Credentials.

Context {World : Type} `{Kernel World}.
Context `{JsonCodec FileInfo} `{JsonCodec MountInfoRespPayload}
        `{JsonCodec MountInodeRespPayload} `{JsonCodec IOerror}.

Ltac crunch :=
  repeat match goal with
         | |- context [match ?x with _ => _ end] => destruct x eqn:?
         end.

Lemma getProcCreds_sets_pid (agent : NSenterEvent) (pipe : AgentPipe) (cred : Ucred) :
  pipe_setsockopt pipe = None ->
  pipe_recvmsg pipe = RecvMsgs [ScmCredentials cred] ->
  getProcCreds agent pipe = (setPid (uint32 (Ucred_Pid cred)) agent, None).
Proof.
  intros Hopt Hrecv. unfold getProcCreds. now rewrite Hopt, Hrecv.
Qed.

(** The event that processRequest leaves carries the process id that
    getProcCreds has put into it. *)
Lemma processRequest_keeps_pid (agent ev ev1 : NSenterEvent) (pipe : AgentPipe)
    (w w' : World) (err : option error) (calls : list SysCall) :
  getProcCreds agent pipe = (ev1, None) ->
  processRequest agent pipe w = (Returned (ev, err), w', calls) ->
  Pid ev = Pid ev1.
Proof.
  intros Hcreds. unfold processRequest. rewrite Hcreds.
  destruct (pipe_request pipe) as [req|];
    [|intros Hr; inversion Hr; reflexivity].
  destruct (env_Type req);
    unfold decodeAndRun, processLookupRequest, processOpenFileRequest,
      processFileReadRequest, processFileWriteRequest, processDirReadRequest,
      processMountSyscallRequest, processUmountSyscallRequest,
      processChownSyscallRequest, processMountInfoRequest,
      processMountInodeRequest, processSleepRequest;
    cbn [withRequest SetRequestMsg ReqMsg Payload];
    crunch; intros Hr; inversion Hr; subst; try reflexivity.
Qed.

(** C7. When SendRequest goes through for a caller with process id [p],
    the credentials are sent after the grand-child has been found, they
    carry [p] whatever the process id of the grand-child is, and
    getProcCreds, on receiving them, sets the [Pid] field of the agent's
    event to [p]; the event still carries [p] when processRequest is
    done, and the mount, unmount and chown batches run with it. *)
Theorem caller_pid_reaches_agent
    (env : MasterEnv) (e e' : NSenterEvent) (acts : list MasterAction) :
  0 <= Pid e < 2 ^ 32 ->
  SendRequest env e = (Returned (e', None), acts) ->
  exists (grandChild : pid) (pre post : list MasterAction),
    m_decodePid env = inl grandChild
    /\ acts = pre ++ Sendmsg {| Ucred_Pid := int32 (Pid e);
                                Ucred_Uid := 0; Ucred_Gid := 0 |} :: post
    /\ In (FindProcess (pid_Pid grandChild)) pre
    /\ forall (agent : NSenterEvent) (pipe : AgentPipe) (uid gid : Z),
         pipe_setsockopt pipe = None ->
         pipe_recvmsg pipe
         = RecvMsgs [ScmCredentials {| Ucred_Pid := int32 (Pid e);
                                       Ucred_Uid := uid; Ucred_Gid := gid |}] ->
         getProcCreds agent pipe = (setPid (Pid e) agent, None)
         /\ (forall (w w' : World) ev err calls,
                processRequest agent pipe w = (Returned (ev, err), w', calls) ->
                Pid ev = Pid e)
         /\ (forall (w : World) req l,
                pipe_request pipe = inl req ->
                unmarshalInto [] (env_Payload req) = inl l ->
                (env_Type req = MountSyscallRequest ->
                 processRequest agent pipe w
                 = processMountSyscallRequest
                     (withRequest MountSyscallRequest (PMountSyscall l)
                        (setPid (Pid e) agent)) w))
         /\ (forall (w : World) req l,
                pipe_request pipe = inl req ->
                unmarshalInto [] (env_Payload req) = inl l ->
                (env_Type req = UmountSyscallRequest ->
                 processRequest agent pipe w
                 = processUmountSyscallRequest
                     (withRequest UmountSyscallRequest (PUmountSyscall l)
                        (setPid (Pid e) agent)) w))
         /\ (forall (w : World) req l,
                pipe_request pipe = inl req ->
                unmarshalInto [] (env_Payload req) = inl l ->
                (env_Type req = ChownSyscallRequest ->
                 processRequest agent pipe w
                 = processChownSyscallRequest
                     (withRequest ChownSyscallRequest (PChownSyscall l)
                        (setPid (Pid e) agent)) w)).
Proof.
  intros Hp Hrun.
  destruct (SendRequest_success _ _ _ _ Hrun)
    as (p & reqMsg & rest & Hdec & _ & _ & Hacts & _).
  exists p.
  exists [nsenterStarted; NewSockPair; SetsockoptInt; CmdStart; CloseChildPipe;
          CopyConfig; WaitFirstChild; DecodePid;
          FindProcess (pid_PidFirstChild p); WaitProcess (pid_PidFirstChild p);
          FindProcess (pid_Pid p)].
  exists (WritePipe (marshalMessage reqMsg) :: rest).
  split; [exact Hdec|]. split; [exact Hacts|]. split; [cbn; tauto|].
  intros agent pipe uid gid Hopt Hrecv.
  assert (Hcreds : getProcCreds agent pipe = (setPid (Pid e) agent, None)).
  { rewrite (getProcCreds_sets_pid _ _ _ Hopt Hrecv). cbn [Ucred_Pid].
    now rewrite uint32_int32. }
  split; [exact Hcreds|]. split; [|split; [|split]].
  - intros w w' ev err calls Hr.
    now rewrite (processRequest_keeps_pid _ _ _ _ _ _ _ _ Hcreds Hr).
  - intros w req l Hreq Hl Ht. unfold processRequest.
    rewrite Hcreds, Hreq, Ht. unfold decodeAndRun. now rewrite Hl.
  - intros w req l Hreq Hl Ht. unfold processRequest.
    rewrite Hcreds, Hreq, Ht. unfold decodeAndRun. now rewrite Hl.
  - intros w req l Hreq Hl Ht. unfold processRequest.
    rewrite Hcreds, Hreq, Ht. unfold decodeAndRun. now rewrite Hl.
Qed.

End Credentials.

Lemma caller_pid_reaches_agent_witness :
  exists (grandChild : pid) (pre post : list MasterAction),
    pid_Pid grandChild = 9001
    /\ snd (SendRequest
              (allGood 9001 9000
                 (inl {| env_Type := SleepResponse; env_Payload := JString EmptyString |}))
              (masterEvent 4242
                 {| MsgType := SleepRequest; Payload := PSleepReq {| Ival := "1" |} |}
                 false))
       = pre ++ Sendmsg {| Ucred_Pid := 4242; Ucred_Uid := 0; Ucred_Gid := 0 |} :: post
    /\ In (FindProcess 9001) pre
    /\ getProcCreds newAgentEvent
         {| pipe_setsockopt := None;
            pipe_recvmsg := RecvMsgs [ScmCredentials {| Ucred_Pid := 4242;
                                                        Ucred_Uid := 0; Ucred_Gid := 0 |}];
            pipe_request := inr (ErrorString "EOF");
            pipe_write := None |}
       = (setPid 4242 newAgentEvent, None).
Proof.
  destruct (caller_pid_reaches_agent (World := Scenario.World)
              (allGood 9001 9000
                 (inl {| env_Type := SleepResponse; env_Payload := JString EmptyString |}))
              (masterEvent 4242
                 {| MsgType := SleepRequest; Payload := PSleepReq {| Ival := "1" |} |}
                 false)
              _ _ ltac:(cbn; lia) eq_refl)
    as (g & pre & post & Hdec & Hacts & Hin & Hagent).
  assert (Hg : g = {| pid_Pid := 9001; pid_PidFirstChild := 9000 |})
    by (cbn in Hdec; congruence).
  subst g.
  exists {| pid_Pid := 9001; pid_PidFirstChild := 9000 |}, pre, post.
  split; [reflexivity|].
  split; [exact Hacts|].
  split; [exact Hin|].
  exact (proj1 (Hagent newAgentEvent
                  {| pipe_setsockopt := None;
                     pipe_recvmsg :=
                       RecvMsgs [ScmCredentials {| Ucred_Pid := 4242;
                                                   Ucred_Uid := 0; Ucred_Gid := 0 |}];
                     pipe_request := inr (ErrorString "EOF");
                     pipe_write := None |} 0 0 eq_refl eq_refl)).
Defined.

(** ** The /proc/sys/net/unix handler *)

Lemma append_each {A : Type} (l acc : list A) :
  fold_left (fun acc entry => acc ++ [entry]) l acc = acc ++ l.
Proof.
  revert acc. induction l as [|x l IH]; intros acc; cbn [fold_left].
  - now rewrite app_nil_r.
  - rewrite IH. now rewrite <- app_assoc.
Qed.

(** C10. ReadDirAll never hands on an error of the /proc/sys/ handler:
    when the delegated ReadDirAll fails, the handler returns no entries
    and a nil error; when it succeeds, its entries; the handler returns an
    error only when "/proc/sys/" is not in the registry. *)
Theorem ReadDirAll_swallows_delegate_error
    (h : HandlerBase) (n : IOnode) (req : HandlerRequest) :
  (forall common err,
      FindHandler (Service h) "/proc/sys/" = Some common ->
      dir_err (h_ReadDirAll common n req) = Some err ->
      dir_entries (ReadDirAll h n req) = [] /\ dir_err (ReadDirAll h n req) = None)
  /\ (forall common,
         FindHandler (Service h) "/proc/sys/" = Some common ->
         dir_err (h_ReadDirAll common n req) = None ->
         dir_entries (ReadDirAll h n req) = dir_entries (h_ReadDirAll common n req)
         /\ dir_err (ReadDirAll h n req) = None)
  /\ (dir_err (ReadDirAll h n req) <> None <->
      FindHandler (Service h) "/proc/sys/" = None).
Proof.
  unfold ReadDirAll. split; [|split; [|split]].
  - intros common err Hfind Herr. rewrite Hfind. cbn. now rewrite Herr.
  - intros common Hfind Herr. rewrite Hfind. cbn. rewrite Herr.
    split; [apply append_each | reflexivity].
  - destruct (FindHandler (Service h) "/proc/sys/"); cbn; [congruence | reflexivity].
  - intros ->. cbn. discriminate.
Qed.

Lemma ReadDirAll_swallows_delegate_error_witness :
  (dir_entries (ReadDirAll (ProcSysNetUnix_Handler (registry (Some failingCommon)))
                  unixDir (readAt 0)) = []
   /\ dir_err (ReadDirAll (ProcSysNetUnix_Handler (registry (Some failingCommon)))
                 unixDir (readAt 0)) = None)
  /\ (dir_entries (ReadDirAll (ProcSysNetUnix_Handler (registry (Some workingCommon)))
                     unixDir (readAt 0)) = [statOf "max_dgram_qlen"]
      /\ dir_err (ReadDirAll (ProcSysNetUnix_Handler (registry (Some workingCommon)))
                    unixDir (readAt 0)) = None).
Proof.
  split.
  - exact (proj1 (ReadDirAll_swallows_delegate_error
                    (ProcSysNetUnix_Handler (registry (Some failingCommon)))
                    unixDir (readAt 0))
             failingCommon ENOENT eq_refl eq_refl).
  - exact (proj1 (proj2 (ReadDirAll_swallows_delegate_error
                           (ProcSysNetUnix_Handler (registry (Some workingCommon)))
                           unixDir (readAt 0)))
             workingCommon eq_refl eq_refl).
Defined.

Section ReadHandler.

Variable nsx : AgentOp -> NSenterMessage + error.

(** The handler reads the emulated file itself exactly when the offset is
    not above zero and the node is max_dgram_qlen. *)
Lemma Read_cases (h : HandlerBase) (n : IOnode) (req : HandlerRequest) :
  Read nsx h n req
  = if Offset req >? 0 then
      {| read_n := 0; read_err := Some io_EOF; read_Data := req_Data req;
         read_ops := [] |}
    else if String.eqb (node_Name n) "max_dgram_qlen" then readFileInt nsx h n req
    else match FindHandler (Service h) "/proc/sys/" with
         | None =>
             {| read_n := 0; read_err := Some (ErrorString "No /proc/sys/ handler found");
                read_Data := req_Data req; read_ops := [] |}
         | Some common => h_Read common n req
         end.
Proof. reflexivity. Qed.

(** C9. A Read at an offset above zero returns 0 bytes and EOF and
    issues no agent operation.  A Read at offset 0 of max_dgram_qlen
    issues one ReadFile agent operation, on the path of the node and on
    behalf of the caller, and returns the content the agent read, trimmed.
    A Read at offset 0 of another node issues no agent operation of its
    own: it is the Read of the /proc/sys/ handler, or an error when that
    handler is not registered. *)
Theorem Read_offset_gate (h : HandlerBase) (n : IOnode) (req : HandlerRequest) :
  (Offset req > 0 ->
   Read nsx h n req
   = {| read_n := 0; read_err := Some io_EOF; read_Data := req_Data req;
        read_ops := [] |})
  /\ (Offset req = 0 -> node_Name n = "max_dgram_qlen" ->
      read_ops (Read nsx h n req) = [readFileOp n req]
      /\ forall (World : Type) (K : Kernel World) (agent ev : NSenterEvent)
                (w w' : World) (calls : list SysCall) (content : string),
           ReqMsg agent = Some (op_Request (readFileOp n req)) ->
           ioutil_ReadFile (node_Path n) w = inl content ->
           processFileReadRequest agent w = (Returned (ev, None), w', calls) ->
           (forall m, ResMsg ev = Some m -> nsx (readFileOp n req) = inl m) ->
           Read nsx h n req
           = {| read_n := Z.of_nat (String.length (TrimSpace content));
                read_err := None; read_Data := TrimSpace content;
                read_ops := [readFileOp n req] |})
  /\ (Offset req = 0 -> node_Name n <> "max_dgram_qlen" ->
      Read nsx h n req
      = match FindHandler (Service h) "/proc/sys/" with
        | None =>
            {| read_n := 0; read_err := Some (ErrorString "No /proc/sys/ handler found");
               read_Data := req_Data req; read_ops := [] |}
        | Some common => h_Read common n req
        end).
Proof.
  rewrite Read_cases. split; [|split].
  - intros Hoff. apply Z.gtb_gt in Hoff. now rewrite Hoff.
  - intros Hoff Hname. rewrite Hoff, Hname. cbn [Z.gtb Z.compare String.eqb].
    replace ("max_dgram_qlen" =? "max_dgram_qlen")%string with true by reflexivity.
    split.
    + unfold readFileInt. fold (readFileOp n req).
      destruct (nsx (readFileOp n req)) as [[[] []]|]; try reflexivity.
      destruct e as [[?|]]; reflexivity.
    + intros World K agent ev w w' calls content Hreq Hcontent Hrun Hnsx.
      unfold processFileReadRequest in Hrun. rewrite Hreq in Hrun.
      cbn [op_Request readFileOp Payload ReadFile_File] in Hrun.
      rewrite Hcontent in Hrun. inversion Hrun; subst.
      unfold readFileInt. fold (readFileOp n req).
      now rewrite (Hnsx _ eq_refl).
  - intros Hoff Hname. rewrite Hoff. cbn [Z.gtb Z.compare].
    apply String.eqb_neq in Hname. now rewrite Hname.
Qed.

End ReadHandler.

Lemma Read_offset_gate_witness :
  Read (nsx []) (ProcSysNetUnix_Handler (registry (Some workingCommon)))
    max_dgram_qlen (readAt 4096)
  = {| read_n := 0; read_err := Some io_EOF; read_Data := EmptyString; read_ops := [] |}
  /\ Read (nsx []) (ProcSysNetUnix_Handler (registry (Some workingCommon)))
       max_dgram_qlen (readAt 0)
     = {| read_n := 3; read_err := None; read_Data := "512";
          read_ops := [readFileOp max_dgram_qlen (readAt 0)] |}
  /\ Read (nsx []) (ProcSysNetUnix_Handler (registry (Some workingCommon)))
       unixDir (readAt 0)
     = {| read_n := 1; read_err := None; read_Data := "0"; read_ops := [] |}.
Proof.
  split; [|split].
  - apply (proj1 (Read_offset_gate (nsx [])
                    (ProcSysNetUnix_Handler (registry (Some workingCommon)))
                    max_dgram_qlen (readAt 4096))).
    reflexivity.
  - refine (proj2 (proj1 (proj2 (Read_offset_gate (nsx [])
                    (ProcSysNetUnix_Handler (registry (Some workingCommon)))
                    max_dgram_qlen (readAt 0))) eq_refl eq_refl)
              Scenario.World Scenario.kernel
              (agentEvent 4242 ReadFileRequest
                 (PReadFile {| ReadFile_File := "/proc/sys/net/unix/max_dgram_qlen" |}))
              _ [] _ _
              (String "5" (String "1" (String "2" (String "010"%char EmptyString))))
              eq_refl eq_refl eq_refl _).
    intros m Hm. cbn in Hm. inversion Hm. vm_compute. reflexivity.
  - refine (proj2 (proj2 (Read_offset_gate (nsx [])
                    (ProcSysNetUnix_Handler (registry (Some workingCommon)))
                    unixDir (readAt 0))) eq_refl _).
    discriminate.
Defined.

(** ** The mutex of an emulated resource *)

(** C6, at the input where the code departs from it. For a registered
    resource name, two calls of GetResourceMutex return two different
    pointers, each to the mutex of a fresh copy of the map element: a
    caller that holds the first mutex does not keep a second caller from
    taking the mutex it was given. *)
Theorem GetResourceMutex_returns_fresh_copies
    (h : HandlerBase) (s : string) (resource : EmuResource) (heap : Heap) :
  EmuResourceMap h !! s = Some resource ->
  locked (Mutex resource) = false ->
  exists (p1 p2 : nat) (heap1 heap2 heap3 heap4 : Heap),
    GetResourceMutex h s heap = (Some p1, heap1)
    /\ Lock p1 heap1 = Some heap2
    /\ GetResourceMutex h s heap2 = (Some p2, heap3)
    /\ p1 <> p2
    /\ Lock p2 heap3 = Some heap4.
Proof.
  intros Hreg Hfree. unfold GetResourceMutex. rewrite Hreg.
  assert (Hl1 : (heap ++ [resource]) !! length heap = Some resource)
    by (rewrite lookup_app_r by lia; now rewrite Nat.sub_diag).
  set (held := {| Kind := Kind resource; Mode := Mode resource;
                  Enabled := Enabled resource; Mutex := {| locked := true |} |}).
  set (heap2 := <[length heap := held]> (heap ++ [resource])).
  assert (Hlen2 : length heap2 = S (length heap))
    by (unfold heap2; rewrite length_insert, length_app; cbn; lia).
  assert (Hl2 : (heap2 ++ [resource]) !! length heap2 = Some resource)
    by (rewrite lookup_app_r by lia; now rewrite Nat.sub_diag).
  exists (length heap), (length heap2), (heap ++ [resource]), heap2,
         (heap2 ++ [resource]), (<[length heap2 := held]> (heap2 ++ [resource])).
  repeat split.
  - unfold Lock. now rewrite Hl1, Hfree.
  - lia.
  - unfold Lock. now rewrite Hl2, Hfree.
Qed.

Lemma GetResourceMutex_returns_fresh_copies_witness :
  exists (p1 p2 : nat) (heap1 heap2 heap3 heap4 : Heap),
    GetResourceMutex (ProcSysNetUnix_Handler (registry None)) "max_dgram_qlen" []
    = (Some p1, heap1)
    /\ Lock p1 heap1 = Some heap2
    /\ GetResourceMutex (ProcSysNetUnix_Handler (registry None)) "max_dgram_qlen" heap2
       = (Some p2, heap3)
    /\ p1 <> p2
    /\ Lock p2 heap3 = Some heap4.
Proof.
  apply (GetResourceMutex_returns_fresh_copies
           (ProcSysNetUnix_Handler (registry None)) "max_dgram_qlen"
           {| Kind := FileEmuResource; Mode := 420; Enabled := true;
              Mutex := {| locked := false |} |} []).
  - vm_compute. reflexivity.
  - reflexivity.
Defined.

(** An unknown resource name has no mutex. *)
Lemma GetResourceMutex_unknown (h : HandlerBase) (s : string) (heap : Heap) :
  EmuResourceMap h !! s = None -> GetResourceMutex h s heap = (None, heap).
Proof. intros Hreg. unfold GetResourceMutex. now rewrite Hreg. Qed.

(** ** The round trip of a response *)

Lemma fromJsonList_map {T : Type} `{JsonFaithful T} (l : list T) :
  fromJsonList fromJson (map toJson l) = Some l.
Proof.
  induction l as [|x l IH]; cbn [map fromJsonList]; [reflexivity|].
  now rewrite fromJson_toJson, IH.
Qed.

Lemma unmarshalInto_faithful {T : Type} `{JsonFaithful T} (zero x : T) :
  unmarshalInto zero (toJson x) = inl x.
Proof.
  unfold unmarshalInto. pose proof (toJson_not_null x) as Hnn.
  pose proof (fromJson_toJson x) as Hrt.
  destruct (toJson x); try congruence; now rewrite Hrt.
Qed.

Lemma unmarshalInto_slice {T : Type} `{JsonFaithful T} (l : list T) :
  unmarshalInto [] (toJson l) = inl l.
Proof.
  destruct l as [|x l]; [reflexivity|].
  unfold unmarshalInto. cbn [toJson slice_json fromJson].
  now rewrite (fromJsonList_map (x :: l)).
Qed.

Section RoundTripProofs.

Context {World : Type} `{Kernel World}.
Context `{JsonCodec FileInfo} `{JsonCodec MountInfoRespPayload}
        `{JsonCodec MountInodeRespPayload} `{JsonCodec IOerror}.

Ltac crunch :=
  repeat match goal with
         | |- context [match ?x with _ => _ end] => destruct x eqn:?
         end.

Lemma getProcCreds_keeps_messages (e e1 : NSenterEvent) (pipe : AgentPipe)
    (err : option error) :
  getProcCreds e pipe = (e1, err) -> ResMsg e1 = ResMsg e.
Proof.
  unfold getProcCreds. crunch; intros Hr; inversion Hr; reflexivity.
Qed.

Lemma umountLoop_response (process : Z) (payload : list UmountSyscallPayload) :
  forall (w w' : World) err res calls,
    umountLoop process payload w = (err, res, w', calls) ->
    res = None \/ exists e, res = errorResponse e.
Proof.
  induction payload as [|p ps IH]; intros w w' err res calls; cbn [umountLoop].
  - intros Hr; inversion Hr; now left.
  - destruct (ResolveProcSelf process (Umount_Target p) w) as [tgt [e|]];
      [intros Hr; inversion Hr; now left|].
    destruct (unix_Unmount tgt (Umount_Flags p) w) as [[e|] w1].
    + intros Hr; inversion Hr; right; now exists e.
    + destruct (umountLoop process ps w1) as [[[err' res'] w2] calls'] eqn:Hl.
      intros Hr; inversion Hr; subst. exact (IH _ _ _ _ _ Hl).
Qed.

(** What processRequest leaves as a response, when it is not an error. *)
Lemma processRequest_success_shape (pipe : AgentPipe) (req : Envelope)
    (w w' : World) (ev : NSenterEvent) (calls : list SysCall) (m : NSenterMessage) :
  pipe_request pipe = inl req ->
  processRequest newAgentEvent pipe w = (Returned (ev, None), w', calls) ->
  ResMsg ev = Some m ->
  MsgType m <> ErrorResponse ->
  AgentSuccess (env_Type req) m.
Proof.
  intros Hreq. unfold processRequest.
  destruct (getProcCreds newAgentEvent pipe) as [e1 [cerr|]] eqn:Hcreds;
    [intros Hr; inversion Hr|].
  apply getProcCreds_keeps_messages in Hcreds. cbn in Hcreds.
  rewrite Hreq.
  destruct (env_Type req);
    unfold decodeAndRun, processLookupRequest, processOpenFileRequest,
      processFileReadRequest, processFileWriteRequest, processDirReadRequest,
      processMountSyscallRequest, processUmountSyscallRequest,
      processChownSyscallRequest, processMountInfoRequest,
      processMountInodeRequest, processSleepRequest, errorResponse;
    cbn [withRequest SetRequestMsg ReqMsg Payload];
    crunch; intros Hr; inversion Hr; subst; cbn;
    intros Hm Hne; try congruence;
    inversion Hm; subst; cbn in Hne; try congruence; try constructor.
  exfalso. apply Hne.
  match goal with
  | Hl : umountLoop _ _ _ = _ |- _ =>
      destruct (umountLoop_response _ _ _ _ _ _ _ Hl) as [Hn | [e' He']]
  end; [discriminate | now inversion He'].
Qed.

(** What the master makes of a success response of the agent. *)
Lemma processResponse_of_success
    (F1 : JsonFaithful FileInfo) (F2 : JsonFaithful MountInfoRespPayload)
    (F3 : JsonFaithful MountInodeRespPayload)
    (t : NSenterMsgType) (m : NSenterMessage) (e0 : NSenterEvent) :
  AgentSuccess t m ->
  responseType t = Some (MsgType m)
  /\ processResponse e0 (inl (marshalMessage m))
     = (SetResponseMsg (Some {| MsgType := MsgType m; Payload := masterPayload m |}) e0,
        None).
Proof.
  intros Hs. destruct Hs; (split; [reflexivity|]);
    unfold processResponse, marshalMessage, decodePayload, emptyPayload, masterPayload;
    cbn [env_Type env_Payload MsgType Payload marshalPayload deref];
    try reflexivity.
  - now rewrite unmarshalInto_faithful.
  - now rewrite unmarshalInto_slice.
  - now rewrite unmarshalInto_faithful.
  - now rewrite unmarshalInto_faithful.
Qed.


End RoundTripProofs.

(** The codecs of the small concrete world are faithful. *)

Lemma Z_json_faithful : JsonFaithful Z.
Proof. split; [reflexivity | discriminate]. Qed.

Lemma string_json_faithful : JsonFaithful string.
Proof. split; [reflexivity | discriminate]. Qed.

Lemma slice_round_trip {T : Type} `{JsonFaithful T} (l : list T) :
  fromJson (toJson l) = Some l.
Proof.
  destruct l as [|x l]; [reflexivity|].
  cbn [toJson slice_json fromJson]. apply (fromJsonList_map (x :: l)).
Qed.

Lemma FileInfo_json_faithful : JsonFaithful FileInfo.
Proof.
  split; [|discriminate].
  intros [n s m t d [i sm u g]]. reflexivity.
Qed.

Lemma MountInfo_json_faithful : JsonFaithful MountInfo.
Proof.
  split; [|discriminate]. intros []. reflexivity.
Qed.

Lemma MountInfoRespPayload_json_faithful : JsonFaithful MountInfoRespPayload.
Proof.
  split; [|discriminate]. intros [l].
  cbn [toJson fromJson MountInfoRespPayload_json fieldOf field MountInfo_Data].
  replace ("Data" =? "Data")%string with true by reflexivity.
  now rewrite (slice_round_trip (H0 := MountInfo_json_faithful) l).
Qed.

Lemma MountInodeRespPayload_json_faithful : JsonFaithful MountInodeRespPayload.
Proof.
  split; [|discriminate]. intros [l].
  cbn [toJson fromJson MountInodeRespPayload_json fieldOf field MpInodeList].
  replace ("MpInodeList" =? "MpInodeList")%string with true by reflexivity.
  now rewrite (slice_round_trip (H0 := Z_json_faithful) l).
Qed.



(** * Further properties of the agent *)

Section AgentReplies.

Context {World : Type} `{Kernel World}.
Context `{JsonCodec FileInfo} `{JsonCodec MountInfoRespPayload}
        `{JsonCodec MountInodeRespPayload} `{JsonCodec IOerror}.

Ltac crunch :=
  repeat match goal with
         | |- context [match ?x with _ => _ end] => destruct x eqn:?
         end.

Ltac unfold_agent :=
  unfold decodeAndRun, processLookupRequest, processOpenFileRequest,
    processFileReadRequest, processFileWriteRequest, processDirReadRequest,
    processMountSyscallRequest, processUmountSyscallRequest,
    processChownSyscallRequest, processMountInfoRequest,
    processMountInodeRequest, processSleepRequest, errorResponse;
  cbn [withRequest SetRequestMsg ReqMsg Payload].

Lemma getProcCreds_failure (e e1 : NSenterEvent) (pipe : AgentPipe) (err : error) :
  getProcCreds e pipe = (e1, Some err) -> e1 = e.
Proof.
  unfold getProcCreds. crunch; intros Hr; inversion Hr; reflexivity.
Qed.

Lemma getProcCreds_success (e e1 : NSenterEvent) (pipe : AgentPipe) :
  getProcCreds e pipe = (e1, None) ->
  exists cred,
    pipe_setsockopt pipe = None /\ pipe_recvmsg pipe = RecvMsgs [ScmCredentials cred].
Proof.
  unfold getProcCreds. crunch; intros Hr; inversion Hr; subst. eauto.
Qed.

(** X1. getProcCreds succeeds exactly when the socket option can be set
    and one control message, of credentials, is received; it then changes
    the [Pid] field and nothing else.  When it fails the event is left as
    it was. *)
Theorem getProcCreds_accepts_one_credential (e : NSenterEvent) (pipe : AgentPipe) :
  match getProcCreds e pipe with
  | (e', None) =>
      exists cred,
        pipe_setsockopt pipe = None
        /\ pipe_recvmsg pipe = RecvMsgs [ScmCredentials cred]
        /\ e' = setPid (uint32 (Ucred_Pid cred)) e
  | (e', Some _) =>
      e' = e
      /\ (pipe_setsockopt pipe <> None
          \/ forall cred, pipe_recvmsg pipe <> RecvMsgs [ScmCredentials cred])
  end.
Proof.
  unfold getProcCreds.
  destruct (pipe_setsockopt pipe) as [serr|]; [split; [reflexivity | left; discriminate]|].
  destruct (pipe_recvmsg pipe) as [rerr| |[|[cred|lvl ty] [|m2 rest]]];
    try (split; [reflexivity | right; intros cred'; discriminate]).
  exists cred. repeat split.
Qed.

(** X2. Without the caller's credentials the agent does nothing: when
    the socket option cannot be set, or what is received is not one
    credentials message, Init issues no system call, leaves the world as
    it is and replies with an ErrorResponse that carries the error of
    getProcCreds. *)
Theorem Init_without_credentials (pipe : AgentPipe) (w : World) :
  pipe_setsockopt pipe <> None
  \/ (forall cred, pipe_recvmsg pipe <> RecvMsgs [ScmCredentials cred]) ->
  pipe_write pipe = None ->
  exists err,
    getProcCreds newAgentEvent pipe = (newAgentEvent, Some err)
    /\ Init pipe w
       = (Returned
            (Some (marshalMessage
                     {| MsgType := ErrorResponse;
                        Payload := PRef (PIOerror {| RcvError := Some err |}) |}),
             None), w, []).
Proof.
  intros Hbad Hwrite.
  destruct (getProcCreds newAgentEvent pipe) as [e1 [err|]] eqn:Hcreds.
  - apply getProcCreds_failure in Hcreds as He. subst e1.
    exists err. split; [reflexivity|].
    unfold Init, processRequest. rewrite Hcreds. cbn. now rewrite Hwrite.
  - destruct (getProcCreds_success _ _ _ Hcreds) as (cred & Hopt & Hrecv).
    destruct Hbad as [Hbad | Hbad]; [congruence | now destruct (Hbad cred)].
Qed.

(** X3. processRequest panics in one case only: a MountSyscall request
    whose payload decodes to the empty batch, where the source reads
    [payload[0]]. *)
Theorem processRequest_panics_only_on_empty_mount_batch
    (e : NSenterEvent) (pipe : AgentPipe) (w : World) :
  fst (fst (processRequest e pipe w)) = Panicked
  <-> exists e1 req,
        getProcCreds e pipe = (e1, None)
        /\ pipe_request pipe = inl req
        /\ env_Type req = MountSyscallRequest
        /\ unmarshalInto [] (env_Payload req) = inl ([] : list MountSyscallPayload).
Proof.
  split.
  - unfold processRequest.
    destruct (getProcCreds e pipe) as [e1 [cerr|]] eqn:Hcreds; [discriminate|].
    destruct (pipe_request pipe) as [req|] eqn:Hreq; [|discriminate].
    destruct (env_Type req) eqn:Ht; unfold_agent; crunch; cbn;
      intros Hp; try discriminate.
    exists e1, req. repeat split; assumption.
  - intros (e1 & req & Hcreds & Hreq & Ht & Hl).
    unfold processRequest. rewrite Hcreds, Hreq, Ht.
    unfold decodeAndRun. rewrite Hl. reflexivity.
Qed.

Lemma processRequest_panic_request (e : NSenterEvent) (pipe : AgentPipe) (w : World) :
  fst (fst (processRequest e pipe w)) = Panicked ->
  exists req, pipe_request pipe = inl req /\ env_Type req = MountSyscallRequest.
Proof.
  unfold processRequest.
  destruct (getProcCreds e pipe) as [e1 [cerr|]]; [discriminate|].
  destruct (pipe_request pipe) as [req|] eqn:Hreq; [|discriminate].
  destruct (env_Type req) eqn:Ht; unfold_agent; crunch; cbn;
    intros Hp; try discriminate.
  exists req. split; reflexivity || assumption.
Qed.

(** processRequest leaves the response unset in one case only: an
    unmount batch. *)
Lemma processRequest_unset_response (pipe : AgentPipe) (req : Envelope)
    (w w' : World) (ev : NSenterEvent) (calls : list SysCall) :
  pipe_request pipe = inl req ->
  processRequest newAgentEvent pipe w = (Returned (ev, None), w', calls) ->
  ResMsg ev = None ->
  env_Type req = UmountSyscallRequest.
Proof.
  intros Hreq. unfold processRequest.
  destruct (getProcCreds newAgentEvent pipe) as [e1 [cerr|]] eqn:Hcreds;
    [discriminate|].
  rewrite Hreq.
  destruct (env_Type req) eqn:Ht; unfold_agent; crunch;
    intros Hr; inversion Hr; subst; cbn; intros Hn; try discriminate; reflexivity.
Qed.


(** X5. The tag of the reply is never that of another request: it is
    ErrorResponse or the success response of the request received. *)
Theorem Init_reply_tag (pipe : AgentPipe) (req : Envelope) (w w' : World)
    (reply : Envelope) (err : option error) (calls : list SysCall) :
  pipe_request pipe = inl req ->
  Init pipe w = (Returned (Some reply, err), w', calls) ->
  env_Type reply = ErrorResponse
  \/ responseType (env_Type req) = Some (env_Type reply).
Proof.
  intros Hreq. unfold Init.
  destruct (processRequest newAgentEvent pipe w) as [[[[ev perr]|] w1] pcalls] eqn:Hrun;
    [|discriminate].
  destruct perr as [perr|]; cbn.
  - destruct (pipe_write pipe); intros Hr; inversion Hr; subst. now left.
  - destruct (ResMsg ev) as [m|] eqn:Hres; [|discriminate].
    destruct (pipe_write pipe); intros Hr; inversion Hr; subst.
    cbn [marshalMessage env_Type].
    assert (Hdec : MsgType m = ErrorResponse \/ MsgType m <> ErrorResponse)
      by (destruct (MsgType m); (now left) || (right; discriminate)).
    destruct Hdec as [He | Hne]; [now left | right].
    pose proof (processRequest_success_shape _ _ _ _ _ _ _ Hreq Hrun Hres Hne) as Hs.
    destruct Hs; reflexivity.
Qed.

(** X6. A request whose tag is not one of the eleven request tags is
    answered with an ErrorResponse that says so, and no system call is
    issued for it. *)
Theorem Init_unsupported_request (pipe : AgentPipe) (req : Envelope) (w : World)
    (e1 : NSenterEvent) :
  getProcCreds newAgentEvent pipe = (e1, None) ->
  pipe_request pipe = inl req ->
  responseType (env_Type req) = None ->
  pipe_write pipe = None ->
  Init pipe w
  = (Returned
       (Some {| env_Type := ErrorResponse;
                env_Payload := JString "Unsupported request" |}, None), w, []).
Proof.
  intros Hcreds Hreq Hty Hwrite. unfold Init, processRequest.
  rewrite Hcreds, Hreq.
  destruct (env_Type req); try discriminate Hty; cbn; now rewrite Hwrite.
Qed.

End AgentReplies.

(** * Further properties of the agent's operations *)

Section Operations.

Context {World : Type} `{Kernel World}.

(** X7. OpenFile opens the file only when both the flags and the mode
    are decimal integers, and a file that was opened is closed at once:
    the calls are none (a malformed number), one open (that failed), or an
    open followed by the close of the same file, and the last case is the
    one that answers OpenFileResponse. *)
Theorem OpenFile_opens_then_closes
    (e : NSenterEvent) (w : World) (t : NSenterMsgType) (payload : OpenFilePayload) :
  ReqMsg e = Some {| MsgType := t; Payload := POpenFile payload |} ->
  exists ev w' calls,
    processOpenFileRequest e w = (Returned (ev, None), w', calls)
    /\ ((exists err, Atoi (OpenFile_Flags payload) = inr err
                     \/ Atoi (OpenFile_Mode payload) = inr err)
        -> calls = [] /\ w' = w /\ isErrorMessage (ResMsg ev) = true)
    /\ (forall flags mode,
           Atoi (OpenFile_Flags payload) = inl flags ->
           Atoi (OpenFile_Mode payload) = inl mode ->
           (calls = [SysOpenFile (OpenFile_File payload) flags mode]
            /\ isErrorMessage (ResMsg ev) = true)
           \/ (calls = [SysOpenFile (OpenFile_File payload) flags mode;
                        SysClose (OpenFile_File payload)]
               /\ ResMsg ev = Some {| MsgType := OpenFileResponse; Payload := PNil |})).
Proof.
  intros Hreq. unfold processOpenFileRequest. rewrite Hreq.
  destruct (Atoi (OpenFile_Flags payload)) as [flags|ferr] eqn:Hf.
  - destruct (Atoi (OpenFile_Mode payload)) as [mode|merr] eqn:Hm.
    + destruct (os_OpenFile (OpenFile_File payload) flags mode w) as [[oerr|] w1] eqn:Ho;
        do 3 eexists; (split; [reflexivity|]); split.
      * intros [err [Hx | Hx]]; discriminate.
      * intros fl md Hfl Hmd. inversion Hfl; inversion Hmd; subst. now left.
      * intros [err [Hx | Hx]]; discriminate.
      * intros fl md Hfl Hmd. inversion Hfl; inversion Hmd; subst. now right.
    + do 3 eexists. split; [reflexivity|]. split.
      * intros _. repeat split.
      * intros fl md _ Hmd. discriminate.
  - do 3 eexists. split; [reflexivity|]. split.
    + intros _. repeat split.
    + intros fl md Hfl. discriminate.
Qed.

(** X8. When every entry of a mount batch is mounted, the mounts are
    issued in submission order with the resolved paths, nothing is
    unmounted, and the response is MountSyscallResponse. *)
Theorem mount_batch_all_mounted
    (e : NSenterEvent) (w : World) (t : NSenterMsgType)
    (p0 : MountSyscallPayload) (rest : list MountSyscallPayload)
    (w0 w1 : World) (pcalls : list SysCall) (mounted : list MountSyscallPayload) :
  ReqMsg e = Some {| MsgType := t; Payload := PMountSyscall (p0 :: rest) |} ->
  PersonalityOk p0 w w0 pcalls ->
  MountsOk (Pid e) (p0 :: rest) w0 mounted w1 ->
  processMountSyscallRequest e w
  = (Returned
       (SetResponseMsg
          (Some {| MsgType := MountSyscallResponse; Payload := PString EmptyString |}) e,
        None), w1, pcalls ++ map mountCall mounted)
  /\ length mounted = length (p0 :: rest).
Proof.
  intros Hreq Hpers Hok. split.
  - unfold processMountSyscallRequest. rewrite Hreq.
    inversion Hpers as [Hno | wa Hov Hadj]; subst.
    + apply String.eqb_neq in Hno. rewrite Hno.
      now rewrite (mountLoop_all _ _ _ _ _ Hok).
    + apply String.eqb_eq in Hov. rewrite Hov, Hadj.
      now rewrite (mountLoop_all _ _ _ _ _ Hok).
  - clear Hreq Hpers. induction Hok as [|p ps wa p' wb ps' wc Hp Hps IH];
      [reflexivity | cbn; now rewrite IH].
Qed.

Lemma mountLoop_only_mounts (process : Z) (payload : list MountSyscallPayload) :
  forall w, Forall (fun c => isMountCall c = true)
                   (snd (mountLoop process payload w)).
Proof.
  induction payload as [|p ps IH]; intros w; cbn [mountLoop]; [constructor|].
  destruct (ResolveProcSelf process (Source p) w) as [src [e1|]]; [constructor|].
  destruct (ResolveProcSelf process (Target p) w) as [tgt [e2|]]; [constructor|].
  destruct (unix_Mount src tgt (FsType p) (Flags p) (Data p) w) as [[e3|] w1].
  - cbn. constructor; [reflexivity | constructor].
  - specialize (IH w1).
    destruct (mountLoop process ps w1) as [[[mounted err] w2] calls].
    cbn in *. constructor; [reflexivity | exact IH].
Qed.

(** X9. A mount batch unmounts only to roll back: whenever an unmount
    call is issued, the response is an ErrorResponse. *)
Theorem mount_batch_unmounts_only_on_error
    (e ev : NSenterEvent) (w w' : World) (err : option error) (calls : list SysCall) :
  processMountSyscallRequest e w = (Returned (ev, err), w', calls) ->
  Exists (fun c => isUnmountCall c = true) calls ->
  isErrorMessage (ResMsg ev) = true.
Proof.
  unfold processMountSyscallRequest.
  destruct (ReqMsg e) as [[t []]|]; try discriminate.
  destruct l as [|p0 rest]; [discriminate|].
  set (payload := p0 :: rest).
  destruct (String.eqb (FsType p0) "overlay").
  - destruct (AdjustPersonality _ _ _ _ _ w) as [[perr|] w0];
      [intros Hr; inversion Hr; reflexivity|].
    pose proof (mountLoop_only_mounts (Pid e) payload w0) as Hm.
    destruct (mountLoop (Pid e) payload w0) as [[[mounted lerr] w1] lcalls].
    destruct lerr as [lerr|].
    + destruct (unmountAll (rev mounted) w1) as [w2 ucalls].
      intros Hr; inversion Hr; reflexivity.
    + intros Hr; inversion Hr; subst. cbn in Hm. intros Hex. exfalso.
      apply List.Exists_cons in Hex. destruct Hex as [Hex | Hex]; [discriminate|].
      cbn in Hex. apply List.Exists_exists in Hex. destruct Hex as (c & Hin & Hc).
      rewrite List.Forall_forall in Hm. specialize (Hm c Hin).
      destruct c; discriminate.
  - pose proof (mountLoop_only_mounts (Pid e) payload w) as Hm.
    destruct (mountLoop (Pid e) payload w) as [[[mounted lerr] w1] lcalls].
    destruct lerr as [lerr|].
    + destruct (unmountAll (rev mounted) w1) as [w2 ucalls].
      intros Hr; inversion Hr; reflexivity.
    + intros Hr; inversion Hr; subst. cbn in Hm. intros Hex. exfalso.
      cbn in Hex. apply List.Exists_exists in Hex. destruct Hex as (c & Hin & Hc).
      rewrite List.Forall_forall in Hm. specialize (Hm c Hin).
      destruct c; discriminate.
Qed.

(** X10. Whether the personality is adjusted is decided by the first
    entry of the batch alone: it is adjusted, once and before any mount,
    exactly when the file-system type of the first entry is "overlay";
    and when the adjustment fails nothing is mounted and the response is
    an ErrorResponse with its error. *)
Theorem mount_batch_personality
    (e : NSenterEvent) (w : World) (t : NSenterMsgType)
    (p0 : MountSyscallPayload) (rest : list MountSyscallPayload) :
  ReqMsg e = Some {| MsgType := t; Payload := PMountSyscall (p0 :: rest) |} ->
  (FsType p0 <> "overlay" ->
   Forall (fun c => isAdjustPersonality c = false)
          (snd (processMountSyscallRequest e w)))
  /\ (FsType p0 = "overlay" ->
      exists calls,
        snd (processMountSyscallRequest e w)
        = SysAdjustPersonality (Uid (Header p0)) (Gid (Header p0)) (Root (Header p0))
            (Cwd (Header p0)) (Capabilities (Header p0)) :: calls
        /\ Forall (fun c => isAdjustPersonality c = false) calls)
  /\ (forall err w0,
         FsType p0 = "overlay" ->
         AdjustPersonality (Uid (Header p0)) (Gid (Header p0)) (Root (Header p0))
           (Cwd (Header p0)) (Capabilities (Header p0)) w = (Some err, w0) ->
         processMountSyscallRequest e w
         = (Returned (SetResponseMsg (errorResponse err) e, None), w0,
            [SysAdjustPersonality (Uid (Header p0)) (Gid (Header p0)) (Root (Header p0))
               (Cwd (Header p0)) (Capabilities (Header p0))])).
Proof.
  intros Hreq.
  assert (Hrest : forall w0 : World,
             Forall (fun c => isAdjustPersonality c = false)
               (let '(mounted, err, w1, calls) := mountLoop (Pid e) (p0 :: rest) w0 in
                match err with
                | Some _ => calls ++ snd (unmountAll (rev mounted) w1)
                | None => calls
                end)).
  { intros w0. pose proof (mountLoop_only_mounts (Pid e) (p0 :: rest) w0) as Hm.
    destruct (mountLoop (Pid e) (p0 :: rest) w0) as [[[mounted lerr] w1] lcalls].
    cbn in Hm.
    assert (Hl : Forall (fun c => isAdjustPersonality c = false) lcalls).
    { eapply List.Forall_impl; [|exact Hm]. intros c Hc. now destruct c. }
    destruct lerr; [|exact Hl].
    apply List.Forall_app. split; [exact Hl|].
    rewrite unmountAll_calls. cbn [snd].
    apply List.Forall_forall. intros c Hin. apply List.in_map_iff in Hin.
    destruct Hin as (m & <- & _). reflexivity. }
  unfold processMountSyscallRequest. rewrite Hreq. split; [|split].
  - intros Hno. apply String.eqb_neq in Hno. rewrite Hno.
    specialize (Hrest w).
    destruct (mountLoop (Pid e) (p0 :: rest) w) as [[[mounted lerr] w1] lcalls].
    destruct lerr; [|exact Hrest].
    destruct (unmountAll (rev mounted) w1) as [w2 ucalls]. exact Hrest.
  - intros Hov. apply String.eqb_eq in Hov. rewrite Hov.
    destruct (AdjustPersonality _ _ _ _ _ w) as [[perr|] w0].
    + exists []. split; [reflexivity | constructor].
    + specialize (Hrest w0).
      destruct (mountLoop (Pid e) (p0 :: rest) w0) as [[[mounted lerr] w1] lcalls].
      destruct lerr.
      * destruct (unmountAll (rev mounted) w1) as [w2 ucalls].
        eexists. split; [reflexivity | exact Hrest].
      * eexists. split; [reflexivity | exact Hrest].
  - intros err w0 Hov Hadj. apply String.eqb_eq in Hov. now rewrite Hov, Hadj.
Qed.

End Operations.

Section ChownBatches.

Context {World : Type} `{Kernel World}.

Lemma chownLoop_refused (process : Z) (before : list ChownSyscallPayload) :
  forall failing after w calls w1 err c w2,
    ChownsOk process before w calls w1 ->
    ChownRefused process failing w1 err c w2 ->
    chownLoop process (before ++ failing :: after) w = (Some err, w2, calls ++ [c]).
Proof.
  induction before as [|p ps IH]; intros failing after w calls w1 err c w2 Hok Hfail.
  - inversion Hok; subst. inversion Hfail as [tgt e' w' Hr Hu]; subst.
    cbn [app chownLoop]. now rewrite Hr, Hu.
  - inversion Hok as [|? ? ? c0 wa cs wb Hp Hps]; subst.
    inversion Hp as [tgt w' Hr Hu]; subst.
    cbn [app chownLoop]. rewrite Hr, Hu.
    now rewrite (IH failing after _ _ _ _ _ _ Hps Hfail).
Qed.

Lemma chownLoop_unresolved (process : Z) (before : list ChownSyscallPayload) :
  forall failing after w calls w1 s err,
    ChownsOk process before w calls w1 ->
    ResolveProcSelf process (Chown_Target failing) w1 = (s, Some err) ->
    chownLoop process (before ++ failing :: after) w = (None, w1, calls).
Proof.
  induction before as [|p ps IH]; intros failing after w calls w1 s err Hok Hfail.
  - inversion Hok; subst. cbn [app chownLoop]. now rewrite Hfail.
  - inversion Hok as [|? ? ? c0 wa cs wb Hp Hps]; subst.
    inversion Hp as [tgt w' Hr Hu]; subst.
    cbn [app chownLoop]. rewrite Hr, Hu.
    now rewrite (IH failing after _ _ _ _ _ Hps Hfail).
Qed.

Lemma chownLoop_all (process : Z) (payload : list ChownSyscallPayload) :
  forall w calls w1,
    ChownsOk process payload w calls w1 ->
    chownLoop process payload w = (None, w1, calls).
Proof.
  induction payload as [|p ps IH]; intros w calls w1 Hok.
  - inversion Hok; subst. reflexivity.
  - inversion Hok as [|? ? ? c0 wa cs wb Hp Hps]; subst.
    inversion Hp as [tgt w' Hr Hu]; subst.
    cbn [chownLoop]. now rewrite Hr, Hu, (IH _ _ _ Hps).
Qed.

(** X11. A chown batch is run in submission order.  When the kernel
    refuses an entry the batch stops there with an ErrorResponse, the
    entries after it are not attempted and the changes already made are
    kept.  When the target of an entry cannot be resolved the batch also
    stops there, with the entries before it changed, but the response is
    ChownSyscallResponse, as it is when every entry was changed. *)
Theorem chown_batch_stops_without_rollback
    (e : NSenterEvent) (w : World) (t : NSenterMsgType) :
  (forall before failing after calls w1 w2 err c,
      ReqMsg e = Some {| MsgType := t;
                         Payload := PChownSyscall (before ++ failing :: after) |} ->
      ChownsOk (Pid e) before w calls w1 ->
      ChownRefused (Pid e) failing w1 err c w2 ->
      processChownSyscallRequest e w
      = (Returned (SetResponseMsg (errorResponse err) e, None), w2, calls ++ [c]))
  /\ (forall before failing after calls w1 s err,
         ReqMsg e = Some {| MsgType := t;
                            Payload := PChownSyscall (before ++ failing :: after) |} ->
         ChownsOk (Pid e) before w calls w1 ->
         ResolveProcSelf (Pid e) (Chown_Target failing) w1 = (s, Some err) ->
         processChownSyscallRequest e w
         = (Returned
              (SetResponseMsg
                 (Some {| MsgType := ChownSyscallResponse;
                          Payload := PString EmptyString |}) e,
               None), w1, calls))
  /\ (forall payload calls w1,
         ReqMsg e = Some {| MsgType := t; Payload := PChownSyscall payload |} ->
         ChownsOk (Pid e) payload w calls w1 ->
         processChownSyscallRequest e w
         = (Returned
              (SetResponseMsg
                 (Some {| MsgType := ChownSyscallResponse;
                          Payload := PString EmptyString |}) e,
               None), w1, calls)).
Proof.
  unfold processChownSyscallRequest. split; [|split].
  - intros before failing after calls w1 w2 err c Hreq Hok Hfail. rewrite Hreq.
    now rewrite (chownLoop_refused _ _ _ _ _ _ _ _ _ _ Hok Hfail).
  - intros before failing after calls w1 s err Hreq Hok Hfail. rewrite Hreq.
    now rewrite (chownLoop_unresolved _ _ _ _ _ _ _ _ _ Hok Hfail).
  - intros payload calls w1 Hreq Hok. rewrite Hreq.
    now rewrite (chownLoop_all _ _ _ _ _ Hok).
Qed.

End ChownBatches.

(** ** Reading a file and sleeping *)

Lemma trimLeft_first (s : string) (c : ascii) :
  firstChar (trimLeft s) = Some c -> is_space c = false.
Proof.
  induction s as [|a s IH]; cbn [trimLeft]; [discriminate|].
  destruct (is_space a) eqn:Ha; [exact IH|].
  cbn. intros Hc; inversion Hc; subst. exact Ha.
Qed.

Lemma trimRight_first (s : string) (c : ascii) :
  firstChar (trimRight s) = Some c -> firstChar s = Some c.
Proof.
  destruct s as [|a s]; cbn [trimRight]; [discriminate|].
  destruct (trimRight s); [destruct (is_space a); [discriminate|]|]; cbn; auto.
Qed.

Lemma trimRight_last (s : string) (c : ascii) :
  lastChar (trimRight s) = Some c -> is_space c = false.
Proof.
  induction s as [|a s IH]; cbn [trimRight]; [discriminate|].
  destruct (trimRight s) as [|b r] eqn:Hr.
  - destruct (is_space a) eqn:Ha; [discriminate|].
    cbn. intros Hc; inversion Hc; subst. exact Ha.
  - intros Hc. apply IH. exact Hc.
Qed.

Section ReadAndSleep.

Context {World : Type} `{Kernel World}.

(** X12. The content in a ReadFileResponse neither begins nor ends with
    white space, and reading changes nothing: the world is as before and
    the one call issued is the read of the requested file. *)
Theorem ReadFile_content_is_trimmed
    (e ev : NSenterEvent) (w w' : World) (err : option error)
    (calls : list SysCall) (content : string) :
  processFileReadRequest e w = (Returned (ev, err), w', calls) ->
  ResMsg ev = Some {| MsgType := ReadFileResponse; Payload := PString content |} ->
  (forall c, firstChar content = Some c -> is_space c = false)
  /\ (forall c, lastChar content = Some c -> is_space c = false)
  /\ w' = w
  /\ exists payload,
       Payload <$> ReqMsg e = Some (PReadFile payload)
       /\ calls = [SysReadFile (ReadFile_File payload)].
Proof.
  unfold processFileReadRequest.
  destruct (ReqMsg e) as [[t []]|]; try discriminate.
  destruct (ioutil_ReadFile (ReadFile_File p) w) as [fileContent|rerr];
    intros Hr; inversion Hr; subst; cbn; intros Hm; inversion Hm; subst.
  repeat split.
  - intros c Hc. apply trimRight_first in Hc. now apply trimLeft_first in Hc.
  - intros c Hc. now apply trimRight_last in Hc.
  - exists p. split; reflexivity.
Qed.

(** X13. Sleep sleeps for the number of seconds in the request when the
    interval is a decimal integer of at most 9223372036 seconds in
    absolute value, the range in which the product with time.Second fits
    a Duration; an interval that is not a decimal integer gives an
    ErrorResponse and no sleep. *)
Theorem Sleep_duration
    (e : NSenterEvent) (w : World) (t : NSenterMsgType) (payload : SleepReqPayload) :
  ReqMsg e = Some {| MsgType := t; Payload := PSleepReq payload |} ->
  (forall ival,
      ParseInt (Ival payload) = inl ival ->
      - 9223372036 <= ival <= 9223372036 ->
      processSleepRequest e w
      = (Returned
           (SetResponseMsg
              (Some {| MsgType := SleepResponse; Payload := PString EmptyString |}) e,
            None), time_Sleep (ival * 1000000000) w, [SysSleep (ival * 1000000000)]))
  /\ (forall err,
         ParseInt (Ival payload) = inr err ->
         processSleepRequest e w
         = (Returned (SetResponseMsg (errorResponse err) e, None), w, [])).
Proof.
  intros Hreq. unfold processSleepRequest. rewrite Hreq. split.
  - intros ival Hp Hrange. rewrite Hp.
    assert (Hd : int64 (ival * 1000000000) = ival * 1000000000).
    { unfold int64.
      change (2 ^ 63) with 9223372036854775808.
      change (2 ^ 64) with 18446744073709551616.
      rewrite Z.mod_small by lia. lia. }
    now rewrite Hd.
  - intros err Hp. now rewrite Hp.
Qed.

End ReadAndSleep.

(** * Further properties of the master *)

Section MasterProperties.

Context `{JsonCodec FileInfo} `{JsonCodec MountInfoRespPayload}
        `{JsonCodec MountInodeRespPayload} `{JsonCodec IOerror}.

Lemma processResponse_outcome (e : NSenterEvent) (pipe : Envelope + error) :
  match processResponse e pipe with
  | (e', Some _) => e' = e
  | (e', None) =>
      exists nsenterMsg p,
        pipe = inl nsenterMsg
        /\ isResponseType (env_Type nsenterMsg) = true
        /\ e' = SetResponseMsg
                  (Some {| MsgType := env_Type nsenterMsg; Payload := p |}) e
  end.
Proof.
  unfold processResponse, decodePayload, emptyPayload.
  destruct pipe as [nsenterMsg|derr]; [|reflexivity].
  destruct (env_Type nsenterMsg) eqn:Ht; cbn; try reflexivity;
    try match goal with
        | |- context [unmarshalInto ?z ?j] => destruct (unmarshalInto z j)
        end;
    try reflexivity;
    exists nsenterMsg; eexists; rewrite Ht; repeat split.
Qed.

(** X14. processResponse changes the event only when it returns no
    error, and then only its response message: the tag is the one on the
    wire, which is one of the twelve response tags, and for WriteFile,
    MountSyscall, UmountSyscall, ChownSyscall and Sleep the payload is the
    empty string whatever was sent. *)
Theorem processResponse_frame (e : NSenterEvent) (pipe : Envelope + error) :
  match processResponse e pipe with
  | (e', Some _) => e' = e
  | (e', None) =>
      exists nsenterMsg p,
        pipe = inl nsenterMsg
        /\ isResponseType (env_Type nsenterMsg) = true
        /\ e' = SetResponseMsg
                  (Some {| MsgType := env_Type nsenterMsg; Payload := p |}) e
        /\ (hasConstantPayload (env_Type nsenterMsg) = true -> p = PString EmptyString)
  end.
Proof.
  unfold processResponse, decodePayload, emptyPayload.
  destruct pipe as [nsenterMsg|derr]; [|reflexivity].
  destruct (env_Type nsenterMsg) eqn:Ht; cbn; try reflexivity;
    try match goal with
        | |- context [unmarshalInto ?z ?j] => destruct (unmarshalInto z j)
        end;
    try reflexivity;
    exists nsenterMsg; eexists; rewrite Ht;
    (split; [reflexivity|]); (split; [reflexivity|]); (split; [reflexivity|]);
    intros Hc; (discriminate Hc || reflexivity).
Qed.

(** X15. When SendRequest returns an error, the caller's identity, the
    request and the response slot of the event are what they were: no
    response was stored. *)
Theorem SendRequest_error_keeps_response
    (env : MasterEnv) (e e' : NSenterEvent) (err : error) (acts : list MasterAction) :
  SendRequest env e = (Returned (e', Some err), acts) ->
  ResMsg e' = ResMsg e /\ ReqMsg e' = ReqMsg e /\ Pid e' = Pid e.
Proof.
  unfold SendRequest.
  destruct (m_NewSockPair env);
    [intros Hr; inversion Hr; repeat split|].
  destruct (m_SetsockoptInt env); [intros Hr; inversion Hr; repeat split|].
  destruct (m_cmdStart env); [intros Hr; inversion Hr; repeat split|].
  destruct (m_ioCopy env); [intros Hr; inversion Hr; repeat split|].
  destruct (m_Wait env) as [[|]|];
    try solve [intros Hr; inversion Hr; repeat split].
  destruct (m_decodePid env) as [p|]; [|intros Hr; inversion Hr; repeat split].
  cbn.
  destruct (m_FindProcess env (pid_PidFirstChild p));
    [intros Hr; inversion Hr; repeat split|].
  destruct (m_FindProcess env (pid_Pid p)); [intros Hr; inversion Hr; repeat split|].
  cbn.
  destruct (m_Sendmsg env); [intros Hr; inversion Hr; repeat split|].
  destruct (ReqMsg e) as [reqMsg|] eqn:Hreq; [|discriminate].
  destruct (m_Marshal env); [intros Hr; inversion Hr; subst; cbn; now repeat split|].
  destruct (m_Write env); [intros Hr; inversion Hr; subst; cbn; now repeat split|].
  cbn.
  destruct (async e); cbn; [discriminate|].
  pose proof (processResponse_outcome
                (setProcess (Some (pid_Pid p)) (setParentPipe true e))
                (m_response env)) as Hf.
  destruct (processResponse _ (m_response env)) as [e1 [ierr|]]; cbn;
    [|discriminate].
  intros Hr; inversion Hr; subst. cbn. now repeat split.
Qed.

(** X16. On every path SendRequest calls nsenterStarted() once and
    nsenterEnded() at most once, and nsenterReapReq() at most once.  It
    returns without nsenterEnded() only when it panics, when the socket
    option or the credentials fail, or when an asynchronous request was
    sent. *)
Theorem SendRequest_reaper_account (env : MasterEnv) (e : NSenterEvent) :
  started (snd (SendRequest env e)) = 1%nat
  /\ (ended (snd (SendRequest env e)) <= 1)%nat
  /\ (reaped (snd (SendRequest env e)) <= 1)%nat
  /\ (ended (snd (SendRequest env e)) = 0%nat ->
      fst (SendRequest env e) = Panicked
      \/ (m_NewSockPair env = None /\ m_SetsockoptInt env <> None)
      \/ (m_Sendmsg env <> None
          /\ exists e' err, fst (SendRequest env e) = Returned (e', Some err))
      \/ (async e = true
          /\ exists e', fst (SendRequest env e) = Returned (e', None))).
Proof.
  unfold SendRequest.
  destruct (m_NewSockPair env) eqn:Hpair;
    [cbn; repeat split; auto; discriminate|].
  destruct (m_SetsockoptInt env) eqn:Hopt.
  { cbn. repeat split; auto;
      try (intros _; right; left; split; [reflexivity | discriminate]). }
  destruct (m_cmdStart env); [cbn; repeat split; auto; discriminate|].
  destruct (m_ioCopy env); [cbn; repeat split; auto; discriminate|].
  destruct (m_Wait env) as [[|]|];
    try solve [cbn; repeat split; auto; discriminate].
  destruct (m_decodePid env) as [p|]; [|cbn; repeat split; auto; discriminate].
  cbn.
  destruct (m_FindProcess env (pid_PidFirstChild p));
    [cbn; repeat split; auto; discriminate|].
  destruct (m_FindProcess env (pid_Pid p)); [cbn; repeat split; auto; discriminate|].
  cbn.
  destruct (m_Sendmsg env) eqn:Hmsg.
  { cbn. repeat split; auto;
      try (intros _; right; right; left; split; [discriminate | eauto]). }
  destruct (ReqMsg e) as [reqMsg|]; [|cbn; repeat split; auto].
  destruct (m_Marshal env); [cbn; repeat split; auto; discriminate|].
  destruct (m_Write env); [cbn; repeat split; auto; discriminate|].
  cbn.
  destruct (async e) eqn:Hasync; cbn.
  { repeat split; auto;
      try (intros _; right; right; right; split; [reflexivity | eauto]). }
  destruct (processResponse _ (m_response env)) as [e1 [ierr|]]; cbn;
    repeat split; auto; discriminate.
Qed.

(** X17. An asynchronous request returns as soon as the request is
    written: the response is not read, the pipe is not shut down, the
    grand-child is not waited for, and the event is the one given with the
    pipe opened and the grand-child as its process.  TerminateRequest then
    closes the account of the reaper, whatever it meets. *)
Theorem async_request_returns_before_response
    (env : MasterEnv) (e e' : NSenterEvent) (acts : list MasterAction) :
  async e = true ->
  SendRequest env e = (Returned (e', None), acts) ->
  exists grandChild reqMsg,
    m_decodePid env = inl grandChild
    /\ ReqMsg e = Some reqMsg
    /\ e' = setProcess (Some (pid_Pid grandChild)) (setParentPipe true e)
    /\ last acts = Some (WritePipe (marshalMessage reqMsg))
    /\ pipeUses acts = [UseConfig; UsePid; UseCreds; UseRequest]
    /\ forall env',
         started (acts ++ snd (TerminateRequest env' e')) = 1%nat
         /\ ended (acts ++ snd (TerminateRequest env' e')) = 1%nat.
Proof.
  intros Hasync Hrun.
  pose proof (async_then_terminate_balanced env) as Hbal.
  destruct (SendRequest_success _ _ _ _ Hrun)
    as (p & reqMsg & rest & Hdec & Hreq & _ & Hacts & Hrest).
  rewrite Hasync in Hrest. subst rest.
  exists p, reqMsg. split; [exact Hdec|]. split; [exact Hreq|].
  assert (He : e' = setProcess (Some (pid_Pid p)) (setParentPipe true e)).
  { revert Hrun. unfold SendRequest.
    destruct (m_NewSockPair env); [discriminate|].
    destruct (m_SetsockoptInt env); [discriminate|].
    destruct (m_cmdStart env); [discriminate|].
    destruct (m_ioCopy env); [discriminate|].
    destruct (m_Wait env) as [[|]|]; try discriminate.
    rewrite Hdec. cbn.
    destruct (m_FindProcess env (pid_PidFirstChild p)); [discriminate|].
    destruct (m_FindProcess env (pid_Pid p)); [discriminate|].
    cbn.
    destruct (m_Sendmsg env); [discriminate|].
    rewrite Hreq.
    destruct (m_Marshal env); [discriminate|].
    destruct (m_Write env); [discriminate|].
    cbn. rewrite Hasync. cbn. intros Hr; inversion Hr; reflexivity. }
  split; [exact He|]. subst acts. split; [reflexivity|]. split; [reflexivity|].
  intros env'. exact (Hbal env' e e' _ Hasync Hrun).
Qed.

(** X18. A synchronous SendRequest that returns no error has stored a
    response whose tag is a response tag, the one the agent wrote; the
    tag may be ErrorResponse: an error of the agent's operation is not an
    error of SendRequest. *)
Theorem SendRequest_sync_stores_response
    (env : MasterEnv) (e e' : NSenterEvent) (acts : list MasterAction) :
  async e = false ->
  SendRequest env e = (Returned (e', None), acts) ->
  exists nsenterMsg p,
    m_response env = inl nsenterMsg
    /\ isResponseType (env_Type nsenterMsg) = true
    /\ ResMsg e' = Some {| MsgType := env_Type nsenterMsg; Payload := p |}
    /\ ReceiveResponse e' = ResMsg e'
    /\ pipeUses acts = protocol.
Proof.
  intros Hsync Hrun.
  destruct (SendRequest_success _ _ _ _ Hrun)
    as (p & reqMsg & rest & Hdec & Hreq & _ & Hacts & Hrest).
  rewrite Hsync in Hrest. subst rest.
  revert Hrun. unfold SendRequest.
  destruct (m_NewSockPair env); [discriminate|].
  destruct (m_SetsockoptInt env); [discriminate|].
  destruct (m_cmdStart env); [discriminate|].
  destruct (m_ioCopy env); [discriminate|].
  destruct (m_Wait env) as [[|]|]; try discriminate.
  rewrite Hdec. cbn.
  destruct (m_FindProcess env (pid_PidFirstChild p)); [discriminate|].
  destruct (m_FindProcess env (pid_Pid p)); [discriminate|].
  cbn.
  destruct (m_Sendmsg env); [discriminate|].
  rewrite Hreq.
  destruct (m_Marshal env); [discriminate|].
  destruct (m_Write env); [discriminate|].
  cbn. rewrite Hsync. cbn.
  pose proof (processResponse_outcome
                (setProcess (Some (pid_Pid p)) (setParentPipe true e))
                (m_response env)) as Hf.
  destruct (processResponse _ (m_response env)) as [e1 [ierr|]]; cbn;
    [discriminate|].
  destruct Hf as (nsenterMsg & q & Hresp & Hty & He1).
  intros Hr; inversion Hr; subst.
  exists nsenterMsg, q. repeat split; assumption.
Qed.

(** X19. Whatever fails, the master uses its end of the pipe in the
    order of the protocol: the uses are an initial part of configuration,
    pid report, credentials, request, response. *)
Theorem SendRequest_follows_protocol (env : MasterEnv) (e : NSenterEvent) :
  exists n : nat, pipeUses (snd (SendRequest env e)) = take n protocol.
Proof.
  unfold SendRequest.
  destruct (m_NewSockPair env); [now exists 0%nat|].
  destruct (m_SetsockoptInt env); [now exists 0%nat|].
  destruct (m_cmdStart env); [now exists 0%nat|].
  destruct (m_ioCopy env); [now exists 1%nat|].
  destruct (m_Wait env) as [[|]|]; try (now exists 1%nat).
  destruct (m_decodePid env) as [p|]; [|now exists 2%nat].
  cbn.
  destruct (m_FindProcess env (pid_PidFirstChild p)); [now exists 2%nat|].
  destruct (m_FindProcess env (pid_Pid p)); [now exists 2%nat|].
  cbn.
  destruct (m_Sendmsg env); [now exists 3%nat|].
  destruct (ReqMsg e) as [reqMsg|]; [|now exists 3%nat].
  destruct (m_Marshal env); [now exists 3%nat|].
  destruct (m_Write env); [now exists 4%nat|].
  cbn.
  destruct (async e); cbn; [now exists 4%nat|].
  destruct (processResponse _ (m_response env)) as [e1 [ierr|]]; now exists 5%nat.
Qed.

(** X20. TerminateRequest calls nsenterEnded() once, as its last action,
    on each of its paths and never nsenterStarted(); it asks the reaper to
    reap exactly when it returns an error; when it returns none the event
    has no process left, and on an event without a process it does nothing
    else. *)
Theorem TerminateRequest_ends_once (env : MasterEnv) (e : NSenterEvent) :
  exists e' err pre,
    TerminateRequest env e = (Returned (e', err), pre ++ [nsenterEnded])
    /\ started pre = 0%nat /\ ended pre = 0%nat
    /\ (reaped pre = 1%nat <-> err <> None)
    /\ (err = None -> Process e' = None)
    /\ (err <> None -> e' = e)
    /\ (Process e = None -> pre = [] /\ e' = e /\ err = None).
Proof.
  unfold TerminateRequest.
  destruct (Process e) as [p|] eqn:Hp.
  - destruct (m_Shutdown env) as [serr|].
    + exists e, (Some serr), [Shutdown; nsenterReapReq].
      repeat split; try discriminate; try reflexivity; congruence.
    + destruct (m_Kill env) as [kerr|].
      * exists e, (Some kerr), [Shutdown; Kill p; nsenterReapReq].
        repeat split; try discriminate; try reflexivity; congruence.
      * exists (setProcess None e), None, [Shutdown; Kill p; WaitProcess p].
        repeat split; try discriminate; try reflexivity; try congruence.
  - exists e, None, [].
    repeat split; try discriminate; try reflexivity; try congruence.
Qed.

End MasterProperties.

(** * Further properties of the /proc/sys/net/unix handler *)

Lemma ProcSysNetUnix_resources (hs : HandlerServiceIface) (s : string) :
  EmuResourceMap (ProcSysNetUnix_Handler hs) !! s
  = if String.eqb s "max_dgram_qlen" then
      Some {| Kind := FileEmuResource; Mode := 420; Enabled := true;
              Mutex := {| locked := false |} |}
    else None.
Proof.
  cbn [ProcSysNetUnix_Handler EmuResourceMap].
  destruct (String.eqb s "max_dgram_qlen") eqn:Hs.
  - apply String.eqb_eq in Hs. subst s. apply lookup_singleton_eq.
  - apply String.eqb_neq in Hs. apply lookup_singleton_ne. congruence.
Qed.

(** X21. Lookup, which goes by the map of emulated resources, and Open
    and Write, which go by a switch on the name, agree on what the handler
    emulates.  For max_dgram_qlen Lookup answers with a file of mode 0644
    and Open succeeds, both without the /proc/sys/ handler and without an
    agent operation; for every other node the three are the call of the
    /proc/sys/ handler, or an error when there is none. *)
Theorem emulated_node_is_max_dgram_qlen
    (findHandler : string -> option HandlerMethods) (now : Z)
    (writeFileMaxInt : HandlerBase -> IOnode -> HandlerRequest -> ReadResult)
    (hs : HandlerServiceIface) (n : IOnode) (req : HandlerRequest) :
  (node_Name n = "max_dgram_qlen" ->
   Lookup findHandler now (ProcSysNetUnix_Handler hs) n req
   = {| lookup_info :=
          Some {| Fname := "max_dgram_qlen"; Fsize := 0; Fmode := 420;
                  FmodTime := now; FisDir := false; Fsys := zeroStat_t |};
        lookup_err := None; lookup_ops := [] |}
   /\ Open findHandler (ProcSysNetUnix_Handler hs) n req
      = {| open_err := None; open_ops := [] |}
   /\ Write findHandler writeFileMaxInt (ProcSysNetUnix_Handler hs) n req
      = writeFileMaxInt (ProcSysNetUnix_Handler hs) n req)
  /\ (node_Name n <> "max_dgram_qlen" ->
      forall common, findHandler "/proc/sys/" = Some common ->
        Lookup findHandler now (ProcSysNetUnix_Handler hs) n req = hm_Lookup common n req
        /\ Open findHandler (ProcSysNetUnix_Handler hs) n req = hm_Open common n req
        /\ Write findHandler writeFileMaxInt (ProcSysNetUnix_Handler hs) n req
           = hm_Write common n req)
  /\ (node_Name n <> "max_dgram_qlen" ->
      findHandler "/proc/sys/" = None ->
      lookup_err (Lookup findHandler now (ProcSysNetUnix_Handler hs) n req)
      = Some (ErrorString "No /proc/sys/ handler found")
      /\ open_err (Open findHandler (ProcSysNetUnix_Handler hs) n req)
         = Some (ErrorString "No /proc/sys/ handler found")
      /\ read_err (Write findHandler writeFileMaxInt (ProcSysNetUnix_Handler hs) n req)
         = Some (ErrorString "No /proc/sys/ handler found")).
Proof.
  unfold Lookup, Open, Write. rewrite ProcSysNetUnix_resources.
  split; [|split].
  - intros Hname. rewrite Hname.
    replace ("max_dgram_qlen" =? "max_dgram_qlen")%string with true by reflexivity.
    repeat split.
  - intros Hname common Hfind. apply String.eqb_neq in Hname.
    rewrite Hname, Hfind. repeat split.
  - intros Hname Hfind. apply String.eqb_neq in Hname.
    rewrite Hname, Hfind. repeat split.
Qed.

(** X22. GetResourceMutex returns a pointer exactly for a registered
    name.  The pointer is always to a cell that did not exist before the
    call and that holds a copy of the map element; the cells that existed
    are not touched, and for an unknown name nothing is allocated. *)
Theorem GetResourceMutex_allocates (h : HandlerBase) (s : string) (heap : Heap) :
  (fst (GetResourceMutex h s heap) <> None <-> is_Some (EmuResourceMap h !! s))
  /\ (forall i r, heap !! i = Some r -> snd (GetResourceMutex h s heap) !! i = Some r)
  /\ (fst (GetResourceMutex h s heap) = None -> snd (GetResourceMutex h s heap) = heap)
  /\ (forall a, fst (GetResourceMutex h s heap) = Some a ->
                heap !! a = None
                /\ snd (GetResourceMutex h s heap) !! a = EmuResourceMap h !! s).
Proof.
  unfold GetResourceMutex.
  destruct (EmuResourceMap h !! s) as [resource|] eqn:Hreg; cbn [fst snd].
  - split; [split; [eauto | discriminate]|].
    split; [intros i r Hi; now apply lookup_app_l_Some|].
    split; [discriminate|].
    intros a Ha. inversion Ha; subst. split.
    + apply lookup_ge_None. lia.
    + rewrite lookup_app_r by lia. now rewrite Nat.sub_diag.
  - split; [split; [congruence | intros [x Hx]; discriminate]|].
    split; [auto|]. split; [auto | discriminate].
Qed.

(** * An unmount batch with a target that cannot be resolved *)

Section UmountUnresolved.

Context {World : Type} `{Kernel World}.

Lemma umountLoop_unresolved (process : Z) (before : list UmountSyscallPayload) :
  forall failing after w calls w1 s err,
    UmountsOk process before w calls w1 ->
    ResolveProcSelf process (Umount_Target failing) w1 = (s, Some err) ->
    umountLoop process (before ++ failing :: after) w = (Some err, None, w1, calls).
Proof.
  induction before as [|p ps IH]; intros failing after w calls w1 s err Hok Hfail.
  - inversion Hok; subst. cbn [app umountLoop]. now rewrite Hfail.
  - inversion Hok as [|? ? ? c0 wa cs wb Hp Hps]; subst.
    inversion Hp as [tgt w' Hr Hu]; subst.
    cbn [app umountLoop]. rewrite Hr, Hu.
    now rewrite (IH failing after _ _ _ _ _ Hps Hfail).
Qed.

(** X23. When the target of an entry of an unmount batch cannot be
    resolved, the batch stops there: the entries before it stay
    unmounted, those after it are not attempted, and the function returns
    with the event as it was, so without a response message of its own. *)
Theorem umount_batch_unresolved_target
    (e : NSenterEvent) (w : World) (t : NSenterMsgType)
    (before after : list UmountSyscallPayload) (failing : UmountSyscallPayload)
    (calls : list SysCall) (w1 : World) (s : string) (err : error) :
  ReqMsg e = Some {| MsgType := t;
                     Payload := PUmountSyscall (before ++ failing :: after) |} ->
  UmountsOk (Pid e) before w calls w1 ->
  ResolveProcSelf (Pid e) (Umount_Target failing) w1 = (s, Some err) ->
  processUmountSyscallRequest e w = (Returned (e, None), w1, calls).
Proof.
  intros Hreq Hok Hfail. unfold processUmountSyscallRequest. rewrite Hreq.
  now rewrite (umountLoop_unresolved _ _ _ _ _ _ _ _ _ Hok Hfail).
Qed.

End UmountUnresolved.

Lemma umount_batch_unresolved_target_witness :
  processUmountSyscallRequest
    (agentEvent 4242 UmountSyscallRequest
       (PUmountSyscall [umountOf "/m1"; umountOf "proc/self/cwd"; umountOf "/m2"]))
    (["/m2"; "/m1"] : Scenario.World)
  = (Returned
       (agentEvent 4242 UmountSyscallRequest
          (PUmountSyscall [umountOf "/m1"; umountOf "proc/self/cwd"; umountOf "/m2"]),
        None), ["/m2"], [SysUnmount "/m1" 0]).
Proof.
  eapply (umount_batch_unresolved_target (World := Scenario.World) (H := kernel)
            _ _ UmountSyscallRequest [umountOf "/m1"] [umountOf "/m2"]
            (umountOf "proc/self/cwd")).
  - reflexivity.
  - eapply umounts_cons; [eapply (umount_ok (World := Scenario.World)); reflexivity|].
    apply umounts_nil.
  - reflexivity.
Defined.

(** * A read, from the master to the agent and back *)

Section EndToEnd.

Context {World : Type} `{Kernel World}.
Context `{JsonCodec FileInfo} `{JsonCodec MountInfoRespPayload}
        `{JsonCodec MountInodeRespPayload} `{JsonCodec IOerror}.

(** The response a synchronous SendRequest stores is what processResponse
    makes of what the agent wrote. *)
Lemma SendRequest_sync_result
    (env : MasterEnv) (e e' : NSenterEvent) (acts : list MasterAction) :
  async e = false ->
  SendRequest env e = (Returned (e', None), acts) ->
  exists p,
    m_decodePid env = inl p
    /\ processResponse (setProcess (Some (pid_Pid p)) (setParentPipe true e))
         (m_response env) = (e', None).
Proof.
  intros Hsync. unfold SendRequest.
  destruct (m_NewSockPair env); [discriminate|].
  destruct (m_SetsockoptInt env); [discriminate|].
  destruct (m_cmdStart env); [discriminate|].
  destruct (m_ioCopy env); [discriminate|].
  destruct (m_Wait env) as [[|]|]; try discriminate.
  destruct (m_decodePid env) as [p|]; [|discriminate].
  cbn.
  destruct (m_FindProcess env (pid_PidFirstChild p)); [discriminate|].
  destruct (m_FindProcess env (pid_Pid p)); [discriminate|].
  cbn.
  destruct (m_Sendmsg env); [discriminate|].
  destruct (ReqMsg e) as [reqMsg|]; [|discriminate].
  destruct (m_Marshal env); [discriminate|].
  destruct (m_Write env); [discriminate|].
  cbn. rewrite Hsync. cbn.
  destruct (processResponse _ (m_response env)) as [e1 [ierr|]] eqn:Hresp; cbn;
    [discriminate|].
  intros Hr; inversion Hr; subst. exists p. split; [reflexivity | exact Hresp].
Qed.


End EndToEnd.


(** * The properties above, on the small concrete world *)

Lemma Init_without_credentials_witness :
  exists err,
    getProcCreds newAgentEvent
      (withRecvmsg (RecvMsgs []) (pipeFor 4242 readFileRequest))
    = (newAgentEvent, Some err)
    /\ Init (withRecvmsg (RecvMsgs []) (pipeFor 4242 readFileRequest))
         ([] : Scenario.World)
       = (Returned
            (Some (marshalMessage
                     {| MsgType := ErrorResponse;
                        Payload := PRef (PIOerror {| RcvError := Some err |}) |}),
             None), [], []).
Proof.
  apply (Init_without_credentials (World := Scenario.World)
           (withRecvmsg (RecvMsgs []) (pipeFor 4242 readFileRequest)) []).
  - right. intros cred. discriminate.
  - reflexivity.
Defined.


Lemma Init_reply_tag_witness :
  ReadFileResponse = ErrorResponse
  \/ responseType ReadFileRequest = Some ReadFileResponse.
Proof.
  exact (Init_reply_tag (World := Scenario.World)
           (pipeFor 4242 readFileRequest) (marshalMessage readFileRequest) [] []
           {| env_Type := ReadFileResponse; env_Payload := JString "512" |} None
           [SysReadFile "/proc/sys/net/unix/max_dgram_qlen"] eq_refl eq_refl).
Defined.

Lemma Init_unsupported_request_witness :
  Init (pipeWith {| env_Type := LookupResponse; env_Payload := JNull |})
    ([] : Scenario.World)
  = (Returned
       (Some {| env_Type := ErrorResponse;
                env_Payload := JString "Unsupported request" |}, None), [], []).
Proof.
  apply (Init_unsupported_request (World := Scenario.World)
           (pipeWith {| env_Type := LookupResponse; env_Payload := JNull |})
           {| env_Type := LookupResponse; env_Payload := JNull |} []
           (setPid 4242 newAgentEvent)); reflexivity.
Defined.

Lemma OpenFile_opens_then_closes_witness :
  exists ev w' calls,
    processOpenFileRequest (agentEvent 4242 OpenFileRequest (Payload openFileRequest))
      ([] : Scenario.World)
    = (Returned (ev, None), w', calls)
    /\ calls = [SysOpenFile "/proc/sys/net/unix/max_dgram_qlen" 0 0;
                SysClose "/proc/sys/net/unix/max_dgram_qlen"].
Proof.
  destruct (OpenFile_opens_then_closes (World := Scenario.World)
              (agentEvent 4242 OpenFileRequest (Payload openFileRequest)) []
              OpenFileRequest
              {| OpenFile_File := "/proc/sys/net/unix/max_dgram_qlen";
                 OpenFile_Flags := "0"; OpenFile_Mode := "0" |} eq_refl)
    as (ev & w' & calls & Hrun & _ & Hok).
  exists ev, w', calls. split; [exact Hrun|].
  cbn in Hrun. inversion Hrun. reflexivity.
Defined.

Lemma mount_batch_all_mounted_witness :
  processMountSyscallRequest
    (agentEvent 4242 MountSyscallRequest
       (PMountSyscall [bindMount "/a" "/m1"; bindMount "/proc/self/cwd" "/m2"]))
    ([] : Scenario.World)
  = (Returned
       (SetResponseMsg
          (Some {| MsgType := MountSyscallResponse; Payload := PString EmptyString |})
          (agentEvent 4242 MountSyscallRequest
             (PMountSyscall [bindMount "/a" "/m1"; bindMount "/proc/self/cwd" "/m2"])),
        None),
     ["/m2"; "/m1"],
     [SysMount "/a" "/m1" EmptyString 4096 EmptyString;
      SysMount "/proc/4242/cwd" "/m2" EmptyString 4096 EmptyString]).
Proof.
  etransitivity.
  eapply (proj1 (mount_batch_all_mounted
                   (agentEvent 4242 MountSyscallRequest
                      (PMountSyscall [bindMount "/a" "/m1";
                                      bindMount "/proc/self/cwd" "/m2"]))
                   ([] : Scenario.World) MountSyscallRequest
                   (bindMount "/a" "/m1") [bindMount "/proc/self/cwd" "/m2"]
                   [] ["/m2"; "/m1"] []
                   [bindMount "/a" "/m1"; bindMount "/proc/4242/cwd" "/m2"]
                   eq_refl _ _)).
  reflexivity.
  Unshelve.
  - apply not_overlay. discriminate.
  - repeat (eapply mounts_cons;
            [eapply (mount_ok (World := Scenario.World)); reflexivity|]).
    apply mounts_nil.
Defined.

Lemma mount_batch_unmounts_only_on_error_witness :
  isErrorMessage
    (ResMsg (SetResponseMsg (errorResponse ENOENT)
               (agentEvent 4242 MountSyscallRequest
                  (PMountSyscall [bindMount "/a" "/m1"; bindMount "/bogus" "/m2"]))))
  = true.
Proof.
  apply (mount_batch_unmounts_only_on_error (World := Scenario.World)
           (agentEvent 4242 MountSyscallRequest
              (PMountSyscall [bindMount "/a" "/m1"; bindMount "/bogus" "/m2"]))
           _ [] [] None
           [SysMount "/a" "/m1" EmptyString 4096 EmptyString;
            SysMount "/bogus" "/m2" EmptyString 4096 EmptyString;
            SysUnmount "/m1" 0]).
  - reflexivity.
  - apply List.Exists_exists. exists (SysUnmount "/m1" 0).
    split; [cbn; tauto | reflexivity].
Defined.

Lemma mount_batch_personality_witness :
  Forall (fun c => isAdjustPersonality c = false)
    (snd (processMountSyscallRequest
            (agentEvent 4242 MountSyscallRequest
               (PMountSyscall [bindMount "/a" "/m1"; overlayMount "/m2"]))
            ([] : Scenario.World)))
  /\ exists calls,
       snd (processMountSyscallRequest
              (agentEvent 4242 MountSyscallRequest
                 (PMountSyscall [overlayMount "/m2"; bindMount "/a" "/m1"]))
              ([] : Scenario.World))
       = SysAdjustPersonality 1000 1000 "/" "/" [] :: calls
       /\ Forall (fun c => isAdjustPersonality c = false) calls.
Proof.
  split.
  - apply (proj1 (mount_batch_personality (World := Scenario.World)
                    (agentEvent 4242 MountSyscallRequest
                       (PMountSyscall [bindMount "/a" "/m1"; overlayMount "/m2"]))
                    [] MountSyscallRequest (bindMount "/a" "/m1") [overlayMount "/m2"]
                    eq_refl)).
    discriminate.
  - apply (proj1 (proj2 (mount_batch_personality (World := Scenario.World)
                    (agentEvent 4242 MountSyscallRequest
                       (PMountSyscall [overlayMount "/m2"; bindMount "/a" "/m1"]))
                    [] MountSyscallRequest (overlayMount "/m2") [bindMount "/a" "/m1"]
                    eq_refl))).
    reflexivity.
Defined.

Lemma chown_batch_stops_without_rollback_witness :
  processChownSyscallRequest
    (agentEvent 4242 ChownSyscallRequest
       (PChownSyscall [chownOf "/a"; chownOf "/readonly"; chownOf "/b"]))
    ([] : Scenario.World)
  = (Returned
       (SetResponseMsg (errorResponse EPERM)
          (agentEvent 4242 ChownSyscallRequest
             (PChownSyscall [chownOf "/a"; chownOf "/readonly"; chownOf "/b"])),
        None), [],
     [SysChown "/a" 1000 1000; SysChown "/readonly" 1000 1000])
  /\ processChownSyscallRequest
       (agentEvent 4242 ChownSyscallRequest
          (PChownSyscall [chownOf "/a"; chownOf "etc/passwd"; chownOf "/b"]))
       ([] : Scenario.World)
     = (Returned
          (SetResponseMsg
             (Some {| MsgType := ChownSyscallResponse; Payload := PString EmptyString |})
             (agentEvent 4242 ChownSyscallRequest
                (PChownSyscall [chownOf "/a"; chownOf "etc/passwd"; chownOf "/b"])),
           None), [], [SysChown "/a" 1000 1000]).
Proof.
  split.
  - etransitivity.
    eapply (proj1 (chown_batch_stops_without_rollback (World := Scenario.World)
                     (agentEvent 4242 ChownSyscallRequest
                        (PChownSyscall [chownOf "/a"; chownOf "/readonly"; chownOf "/b"]))
                     [] ChownSyscallRequest)
              [chownOf "/a"] (chownOf "/readonly") [chownOf "/b"]).
    + reflexivity.
    + eapply chowns_cons; [eapply (chown_ok (World := Scenario.World)); reflexivity|].
      apply chowns_nil.
    + eapply (chown_refused (World := Scenario.World)); reflexivity.
    + reflexivity.
  - etransitivity.
    eapply (proj1 (proj2 (chown_batch_stops_without_rollback (World := Scenario.World)
                     (agentEvent 4242 ChownSyscallRequest
                        (PChownSyscall [chownOf "/a"; chownOf "etc/passwd";
                                        chownOf "/b"]))
                     [] ChownSyscallRequest))
              [chownOf "/a"] (chownOf "etc/passwd") [chownOf "/b"]).
    + reflexivity.
    + eapply chowns_cons; [eapply (chown_ok (World := Scenario.World)); reflexivity|].
      apply chowns_nil.
    + reflexivity.
    + reflexivity.
Defined.

Lemma ReadFile_content_is_trimmed_witness :
  (forall c, firstChar "512" = Some c -> is_space c = false)
  /\ (forall c, lastChar "512" = Some c -> is_space c = false).
Proof.
  destruct (ReadFile_content_is_trimmed (World := Scenario.World) (H := kernel)
              (agentEvent 4242 ReadFileRequest (Payload readFileRequest))
              (SetResponseMsg
                 (Some {| MsgType := ReadFileResponse; Payload := PString "512" |})
                 (agentEvent 4242 ReadFileRequest (Payload readFileRequest)))
              [] [] None [SysReadFile "/proc/sys/net/unix/max_dgram_qlen"] "512"
              eq_refl eq_refl)
    as (Hfirst & Hlast & _).
  split; assumption.
Defined.

Lemma Sleep_duration_witness :
  processSleepRequest
    (agentEvent 4242 SleepRequest (PSleepReq {| Ival := "2" |})) ([] : Scenario.World)
  = (Returned
       (SetResponseMsg
          (Some {| MsgType := SleepResponse; Payload := PString EmptyString |})
          (agentEvent 4242 SleepRequest (PSleepReq {| Ival := "2" |})),
        None), [], [SysSleep 2000000000]).
Proof.
  etransitivity.
  apply (proj1 (Sleep_duration (World := Scenario.World) (H := kernel)
                  (agentEvent 4242 SleepRequest (PSleepReq {| Ival := "2" |})) []
                  SleepRequest {| Ival := "2" |} eq_refl) 2).
  - reflexivity.
  - lia.
  - reflexivity.
Defined.

Lemma SendRequest_error_keeps_response_witness :
  ResMsg (setProcess (Some 9001) (setParentPipe true (masterEvent 4242 readFileRequest false)))
  = ResMsg (masterEvent 4242 readFileRequest false).
Proof.
  exact (proj1 (SendRequest_error_keeps_response
                  (allGood 9001 9000 (inr (ErrorString "EOF")))
                  (masterEvent 4242 readFileRequest false) _ _ _ eq_refl)).
Defined.

Lemma async_request_returns_before_response_witness :
  exists grandChild reqMsg,
    pid_Pid grandChild = 9001
    /\ reqMsg = readFileRequest
    /\ last (snd (SendRequest (allGood 9001 9000 (inr (ErrorString "EOF")))
                    (masterEvent 4242 readFileRequest true)))
       = Some (WritePipe (marshalMessage reqMsg)).
Proof.
  destruct (async_request_returns_before_response
              (allGood 9001 9000 (inr (ErrorString "EOF")))
              (masterEvent 4242 readFileRequest true) _ _ eq_refl eq_refl)
    as (g & m & Hdec & Hreq & _ & Hlast & _).
  exists g, m.
  split; [cbn in Hdec; inversion Hdec; reflexivity|].
  split; [cbn in Hreq; inversion Hreq; reflexivity|].
  exact Hlast.
Defined.

Lemma SendRequest_sync_stores_response_witness :
  exists nsenterMsg p,
    inl {| env_Type := ReadFileResponse; env_Payload := JString "512" |}
    = (inl nsenterMsg : Envelope + error)
    /\ isResponseType (env_Type nsenterMsg) = true
    /\ ResMsg (setProcess (Some 9001)
                 (SetResponseMsg
                    (Some {| MsgType := ReadFileResponse; Payload := PString "512" |})
                    (setParentPipe true (masterEvent 4242 readFileRequest false))))
       = Some {| MsgType := env_Type nsenterMsg; Payload := p |}.
Proof.
  destruct (SendRequest_sync_stores_response
              (allGood 9001 9000
                 (inl {| env_Type := ReadFileResponse; env_Payload := JString "512" |}))
              (masterEvent 4242 readFileRequest false) _ _ eq_refl eq_refl)
    as (m & p & Hresp & Hty & Hres & _).
  exists m, p. repeat split; assumption.
Defined.

Lemma emulated_node_is_max_dgram_qlen_witness :
  (Lookup findCommon 1700000000 (ProcSysNetUnix_Handler (registry None))
     max_dgram_qlen (readAt 0)
   = {| lookup_info :=
          Some {| Fname := "max_dgram_qlen"; Fsize := 0; Fmode := 420;
                  FmodTime := 1700000000; FisDir := false; Fsys := zeroStat_t |};
        lookup_err := None; lookup_ops := [] |}
   /\ Open findCommon (ProcSysNetUnix_Handler (registry None)) max_dgram_qlen (readAt 0)
      = {| open_err := None; open_ops := [] |})
  /\ (Lookup findCommon 1700000000 (ProcSysNetUnix_Handler (registry None))
        nosuch (readAt 0)
      = {| lookup_info := None; lookup_err := Some ENOENT; lookup_ops := [] |}
      /\ Open findCommon (ProcSysNetUnix_Handler (registry None)) nosuch (readAt 0)
         = {| open_err := Some ENOENT; open_ops := [] |}).
Proof.
  pose proof (emulated_node_is_max_dgram_qlen findCommon 1700000000
                (fun h n req => hm_Write commonMethods n req) (registry None)) as Hh.
  split.
  - destruct (proj1 (Hh max_dgram_qlen (readAt 0)) eq_refl) as (Hl & Ho & _).
    split; assumption.
  - destruct (proj1 (proj2 (Hh nosuch (readAt 0))) ltac:(discriminate)
                commonMethods eq_refl) as (Hl & Ho & _).
    split; assumption.
Defined.
